(** * Ai-Teacher: a shallow embedding of the request/response orchestration

    The development follows the TypeScript sources of the repository:
    - [src/hooks/useQuizGenerator.ts]   (module [QuizGenerator])
    - [src/hooks/useOCRProcessor.ts]    (module [OCR])
    - the [useAIResponse] hook          (module [AI])
    - [src/App.tsx]                     (module [App])
    - the [QuizSection] component       (module [QuizSection])

    The definitions come first; the properties follow, one module of facts
    per module of definitions.

    JavaScript strings are sequences of UTF-16 code units, exceptions are
    explicit completions, React state is threaded through a small
    state-and-exception monad, and every call to an external collaborator
    (OCR worker, canvas, generative model, speech synthesis, console) is
    recorded in an event log. *)

From Stdlib Require Import List ZArith NArith Bool Ascii String Lia.
From Stdlib Require QArith DecimalString.
Import ListNotations.

Local Open Scope Z_scope.
#[local] Set Warnings "-register-all".

(* ================================================================= *)
(** ** JavaScript values used by the program *)

Module Js.

(** A string is the list of its UTF-16 code units. *)
Definition JsString := list N.

Definition js (s : string) : JsString :=
  map N_of_ascii (list_ascii_of_string s).
Arguments js s%_string.

(** [a === b] on strings: the same code units in the same order. *)
Fixpoint str_eqb (a b : JsString) : bool :=
  match a, b with
  | [], [] => true
  | x :: a', y :: b' => N.eqb x y && str_eqb a' b'
  | _, _ => false
  end.

(** Truthiness of a string: [!s] holds exactly for the empty string. *)
Definition truthy (s : JsString) : bool :=
  match s with [] => false | _ :: _ => true end.

(** ECMAScript [WhiteSpace] and [LineTerminator] code units, the set that
    [String.prototype.trim] strips and that [\s] matches. *)
Definition is_space (c : N) : bool :=
  let z := Z.of_N c in
  ((9 <=? z) && (z <=? 13)) || (z =? 32) || (z =? 160) || (z =? 5760)
  || ((8192 <=? z) && (z <=? 8202)) || (z =? 8232) || (z =? 8233)
  || (z =? 8239) || (z =? 8287) || (z =? 12288) || (z =? 65279).

Fixpoint trim_start (s : JsString) : JsString :=
  match s with
  | c :: r => if is_space c then trim_start r else s
  | [] => []
  end.

Definition trim (s : JsString) : JsString :=
  rev (trim_start (rev (trim_start s))).

(** [s.split(',')[1]]: the piece between the first and the second comma,
    [undefined] ([None]) when the string has no comma. *)
Definition comma : N := 44%N.

Fixpoint until_comma (s : JsString) : JsString :=
  match s with
  | c :: r => if N.eqb c comma then [] else c :: until_comma r
  | [] => []
  end.

Fixpoint split_comma_1 (s : JsString) : option JsString :=
  match s with
  | c :: r => if N.eqb c comma then Some (until_comma r) else split_comma_1 r
  | [] => None
  end.

(** Values that a [throw] can carry.  Only [instanceof Error] and
    [.message] are ever observed. *)
Inductive ErrorClass := PlainError | TypeError | ReferenceError | SyntaxError.

Inductive JsThrown :=
| ErrorObj (cls : ErrorClass) (message : JsString)
| NonError.

(** A promise handed back by an external collaborator, taken at the moment
    it settles; also the result of a synchronous library call, which
    returns ([Resolves]) or throws ([Rejects]). *)
Inductive Outcome (A : Type) :=
| Resolves (a : A)
| Rejects (e : JsThrown).
Arguments Resolves {A} a.
Arguments Rejects {A} e.

(** Completion of a (possibly async) function body.  [Pending] is an
    [await] on a promise that never settles. *)
Inductive Completion (A : Type) :=
| Normal (a : A)
| Throw (e : JsThrown)
| Pending.
Arguments Normal {A} a.
Arguments Throw {A} e.
Arguments Pending {A}.

(** State-and-exception monad over a store [S]. *)
Definition M (S A : Type) := S -> Completion A * S.

Definition ret {S A} (a : A) : M S A := fun s => (Normal a, s).

Definition bind {S A B} (m : M S A) (k : A -> M S B) : M S B :=
  fun s =>
    match m s with
    | (Normal a, s') => k a s'
    | (Throw e, s') => (Throw e, s')
    | (Pending, s') => (Pending, s')
    end.

Definition throw {S A} (e : JsThrown) : M S A := fun s => (Throw e, s).
Definition never {S A} : M S A := fun s => (Pending, s).
Definition modify {S} (f : S -> S) : M S unit := fun s => (Normal tt, f s).
Definition gets {S A} (f : S -> A) : M S A := fun s => (Normal (f s), s).

Definition await {S A} (p : Outcome A) : M S A :=
  match p with
  | Resolves a => ret a
  | Rejects e => throw e
  end.

(** [try { body } catch (err) { handler }] *)
Definition try_catch {S A} (body : M S A) (handler : JsThrown -> M S A) : M S A :=
  fun s =>
    match body s with
    | (Throw e, s') => handler e s'
    | r => r
    end.

(** [try { body } finally { cleanup }]: the cleanup runs on normal and on
    abrupt completion, and the body's completion stands when the cleanup
    completes normally. *)
Definition try_finally {S A} (body : M S A) (cleanup : M S unit) : M S A :=
  fun s =>
    match body s with
    | (Pending, s') => (Pending, s')
    | (c, s') =>
        match cleanup s' with
        | (Normal _, s'') => (c, s'')
        | (Throw e, s'') => (Throw e, s'')
        | (Pending, s'') => (Pending, s'')
        end
    end.

Definition obind {A B} (o : Outcome A) (k : A -> Outcome B) : Outcome B :=
  match o with
  | Resolves a => k a
  | Rejects e => Rejects e
  end.

Definition when {S} (b : bool) (m : M S unit) : M S unit :=
  if b then m else ret tt.

End Js.

Import Js.

Declare Scope js_scope.
Delimit Scope js_scope with js.
Notation "x <- m ;; k" := (bind m (fun x => k))
  (at level 61, m at next level, right associativity) : js_scope.
Notation "m ;;; k" := (bind m (fun _ => k))
  (at level 61, right associativity) : js_scope.
Local Open Scope js_scope.

(* ================================================================= *)
(** ** JSON texts and [JSON.parse] *)

Module Json.

Local Open Scope N_scope.

(** A parsed JSON value.  A number keeps its lexeme: no arithmetic is ever
    done on it.  An object keeps its members in source order; on a
    duplicate key the last member wins, as in [JSON.parse]. *)
Inductive Json :=
| JNull
| JBool (b : bool)
| JNumber (lexeme : JsString)
| JString (s : JsString)
| JArray (elems : list Json)
| JObject (members : list (JsString * Json)).

Definition is_json_ws (c : N) : bool :=
  (c =? 32) || (c =? 9) || (c =? 10) || (c =? 13).

Fixpoint skip_ws (s : JsString) : JsString :=
  match s with
  | c :: r => if is_json_ws c then skip_ws r else s
  | [] => []
  end.

Definition is_digit (c : N) : bool := (48 <=? c) && (c <=? 57).

Definition hex_val (c : N) : option N :=
  if is_digit c then Some (c - 48)
  else if (65 <=? c) && (c <=? 70) then Some (c - 55)
  else if (97 <=? c) && (c <=? 102) then Some (c - 87)
  else None.

(** Single-character escapes: quote, backslash, slash, b, f, n, r, t. *)
Definition unescape (c : N) : option N :=
  if c =? 34 then Some 34
  else if c =? 92 then Some 92
  else if c =? 47 then Some 47
  else if c =? 98 then Some 8
  else if c =? 102 then Some 12
  else if c =? 110 then Some 10
  else if c =? 114 then Some 13
  else if c =? 116 then Some 9
  else None.

(** The characters of a string literal after its opening quote, up to and
    including the closing quote. *)
Fixpoint string_body (s acc : JsString) : option (JsString * JsString) :=
  match s with
  | [] => None
  | c :: r =>
      if c =? 34 then Some (rev acc, r)
      else if c <? 32 then None
      else if c =? 92 then
        match r with
        | [] => None
        | e :: r1 =>
            if e =? 117 then
              match r1 with
              | h1 :: h2 :: h3 :: h4 :: r2 =>
                  match hex_val h1, hex_val h2, hex_val h3, hex_val h4 with
                  | Some a, Some b, Some c', Some d =>
                      string_body r2 ((a * 4096 + b * 256 + c' * 16 + d) :: acc)
                  | _, _, _, _ => None
                  end
              | _ => None
              end
            else
              match unescape e with
              | Some u => string_body r1 (u :: acc)
              | None => None
              end
        end
      else string_body r (c :: acc)
  end.

Fixpoint digits (s : JsString) : JsString * JsString :=
  match s with
  | c :: r => if is_digit c then let (ds, r') := digits r in (c :: ds, r')
              else ([], s)
  | [] => ([], [])
  end.

Definition opt_bind {A B} (o : option A) (k : A -> option B) : option B :=
  match o with Some a => k a | None => None end.

(** A number lexeme: optional minus; a lone zero or a non-zero digit
    followed by digits; optional fraction; optional exponent. *)
Definition number (s : JsString) : option (JsString * JsString) :=
  let '(sign, s1) :=
    match s with
    | c :: r => if c =? 45 then ([c], r) else ([], s)
    | [] => ([], s)
    end in
  opt_bind
    (match s1 with
     | c :: r =>
         if c =? 48 then Some ([c], r)
         else if is_digit c then let (ds, r') := digits r in Some (c :: ds, r')
         else None
     | [] => None
     end)
    (fun '(int, s2) =>
  opt_bind
    (match s2 with
     | c :: r =>
         if c =? 46 then
           let (ds, r') := digits r in
           match ds with [] => None | _ => Some (c :: ds, r') end
         else Some ([], s2)
     | [] => Some ([], s2)
     end)
    (fun '(frac, s3) =>
  opt_bind
    (match s3 with
     | c :: r =>
         if (c =? 101) || (c =? 69) then
           let '(sg, r1) :=
             match r with
             | c1 :: r1 => if (c1 =? 43) || (c1 =? 45) then ([c1], r1) else ([], r)
             | [] => ([], r)
             end in
           let (ds, r2) := digits r1 in
           match ds with [] => None | _ => Some (c :: sg ++ ds, r2) end
         else Some ([], s3)
     | [] => Some ([], s3)
     end)
    (fun '(exp, s4) => Some (sign ++ int ++ frac ++ exp, s4)))).

Fixpoint strip_prefix (p s : JsString) : option JsString :=
  match p, s with
  | [], _ => Some s
  | a :: p', b :: s' => if a =? b then strip_prefix p' s' else None
  | _ :: _, [] => None
  end.

(** Recursive descent over the grammar of ECMA-404.  Every call consumes
    one unit of [fuel] and at least one code unit of input, so the length
    of the text is fuel enough. *)
Fixpoint value (fuel : nat) (s : JsString) : option (Json * JsString) :=
  match fuel with
  | O => None
  | S f =>
      match skip_ws s with
      | [] => None
      | c :: r =>
          if c =? 123 then
            match skip_ws r with
            | c1 :: r1 => if c1 =? 125 then Some (JObject [], r1)
                          else members f r []
            | [] => None
            end
          else if c =? 91 then
            match skip_ws r with
            | c1 :: r1 => if c1 =? 93 then Some (JArray [], r1)
                          else elements f r []
            | [] => None
            end
          else if c =? 34 then
            opt_bind (string_body r []) (fun '(str, r1) => Some (JString str, r1))
          else
            match strip_prefix (js "true") (c :: r),
                  strip_prefix (js "false") (c :: r),
                  strip_prefix (js "null") (c :: r) with
            | Some r1, _, _ => Some (JBool true, r1)
            | _, Some r1, _ => Some (JBool false, r1)
            | _, _, Some r1 => Some (JNull, r1)
            | None, None, None =>
                opt_bind (number (c :: r)) (fun '(lx, r1) => Some (JNumber lx, r1))
            end
      end
  end
with members (fuel : nat) (s : JsString) (acc : list (JsString * Json))
  : option (Json * JsString) :=
  match fuel with
  | O => None
  | S f =>
      match skip_ws s with
      | c :: r =>
          if c =? 34 then
            opt_bind (string_body r []) (fun '(key, r1) =>
              match skip_ws r1 with
              | c2 :: r2 =>
                  if c2 =? 58 then
                    opt_bind (value f r2) (fun '(v, r3) =>
                      match skip_ws r3 with
                      | c4 :: r4 =>
                          if c4 =? 44 then members f r4 (acc ++ [(key, v)])
                          else if c4 =? 125 then Some (JObject (acc ++ [(key, v)]), r4)
                          else None
                      | [] => None
                      end)
                  else None
              | [] => None
              end)
          else None
      | [] => None
      end
  end
with elements (fuel : nat) (s : JsString) (acc : list Json)
  : option (Json * JsString) :=
  match fuel with
  | O => None
  | S f =>
      opt_bind (value f s) (fun '(v, r3) =>
        match skip_ws r3 with
        | c4 :: r4 =>
            if c4 =? 44 then elements f r4 (acc ++ [v])
            else if c4 =? 93 then Some (JArray (acc ++ [v]), r4)
            else None
        | [] => None
        end)
  end.

(** [JSON.parse(text)]: one value, optionally surrounded by white space.
    The message of the [SyntaxError] depends on the engine and is never
    inspected by the program. *)
Definition JSON_parse (text : JsString) : Outcome Json :=
  match value (S (List.length text)) text with
  | Some (v, rest) =>
      match skip_ws rest with
      | [] => Resolves v
      | _ :: _ => Rejects (ErrorObj SyntaxError (js "Unexpected token in JSON"))
      end
  | None => Rejects (ErrorObj SyntaxError (js "Unexpected token in JSON"))
  end.

(** *** Property access on parsed values *)

(** [undefined] is not a JSON value. *)
Inductive Value :=
| Undefined
| Val (j : Json).

(** Own property of an object by key: the last member with that key. *)
Fixpoint lookup (key : JsString) (ms : list (JsString * Json)) : Value :=
  match ms with
  | [] => Undefined
  | (k, v) :: r =>
      match lookup key r with
      | Undefined => if str_eqb k key then Val v else Undefined
      | found => found
      end
  end.

Definition cannot_read : JsThrown :=
  ErrorObj TypeError (js "Cannot read properties of undefined").

(** The property names the program reads.  None of them is a property of
    [Object.prototype], [Array.prototype], [String.prototype],
    [Number.prototype] or [Boolean.prototype], so on anything but an object
    with such an own member the access yields [undefined]. *)
Inductive Field := F_questions | F_correctAnswer | F_explanation.

Definition field_name (f : Field) : JsString :=
  match f with
  | F_questions => js "questions"
  | F_correctAnswer => js "correctAnswer"
  | F_explanation => js "explanation"
  end.

(** [v.f] *)
Definition get_field (v : Value) (f : Field) : Outcome Value :=
  match v with
  | Undefined | Val JNull => Rejects cannot_read
  | Val (JObject ms) => Resolves (lookup (field_name f) ms)
  | Val _ => Resolves Undefined
  end.

(** The decimal digits of a natural number. *)
Definition decimal (n : Z) : JsString :=
  js (DecimalString.NilZero.string_of_int (Z.to_int n)).

Fixpoint strip_zeros (digits : JsString) : JsString :=
  match digits with
  | [] => []
  | d :: rest =>
      match strip_zeros rest with
      | [] => if N.eqb d 48%N then [] else [d]
      | rest' => d :: rest'
      end
  end.

(** The exponent notation of an integer of 22 digits or more: its first
    digit, the further significant digits after a point if there are any,
    and the exponent. *)
Definition exponential (digits : JsString) : JsString :=
  match strip_zeros digits with
  | [] => []
  | d :: [] => d :: js "e+" ++ decimal (Z.of_nat (List.length digits) - 1)%Z
  | d :: more =>
      d :: js "." ++ more ++ js "e+"
      ++ decimal (Z.of_nat (List.length digits) - 1)%Z
  end.

(** [ToString] of an integral number, which is also its property key: all
    its digits below 10^21 and the exponent notation from there on.  The
    digits are those of the integer itself; they are the ones JavaScript
    prints for every integer below 2^53 and, beyond, for every integer
    that has at most 15 significant digits. *)
Definition index_key (i : Z) : JsString :=
  if (Z.abs i <? 10 ^ 21)%Z then decimal i
  else (if (i <? 0)%Z then js "-" else []) ++ exponential (decimal (Z.abs i)).

(** [v[i]] for an integral number [i]. *)
Definition get_index (v : Value) (i : Z) : Outcome Value :=
  match v with
  | Undefined | Val JNull => Rejects cannot_read
  | Val (JArray xs) =>
      Resolves (if (0 <=? i)%Z
                then match nth_error xs (Z.to_nat i) with
                     | Some x => Val x
                     | None => Undefined
                     end
                else Undefined)
  | Val (JObject ms) => Resolves (lookup (index_key i) ms)
  | Val (JString s) =>
      Resolves (if (0 <=? i)%Z
                then match nth_error s (Z.to_nat i) with
                     | Some c => Val (JString [c])
                     | None => Undefined
                     end
                else Undefined)
  | Val _ => Resolves Undefined
  end.

(** [v === a] for a string [a]. *)
Definition strict_eq_string (v : Value) (a : JsString) : bool :=
  match v with
  | Val (JString s) => str_eqb s a
  | _ => false
  end.

(** Truthiness.  A number is falsy when its lexeme has no non-zero
    mantissa digit (the rounding of a tiny literal down to zero is left
    out; no number ever reaches the quiz store). *)
Fixpoint mantissa_zero (lx : JsString) : bool :=
  match lx with
  | [] => true
  | c :: r =>
      if (c =? 101) || (c =? 69) then true
      else if is_digit c && negb (c =? 48) then false
      else mantissa_zero r
  end.

Definition truthy (j : Json) : bool :=
  match j with
  | JNull => false
  | JBool b => b
  | JNumber lx => negb (mantissa_zero lx)
  | JString s => Js.truthy s
  | JArray _ | JObject _ => true
  end.

End Json.

Import Json.


(* ================================================================= *)
(** ** [useQuizGenerator] *)

Module QuizGenerator.

(** [interface QuizQuestion] and [interface Quiz]. *)
Record QuizQuestion := {
  question : JsString;
  options : list JsString;
  correctAnswer : JsString;
  explanation : JsString
}.

Record Quiz := {
  topic : JsString;
  questions : list QuizQuestion
}.

(** The value [JSON.parse] builds for a quiz of the declared shape. *)
Definition question_to_json (q : QuizQuestion) : Json :=
  JObject [ (js "question", JString (question q));
            (js "options", JArray (map JString (options q)));
            (js "correctAnswer", JString (correctAnswer q));
            (js "explanation", JString (explanation q)) ].

Definition quiz_to_json (q : Quiz) : Json :=
  JObject [ (js "topic", JString (topic q));
            (js "questions", JArray (map question_to_json (questions q))) ].

(** The hook's state, with the prompts sent to the model and the values
    passed to [console.error]. *)
Record Hook := {
  isGenerating : bool;
  currentQuiz : option Json;
  error : option JsString;
  requests : list JsString;
  console : list JsThrown
}.

Definition initial : Hook :=
  {| isGenerating := false; currentQuiz := None; error := None;
     requests := []; console := [] |}.

Definition setIsGenerating (b : bool) (h : Hook) : Hook :=
  {| isGenerating := b; currentQuiz := currentQuiz h; error := error h;
     requests := requests h; console := console h |}.

Definition setCurrentQuiz (q : option Json) (h : Hook) : Hook :=
  {| isGenerating := isGenerating h; currentQuiz := q; error := error h;
     requests := requests h; console := console h |}.

Definition setError (e : option JsString) (h : Hook) : Hook :=
  {| isGenerating := isGenerating h; currentQuiz := currentQuiz h; error := e;
     requests := requests h; console := console h |}.

Definition send (prompt : JsString) (h : Hook) : Hook :=
  {| isGenerating := isGenerating h; currentQuiz := currentQuiz h;
     error := error h; requests := requests h ++ [prompt];
     console := console h |}.

Definition console_error (e : JsThrown) (h : Hook) : Hook :=
  {| isGenerating := isGenerating h; currentQuiz := currentQuiz h;
     error := error h; requests := requests h; console := console h ++ [e] |}.

Inductive Difficulty := easy | medium | hard.

Definition difficulty_name (d : Difficulty) : JsString :=
  match d with
  | easy => js "easy"
  | medium => js "medium"
  | hard => js "hard"
  end.

Definition dq : JsString := [34%N].
Definition nl : JsString := [10%N].

(** The template literal of [generateQuiz], line by line. *)
Definition quiz_prompt (topic : JsString) (difficulty : Difficulty) : JsString :=
  js "Generate a " ++ difficulty_name difficulty ++ js " level quiz about "
    ++ dq ++ topic ++ dq ++ js " with 5 multiple choice questions." ++ nl
  ++ js "      Format the response as a JSON object with the following structure:" ++ nl
  ++ js "      {" ++ nl
  ++ js "        " ++ dq ++ js "topic" ++ dq ++ js ": " ++ dq ++ js "the quiz topic" ++ dq ++ js "," ++ nl
  ++ js "        " ++ dq ++ js "questions" ++ dq ++ js ": [" ++ nl
  ++ js "          {" ++ nl
  ++ js "            " ++ dq ++ js "question" ++ dq ++ js ": " ++ dq ++ js "the question text" ++ dq ++ js "," ++ nl
  ++ js "            " ++ dq ++ js "options" ++ dq ++ js ": ["
       ++ dq ++ js "option1" ++ dq ++ js ", " ++ dq ++ js "option2" ++ dq ++ js ", "
       ++ dq ++ js "option3" ++ dq ++ js ", " ++ dq ++ js "option4" ++ dq ++ js "]," ++ nl
  ++ js "            " ++ dq ++ js "correctAnswer" ++ dq ++ js ": " ++ dq ++ js "the correct option" ++ dq ++ js "," ++ nl
  ++ js "            " ++ dq ++ js "explanation" ++ dq ++ js ": " ++ dq ++ js "explanation why this is correct" ++ dq ++ nl
  ++ js "          }" ++ nl
  ++ js "        ]" ++ nl
  ++ js "      }".

(** [text.match(/\{[\s\S]*\}/)]: the match starts at the first opening
    brace and, the star being greedy over every code unit, ends at the last
    closing brace after it; there is no match when no closing brace follows
    an opening one.  The result is [jsonMatch[0]]. *)
Fixpoint through_last_close (s : JsString) : option JsString :=
  match s with
  | [] => None
  | c :: r =>
      match through_last_close r with
      | Some p => Some (c :: p)
      | None => if N.eqb c 125 then Some [c] else None
      end
  end.

Fixpoint match_braces (text : JsString) : option JsString :=
  match text with
  | [] => None
  | c :: r =>
      if N.eqb c 123
      then match through_last_close r with
           | Some p => Some (c :: p)
           | None => None
           end
      else match_braces r
  end.

Definition invalid_format : JsThrown :=
  ErrorObj PlainError (js "Invalid quiz format generated").

Definition generation_failed : JsString :=
  js "Failed to generate quiz. Please try again.".

Section WithModel.

(** [model.generateContent(prompt)] followed by [result.response] and
    [response.text()]: the reply text, or whatever one of the three steps
    throws. *)
Variable model_generateContent : JsString -> Outcome JsString.

Definition generateQuiz (topic : JsString) (difficulty : Difficulty)
  : M Hook (option Json) :=
  try_finally
    (try_catch
       (modify (setIsGenerating true) ;;;
        modify (setError None) ;;;
        let prompt := quiz_prompt topic difficulty in
        modify (send prompt) ;;;
        text <- await (model_generateContent prompt) ;;
        match match_braces text with
        | None => throw invalid_format
        | Some jsonMatch =>
            quiz <- await (JSON_parse jsonMatch) ;;
            modify (setCurrentQuiz (Some quiz)) ;;;
            ret (Some quiz)
        end)
       (fun err =>
          modify (console_error err) ;;;
          modify (setError (Some generation_failed)) ;;;
          ret None))
    (modify (setIsGenerating false)).

End WithModel.

(** [!currentQuiz] *)
Definition no_quiz (currentQuiz : option Json) : bool :=
  match currentQuiz with
  | None => true
  | Some j => negb (Json.truthy j)
  end.

Definition quiz_value (currentQuiz : option Json) : Value :=
  match currentQuiz with
  | None => Val JNull
  | Some j => Val j
  end.

(** [checkAnswer], with the [currentQuiz] it closes over as a parameter.
    [Resolves b] is [return b]; [Rejects e] is an exception out of the
    function. *)
Definition checkAnswer (currentQuiz : option Json)
  (questionIndex : Z) (selectedAnswer : JsString) : Outcome bool :=
  if no_quiz currentQuiz then Resolves false
  else
    obind (get_field (quiz_value currentQuiz) F_questions) (fun qs =>
    obind (get_index qs questionIndex) (fun q =>
    obind (get_field q F_correctAnswer) (fun answer =>
    Resolves (strict_eq_string answer selectedAnswer)))).

(** [getExplanation] returns whatever is stored, [undefined] included. *)
Definition getExplanation (currentQuiz : option Json) (questionIndex : Z)
  : Outcome Value :=
  if no_quiz currentQuiz then Resolves (Val (JString []))
  else
    obind (get_field (quiz_value currentQuiz) F_questions) (fun qs =>
    obind (get_index qs questionIndex) (fun q =>
    get_field q F_explanation)).

(** The schema the prompt asks for, in the words of the specification: a
    topic and five questions, each with a question text, four options, one
    correct answer and one explanation. *)
Definition is_string (v : Value) : bool :=
  match v with Val (JString _) => true | _ => false end.

Definition spec_question_shape (j : Json) : bool :=
  match j with
  | JObject ms =>
      is_string (lookup (js "question") ms)
      && match lookup (js "options") ms with
         | Val (JArray os) =>
             Nat.eqb (List.length os) 4
             && forallb (fun o => is_string (Val o)) os
         | _ => false
         end
      && is_string (lookup (js "correctAnswer") ms)
      && is_string (lookup (js "explanation") ms)
  | _ => false
  end.

Definition spec_quiz_schema (j : Json) : bool :=
  match j with
  | JObject ms =>
      is_string (lookup (js "topic") ms)
      && match lookup (js "questions") ms with
         | Val (JArray qs) =>
             Nat.eqb (List.length qs) 5 && forallb spec_question_shape qs
         | _ => false
         end
  | _ => false
  end.

End QuizGenerator.

(* ================================================================= *)
(** ** The store shared by [useOCRProcessor], [useAIResponse] and [App] *)

Module Store.

Definition Q := QArith_base.Q.

(** A number that is only ever printed with [toFixed(1)]. *)
Record JsNumber := { toFixed1 : JsString }.

Record File := { file_name : JsString }.

(** [{ data, mimeType }].  [data] is [undefined] when it comes out of a
    [split(',')[1]] on a string without a comma. *)
Record InlineData := {
  data : option JsString;
  mimeType : JsString
}.

(** Calls that leave the program, in the order they are made. *)
Inductive Event :=
| ConsoleLog (status : JsString)
| ConsoleError (label : JsString) (err : JsThrown)
| WorkerCreate
| WorkerLoad
| WorkerLoadLanguage (lang : JsString)
| WorkerInitialize (lang : JsString)
| WorkerRecognize (file : File)
| WorkerTerminate
| CanvasCreate
| CanvasSetWidth (w : Z)
| CanvasSetHeight (h : Z)
| CanvasGetContext
| VideoAwaitLoadedData
| CanvasDrawImage (dx dy dw dh : Z)
| CanvasToDataURL (mime : JsString) (quality : Q)
| VisionGenerate (image : InlineData) (prompt : JsString)
| TextGenerate (prompt : JsString)
| SpeechCancel
| SpeechSpeak (text : JsString).

Inductive RecordType := question | answer.

Record HistoryEntry := {
  type : RecordType;
  text : JsString;
  timestamp : Z
}.

(** State of [useOCRProcessor]. *)
Record OcrState := {
  isProcessing : bool;
  progress : Z;
  ocr_error : option JsString
}.

(** State of [useAIResponse] that [processAIResponse] reads or writes. *)
Record AiState := {
  voiceOutput : bool;
  isLoading : bool;
  ai_error : option JsString;
  isSpeaking : bool
}.

(** State of [App]; [transcript] is the one of [useVoiceRecognition]. *)
Record AppState := {
  response : JsString;
  conversationHistory : list HistoryEntry;
  transcript : JsString;
  app_error : option JsString
}.

Record World := {
  ocr : OcrState;
  ai : AiState;
  app : AppState;
  log : list Event;
  clock : Z
}.

Definition with_ocr (f : OcrState -> OcrState) (w : World) : World :=
  {| ocr := f (ocr w); ai := ai w; app := app w; log := log w; clock := clock w |}.

Definition with_ai (f : AiState -> AiState) (w : World) : World :=
  {| ocr := ocr w; ai := f (ai w); app := app w; log := log w; clock := clock w |}.

Definition with_app (f : AppState -> AppState) (w : World) : World :=
  {| ocr := ocr w; ai := ai w; app := f (app w); log := log w; clock := clock w |}.

Definition record_event (e : Event) (w : World) : World :=
  {| ocr := ocr w; ai := ai w; app := app w; log := log w ++ [e];
     clock := clock w |}.

Definition emit (e : Event) : M World unit := modify (record_event e).

(** Time that passes while a promise is awaited. *)
Definition tick (dt : Z) (w : World) : World :=
  {| ocr := ocr w; ai := ai w; app := app w; log := log w;
     clock := clock w + dt |}.

Definition elapse (dt : Z) : M World unit := modify (tick dt).

Definition console_error (label : string) (err : JsThrown) : M World unit :=
  emit (ConsoleError (js label) err).

Definition initial_world : World :=
  {| ocr := {| isProcessing := false; progress := 0; ocr_error := None |};
     ai := {| voiceOutput := true; isLoading := false; ai_error := None;
              isSpeaking := false |};
     app := {| response := []; conversationHistory := []; transcript := [];
               app_error := None |};
     log := [];
     clock := 0 |}.

End Store.

Import Store.

(* ================================================================= *)
(** ** [useOCRProcessor] *)

Module OCR.

(** [{ data: { text, confidence } }] as [recognize] resolves it. *)
Record OcrData := {
  data_text : JsString;
  data_confidence : JsNumber
}.

(** [interface OCRResult] *)
Record OCRResult := {
  result_text : JsString;
  confidence : JsNumber
}.

(** One call on the worker: the statuses it reports to [worker.logger]
    while it runs, and how its promise settles. *)
Record Stage (A : Type) := {
  statuses : list JsString;
  settles : Outcome A
}.
Arguments statuses {A} s.
Arguments settles {A} s.

(** [interface TesseractWorker] *)
Record TesseractWorker := {
  load : Stage unit;
  loadLanguage : JsString -> Stage unit;
  initialize : JsString -> Stage unit;
  recognize : File -> Stage OcrData;
  terminate : Stage unit
}.

Definition setIsProcessing (b : bool) : M World unit :=
  modify (with_ocr (fun o =>
    {| isProcessing := b; progress := progress o; ocr_error := ocr_error o |})).

Definition setProgress (p : Z) : M World unit :=
  modify (with_ocr (fun o =>
    {| isProcessing := isProcessing o; progress := p; ocr_error := ocr_error o |})).

Definition setError (e : option JsString) : M World unit :=
  modify (with_ocr (fun o =>
    {| isProcessing := isProcessing o; progress := progress o; ocr_error := e |})).

(** [worker.logger] *)
Definition logger (status : JsString) : M World unit :=
  emit (ConsoleLog status) ;;;
  when (str_eqb status (js "loading tesseract core")) (setProgress 25) ;;;
  when (str_eqb status (js "loading language traineddata")) (setProgress 50) ;;;
  when (str_eqb status (js "initializing api")) (setProgress 75) ;;;
  when (str_eqb status (js "recognizing text")) (setProgress 90).

Fixpoint report (ss : list JsString) : M World unit :=
  match ss with
  | [] => ret tt
  | s :: r => logger s ;;; report r
  end.

(** [await worker.stage(...)] *)
Definition run {A} (call : Event) (st : Stage A) : M World A :=
  emit call ;;;
  report (statuses st) ;;;
  await (settles st).

Definition no_text_detected : JsString :=
  js "No text was detected in the image. Please try a clearer image.".

Definition processing_failed : JsString :=
  js "Failed to process handwritten text. Please try again.".

(** [err instanceof Error ? err.message : fallback] *)
Definition message_or (err : JsThrown) (fallback : JsString) : JsString :=
  match err with
  | ErrorObj _ m => m
  | NonError => fallback
  end.

Section WithWorker.

(** [createWorker()] *)
Variable createWorker : Outcome TesseractWorker.

Definition processImage (imageFile : File) : M World (option OCRResult) :=
  try_finally
    (try_catch
       (setIsProcessing true ;;;
        setError None ;;;
        setProgress 0 ;;;
        emit WorkerCreate ;;;
        worker <- await createWorker ;;
        run WorkerLoad (load worker) ;;;
        run (WorkerLoadLanguage (js "eng")) (loadLanguage worker (js "eng")) ;;;
        run (WorkerInitialize (js "eng")) (initialize worker (js "eng")) ;;;
        data <- run (WorkerRecognize imageFile) (recognize worker imageFile) ;;
        run WorkerTerminate (terminate worker) ;;;
        setProgress 100 ;;;
        if negb (Js.truthy (trim (data_text data)))
        then throw (ErrorObj PlainError no_text_detected)
        else ret (Some {| result_text := trim (data_text data);
                          confidence := data_confidence data |}))
       (fun err =>
          console_error "OCR processing failed:" err ;;;
          setError (Some (message_or err processing_failed)) ;;;
          ret None))
    (setIsProcessing false).

End WithWorker.

End OCR.

(* ================================================================= *)
(** ** [useAIResponse] *)

Module AI.

(** An [HTMLVideoElement]: its [readyState], and whether its
    [loadeddata] event ever fires. *)
Record Video := {
  readyState : Z;
  loadeddata_fires : bool
}.

(** The optional second argument of [processAIResponse]. *)
Inductive ImageInput :=
| Inline (inlineData : InlineData)
| VideoElement (video : Video)
| ImageElement.

(** The collaborators of one call. *)
Record Env := {
  getContext_2d : bool;
  toDataURL : JsString -> Q -> JsString;
  visionModel : InlineData -> JsString -> Outcome JsString;
  textModel : JsString -> Outcome JsString;
  latency : Z;
  speech_cancel : Outcome unit;
  speech_speak : JsString -> Outcome unit
}.

Record Reply := { reply_text : JsString }.

Definition setIsLoading (b : bool) : M World unit :=
  modify (with_ai (fun a =>
    {| voiceOutput := voiceOutput a; isLoading := b; ai_error := ai_error a;
       isSpeaking := isSpeaking a |})).

Definition setError (e : option JsString) : M World unit :=
  modify (with_ai (fun a =>
    {| voiceOutput := voiceOutput a; isLoading := isLoading a; ai_error := e;
       isSpeaking := isSpeaking a |})).

Definition jpeg_quality : Q := QArith_base.Qmake 8 10.

Section WithEnv.

Variable enableVoice : bool.
Variable env : Env.

Definition speakResponse (text : JsString) : M World unit :=
  vo <- gets (fun w => voiceOutput (ai w)) ;;
  speaking <- gets (fun w => isSpeaking (ai w)) ;;
  if negb vo || negb enableVoice || speaking then ret tt
  else
    try_catch
      (emit SpeechCancel ;;;
       await (speech_cancel env) ;;;
       emit (SpeechSpeak text) ;;;
       await (speech_speak env text))
      (fun err =>
         console_error "Error speaking response:" err ;;;
         setError (Some (js "Failed to speak response"))).

(** The video branch: rasterise the current frame and encode it. *)
Definition capture_frame (video : Video) : M World InlineData :=
  emit CanvasCreate ;;;
  emit (CanvasSetWidth 640) ;;;
  emit (CanvasSetHeight 480) ;;;
  emit CanvasGetContext ;;;
  if negb (getContext_2d env)
  then throw (ErrorObj PlainError (js "Canvas context not available"))
  else
    (if readyState video <? 2
     then emit VideoAwaitLoadedData ;;;
          (if loadeddata_fires video then ret tt else never)
     else ret tt) ;;;
    emit (CanvasDrawImage 0 0 640 480) ;;;
    emit (CanvasToDataURL (js "image/jpeg") jpeg_quality) ;;;
    let base64Data := split_comma_1 (toDataURL env (js "image/jpeg") jpeg_quality) in
    ret {| data := base64Data; mimeType := js "image/jpeg" |}.

Definition or_default (prompt fallback : JsString) : JsString :=
  if Js.truthy prompt then prompt else fallback.

Definition processAIResponse (prompt : JsString) (imageInput : option ImageInput)
  : M World Reply :=
  try_finally
    (try_catch
       (setIsLoading true ;;;
        setError None ;;;
        text <-
          match imageInput with
          | Some input =>
              try_catch
                (imageData <-
                   match input with
                   | Inline d => ret (Some d)
                   | VideoElement video =>
                       d <- capture_frame video ;; ret (Some d)
                   | ImageElement => ret None
                   end ;;
                 match imageData with
                 | None => throw (ErrorObj PlainError (js "Invalid image input"))
                 | Some d =>
                     let p := or_default prompt (js "What's in this image?") in
                     emit (VisionGenerate d p) ;;;
                     elapse (latency env) ;;;
                     await (visionModel env d p)
                 end)
                (fun err =>
                   console_error "Vision API Error:" err ;;;
                   throw (ErrorObj PlainError (js "Failed to analyze image")))
          | None =>
              emit (TextGenerate prompt) ;;;
              elapse (latency env) ;;;
              await (textModel env prompt)
          end ;;
        when (Js.truthy text && enableVoice) (speakResponse text) ;;;
        ret {| reply_text := text |})
       (fun error =>
          console_error "Error:" error ;;;
          throw error))
    (setIsLoading false).

End WithEnv.

End AI.

(* ================================================================= *)
(** ** [App]: the session orchestrator *)

Module App.

Import AI.

(** [translations.camera.placeholder] and [translations.voice.placeholder] *)
Definition camera_placeholder : JsString := js "Enable camera to analyze images".
Definition voice_placeholder : JsString := js "Speak to ask a question...".

Definition update_app (f : AppState -> AppState) : M World unit :=
  modify (with_app f).

Definition setResponse (r : JsString) : M World unit :=
  update_app (fun a =>
    {| response := r; conversationHistory := conversationHistory a;
       transcript := transcript a; app_error := app_error a |}).

Definition setConversationHistory (f : list HistoryEntry -> list HistoryEntry)
  : M World unit :=
  update_app (fun a =>
    {| response := response a; conversationHistory := f (conversationHistory a);
       transcript := transcript a; app_error := app_error a |}).

(** [setTranscript] of [useVoiceRecognition]: a recognition event
    overwrites the transcript. *)
Definition setTranscript (t : JsString) : M World unit :=
  update_app (fun a =>
    {| response := response a; conversationHistory := conversationHistory a;
       transcript := t; app_error := app_error a |}).

Definition resetTranscript : M World unit := setTranscript [].

(** How the identifier [setError] resolves inside [App].  [App.tsx] never
    declares it, so the call raises a [ReferenceError]; the later revision
    of the component declares [const [error, setError] = useState(null)]. *)
Inductive Binding := Undeclared | Declared.

Definition setError (b : Binding) (e : option JsString) : M World unit :=
  match b with
  | Undeclared =>
      throw (ErrorObj ReferenceError (js "setError is not defined"))
  | Declared =>
      update_app (fun a =>
        {| response := response a; conversationHistory := conversationHistory a;
           transcript := transcript a; app_error := e |})
  end.

(** [new Date()] reads the clock. *)
Definition addToHistory (type : RecordType) (text : JsString) : M World unit :=
  now <- gets clock ;;
  setConversationHistory (fun prev =>
    prev ++ [{| type := type; text := text; timestamp := now |}]).

Definition clearHistory : M World unit :=
  setConversationHistory (fun _ => []) ;;;
  setResponse [] ;;;
  resetTranscript.

(** [useAIResponse({ enableVoice: true, ... })] *)
Definition processAIResponse := AI.processAIResponse true.

(** [webcamRef.current?.video] is [None] when the webcam is not mounted. *)
Definition handleAnalyzeImage (webcam_video : option Video) (env : Env)
  : M World unit :=
  match webcam_video with
  | None => setResponse camera_placeholder
  | Some video =>
      try_catch
        (t <- gets (fun w => transcript (app w)) ;;
         let question_text := or_default t (js "What do you see in this image?") in
         addToHistory question question_text ;;;
         result <- processAIResponse env question_text (Some (VideoElement video)) ;;
         when (Js.truthy (reply_text result))
           (setResponse (reply_text result) ;;;
            addToHistory answer (reply_text result) ;;;
            resetTranscript))
        (fun err =>
           console_error "Analysis failed:" err ;;;
           setResponse (js "Failed to analyze image. Please try again."))
  end.

Definition handleAskQuestion (env : Env) : M World unit :=
  t <- gets (fun w => transcript (app w)) ;;
  if negb (Js.truthy t) then setResponse voice_placeholder
  else
    try_catch
      (addToHistory question t ;;;
       result <- processAIResponse env t None ;;
       when (Js.truthy (reply_text result))
         (setResponse (reply_text result) ;;;
          addToHistory answer (reply_text result) ;;;
          resetTranscript))
      (fun err =>
         console_error "Failed to get response:" err ;;;
         setResponse (js "Failed to get response. Please try again.")).

Definition analysis_prompt (recognized : JsString) : JsString :=
  js "Analyze this text and provide feedback:" ++ [10%N]
  ++ [34%N] ++ recognized ++ [34%N] ++ [10%N]
  ++ [10%N]
  ++ js "Please:" ++ [10%N]
  ++ js "1. Summarize the main points" ++ [10%N]
  ++ js "2. Point out any unclear parts" ++ [10%N]
  ++ js "3. Provide relevant educational context or response".

(** [handleFileUpload] of [App.tsx]; [file] is [event.target.files?.[0]].
    The code as written is the instance [Undeclared]: [App.tsx] reads
    [setError] without binding it.  The later revision binds [setError] but
    replaces this handler (see [AppRevision.handleFileUpload]), so the
    instance [Declared] is the text of this handler in a scope that neither
    revision has; it is there for statements that hold whatever the
    binding. *)
Definition handleFileUpload (b : Binding) (file : option File)
  (createWorker : Outcome OCR.TesseractWorker) (env : Env) : M World unit :=
  match file with
  | None => ret tt
  | Some f =>
      try_catch
        (setResponse [] ;;;
         setError b None ;;;
         result <- OCR.processImage createWorker f ;;
         match result with
         | Some r =>
             setResponse (js "Recognized Text (" ++ toFixed1 (OCR.confidence r)
                          ++ js "% confidence):" ++ [10%N] ++ OCR.result_text r) ;;;
             addToHistory question
               (js "Processed handwritten text:" ++ [10%N] ++ OCR.result_text r) ;;;
             let prompt := analysis_prompt (OCR.result_text r) in
             aiResponse <- processAIResponse env prompt None ;;
             when (Js.truthy (reply_text aiResponse))
               (setResponse (reply_text aiResponse) ;;;
                addToHistory answer (reply_text aiResponse))
         | None => ret tt
         end)
        (fun err =>
           console_error "Failed to process handwriting:" err ;;;
           setError b (Some (js "Failed to process handwriting. Please try a clearer image or check if the image contains text.")))
  end.

(** [handleWhiteboardSubmit]; the same text in both revisions of [App]. *)
Definition handleWhiteboardSubmit (b : Binding) (imageData : JsString) (env : Env)
  : M World unit :=
  try_catch
    (let base64Data := split_comma_1 imageData in
     result <- processAIResponse env
                 (js "Analyze this drawing and provide feedback and explanations")
                 (Some (Inline {| data := base64Data; mimeType := js "image/png" |})) ;;
     when (Js.truthy (reply_text result))
       (setResponse (reply_text result) ;;;
        addToHistory answer (reply_text result)))
    (fun err =>
       console_error "Failed to analyze drawing:" err ;;;
       setError b (Some (js "Failed to analyze drawing. Please try again."))).

(** [handleQuizComplete]; the score is an integral number. *)
Definition handleQuizComplete (score : Z) : M World unit :=
  addToHistory answer (js "Quiz completed! Score: " ++ index_key score).

(** Everything that can touch the store of [App]: the handlers, a speech
    recognition event, and the reset. *)
Inductive Action :=
| Recognized (transcript : JsString)
| AnalyzeImage (webcam_video : option Video) (env : Env)
| AskQuestion (env : Env)
| FileUpload (b : Binding) (file : option File)
    (createWorker : Outcome OCR.TesseractWorker) (env : Env)
| WhiteboardSubmit (b : Binding) (imageData : JsString) (env : Env)
| QuizComplete (score : Z)
| ClearHistory.

Definition perform (a : Action) : M World unit :=
  match a with
  | Recognized t => setTranscript t
  | AnalyzeImage v env => handleAnalyzeImage v env
  | AskQuestion env => handleAskQuestion env
  | FileUpload b file cw env => handleFileUpload b file cw env
  | WhiteboardSubmit b img env => handleWhiteboardSubmit b img env
  | QuizComplete score => handleQuizComplete score
  | ClearHistory => clearHistory
  end.

(** The store after an action, however the action completes. *)
Definition after (a : Action) (w : World) : World := snd (perform a w).

Definition after_all (acts : list Action) (w : World) : World :=
  fold_left (fun w a => after a w) acts w.

Definition history (w : World) : list HistoryEntry :=
  conversationHistory (app w).

(** The calls to the Response Generator recorded in a log. *)
Definition is_generate (e : Event) : bool :=
  match e with
  | VisionGenerate _ _ | TextGenerate _ => true
  | _ => false
  end.

Definition generator_calls (l : list Event) : list Event := filter is_generate l.

End App.

(* ================================================================= *)
(** ** [QuizSection]: one quiz run after another *)

Module QuizSection.

(** What a render hands to the handlers and to the card it creates.  A
    handler reads [currentQuiz], [currentQuestionIndex], [showExplanation]
    and [score] as the constants of the render that made it; only the
    functional updates, [setScore(prev => prev + 1)] and
    [setCurrentQuestionIndex(prev => prev + 1)], see the cell itself. *)
Record Closure := {
  seen_quiz : option QuizGenerator.Quiz;
  seen_index : Z;
  seen_explanation : bool;
  seen_score : Z
}.

(** The state of the component: what it reads from [useQuizGenerator]
    (a quiz of the declared [Quiz] interface, and the error), its own
    [useState] cells, the scores passed to [onComplete], and the card that
    [AnimatePresence] still keeps on screen after its key has gone. *)
Record State := {
  currentQuiz : option QuizGenerator.Quiz;
  error : option JsString;
  currentQuestionIndex : Z;
  selectedAnswer : option JsString;
  showExplanation : bool;
  score : Z;
  quizCompleted : bool;
  completions : list Z;
  leaving : option Closure
}.

Definition initial : State :=
  {| currentQuiz := None; error := None; currentQuestionIndex := 0;
     selectedAnswer := None; showExplanation := false; score := 0;
     quizCompleted := false; completions := []; leaving := None |}.

Definition setQuiz (q : option QuizGenerator.Quiz) (e : option JsString) (s : State) :=
  {| currentQuiz := q; error := e;
     currentQuestionIndex := currentQuestionIndex s;
     selectedAnswer := selectedAnswer s; showExplanation := showExplanation s;
     score := score s; quizCompleted := quizCompleted s;
     completions := completions s; leaving := leaving s |}.

Definition setCurrentQuestionIndex (f : Z -> Z) (s : State) :=
  {| currentQuiz := currentQuiz s; error := error s;
     currentQuestionIndex := f (currentQuestionIndex s);
     selectedAnswer := selectedAnswer s; showExplanation := showExplanation s;
     score := score s; quizCompleted := quizCompleted s;
     completions := completions s; leaving := leaving s |}.

Definition setSelectedAnswer (a : option JsString) (s : State) :=
  {| currentQuiz := currentQuiz s; error := error s;
     currentQuestionIndex := currentQuestionIndex s;
     selectedAnswer := a; showExplanation := showExplanation s;
     score := score s; quizCompleted := quizCompleted s;
     completions := completions s; leaving := leaving s |}.

Definition setShowExplanation (b : bool) (s : State) :=
  {| currentQuiz := currentQuiz s; error := error s;
     currentQuestionIndex := currentQuestionIndex s;
     selectedAnswer := selectedAnswer s; showExplanation := b;
     score := score s; quizCompleted := quizCompleted s;
     completions := completions s; leaving := leaving s |}.

Definition setScore (f : Z -> Z) (s : State) :=
  {| currentQuiz := currentQuiz s; error := error s;
     currentQuestionIndex := currentQuestionIndex s;
     selectedAnswer := selectedAnswer s; showExplanation := showExplanation s;
     score := f (score s); quizCompleted := quizCompleted s;
     completions := completions s; leaving := leaving s |}.

Definition setQuizCompleted (b : bool) (s : State) :=
  {| currentQuiz := currentQuiz s; error := error s;
     currentQuestionIndex := currentQuestionIndex s;
     selectedAnswer := selectedAnswer s; showExplanation := showExplanation s;
     score := score s; quizCompleted := b;
     completions := completions s; leaving := leaving s |}.

(** [onComplete(score)] *)
Definition onComplete (n : Z) (s : State) :=
  {| currentQuiz := currentQuiz s; error := error s;
     currentQuestionIndex := currentQuestionIndex s;
     selectedAnswer := selectedAnswer s; showExplanation := showExplanation s;
     score := score s; quizCompleted := quizCompleted s;
     completions := completions s ++ [n]; leaving := leaving s |}.

Definition setLeaving (card : option Closure) (s : State) :=
  {| currentQuiz := currentQuiz s; error := error s;
     currentQuestionIndex := currentQuestionIndex s;
     selectedAnswer := selectedAnswer s; showExplanation := showExplanation s;
     score := score s; quizCompleted := quizCompleted s;
     completions := completions s; leaving := card |}.

(** What a render of the state [s] closes over. *)
Definition closure (s : State) : Closure :=
  {| seen_quiz := currentQuiz s; seen_index := currentQuestionIndex s;
     seen_explanation := showExplanation s; seen_score := score s |}.

(** What [await generateQuiz(topic)] leaves in the hook: a fresh quiz and
    no error, or the previous quiz and the failure message. *)
Definition generateQuiz (generated : option QuizGenerator.Quiz) : M State unit :=
  match generated with
  | Some q => modify (setQuiz (Some q) None)
  | None =>
      modify (fun s => setQuiz (currentQuiz s) (Some QuizGenerator.generation_failed) s)
  end.

Definition handleStartQuiz (generated : option QuizGenerator.Quiz) : M State unit :=
  generateQuiz generated ;;;
  modify (setCurrentQuestionIndex (fun _ => 0)) ;;;
  modify (setScore (fun _ => 0)) ;;;
  modify (setQuizCompleted false).

(** [checkAnswer] as the hook returned it to the render [r]. *)
Definition checkAnswer (r : Closure) (i : Z) (a : JsString) : Outcome bool :=
  QuizGenerator.checkAnswer
    (option_map QuizGenerator.quiz_to_json (seen_quiz r)) i a.

Definition handleAnswerSelect (r : Closure) (answer : JsString) : M State unit :=
  if seen_explanation r then ret tt
  else
    modify (setSelectedAnswer (Some answer)) ;;;
    modify (setShowExplanation true) ;;;
    isCorrect <- await (checkAnswer r (seen_index r) answer) ;;
    when isCorrect (modify (setScore (fun prev => prev + 1))).

Definition handleNextQuestion (r : Closure) : M State unit :=
  match seen_quiz r with
  | None => ret tt
  | Some q =>
      modify (setSelectedAnswer None) ;;;
      modify (setShowExplanation false) ;;;
      if seen_index r <? Z.of_nat (List.length (QuizGenerator.questions q)) - 1
      then modify (setCurrentQuestionIndex (fun prev => prev + 1))
      else
        modify (setQuizCompleted true) ;;;
        modify (onComplete (seen_score r))
  end.

(** What the component function returns for a state; [Crashed] when it
    reads a member of an undefined [currentQuestion]. *)
Inductive View :=
| ErrorView
| StartView
| CompletedView
| QuestionView (currentQuestion : QuizGenerator.QuizQuestion)
| Crashed.

Definition question_at (q : QuizGenerator.Quiz) (i : Z)
  : option QuizGenerator.QuizQuestion :=
  if 0 <=? i then nth_error (QuizGenerator.questions q) (Z.to_nat i) else None.

Definition render (s : State) : View :=
  match error s with
  | Some _ => ErrorView
  | None =>
      match currentQuiz s with
      | None => StartView
      | Some q =>
          if quizCompleted s then CompletedView
          else match question_at q (currentQuestionIndex s) with
               | Some cq => QuestionView cq
               | None => Crashed
               end
      end
  end.

(** The question card sits in [<AnimatePresence mode='wait'>] under the key
    [currentQuestionIndex].  When the key changes, the card of the old key
    stays on screen, as the element its render made, until its exit
    animation has run; only then is the card of the current key mounted.
    So one card is on screen at a time: the leaving one if there is one,
    else the card of the latest render. *)
Definition on_screen (s : State) : Closure :=
  match leaving s with
  | Some card => card
  | None => closure s
  end.

Definition card_question (r : Closure) : option QuizGenerator.QuizQuestion :=
  match seen_quiz r with
  | Some q => question_at q (seen_index r)
  | None => None
  end.

(** What can happen to the component: a click on one of its buttons, or
    the end of the exit animation of the leaving card. *)
Inductive Click :=
| ClickStart (generated : option QuizGenerator.Quiz)
| ClickOption (option : JsString)
| ClickNext
| ExitComplete.

(** A button can be clicked when it is on screen and not [disabled]; the
    buttons of the question view are those of the card on screen. *)
Definition offered (s : State) (c : Click) : bool :=
  match render s, c with
  | ErrorView, ClickStart _
  | StartView, ClickStart _
  | CompletedView, ClickStart _ => true
  | QuestionView _, ClickOption a =>
      negb (seen_explanation (on_screen s))
      && match card_question (on_screen s) with
         | Some cq => existsb (str_eqb a) (QuizGenerator.options cq)
         | None => false
         end
  | QuestionView _, ClickNext => seen_explanation (on_screen s)
  | QuestionView _, ExitComplete =>
      match leaving s with Some _ => true | None => false end
  | _, _ => false
  end.

(** The handler behind a control of the card made by the render [r]. *)
Definition handler (c : Click) (r : Closure) : M State unit :=
  match c with
  | ClickStart generated => handleStartQuiz generated
  | ClickOption a => handleAnswerSelect r a
  | ClickNext => handleNextQuestion r
  | ExitComplete => modify (setLeaving None)
  end.

(** [AnimatePresence] after a render: a card whose key has gone starts to
    leave, a card that is leaving goes on leaving, and outside the question
    view nothing of it is mounted. *)
Definition present (before after : State) : State :=
  match render after, render before, leaving before with
  | QuestionView _, QuestionView _, Some _ => after
  | QuestionView _, QuestionView _, None =>
      if currentQuestionIndex before =? currentQuestionIndex after then after
      else setLeaving (Some (closure before)) after
  | _, _, _ => setLeaving None after
  end.

Definition click (s : State) (c : Click) : State :=
  if offered s c then present s (snd (handler c (on_screen s) s)) else s.

Definition run (cs : list Click) : State := fold_left click cs initial.

Definition quiz_length (s : State) : Z :=
  match currentQuiz s with
  | Some q => Z.of_nat (List.length (QuizGenerator.questions q))
  | None => 0
  end.

(** The questions answered so far in the current quiz run, by index and in
    the order of their answers.  A click on an enabled option answers the
    question of the card on screen; a start begins a new run. *)
Definition note (s : State) (c : Click) (done : list Z) : list Z :=
  if offered s c then
    match c with
    | ClickStart _ => []
    | ClickOption _ => done ++ [seen_index (on_screen s)]
    | ClickNext | ExitComplete => done
    end
  else done.

Fixpoint answered_from (s : State) (done : list Z) (cs : list Click) : list Z :=
  match cs with
  | [] => done
  | c :: cs' => answered_from (click s c) (note s c done) cs'
  end.

Definition answered (cs : list Click) : list Z := answered_from initial [] cs.

End QuizSection.

(* ================================================================= *)
(** ** [useVoiceRecognition] *)

Module VoiceRecognition.

(** Calls that leave the hook. *)
Inductive Call :=
| GetUserMedia
| RecognitionStart
| RecognitionStop
| LogError (label : JsString).

(** The hook's state.  [recognition] tells whether the mount effect has
    created a [SpeechRecognition] object; [hasPermission] is [null],
    [true] or [false]. *)
Record State := {
  isListening : bool;
  transcript : JsString;
  recognition : bool;
  hasPermission : option bool;
  calls : list Call
}.

Definition initial : State :=
  {| isListening := false; transcript := []; recognition := false;
     hasPermission := None; calls := [] |}.

Definition setIsListening (b : bool) : M State unit :=
  modify (fun s =>
    {| isListening := b; transcript := transcript s;
       recognition := recognition s; hasPermission := hasPermission s;
       calls := calls s |}).

Definition setTranscript (t : JsString) : M State unit :=
  modify (fun s =>
    {| isListening := isListening s; transcript := t;
       recognition := recognition s; hasPermission := hasPermission s;
       calls := calls s |}).

Definition setRecognition (r : bool) : M State unit :=
  modify (fun s =>
    {| isListening := isListening s; transcript := transcript s;
       recognition := r; hasPermission := hasPermission s;
       calls := calls s |}).

Definition setHasPermission (p : option bool) : M State unit :=
  modify (fun s =>
    {| isListening := isListening s; transcript := transcript s;
       recognition := recognition s; hasPermission := p;
       calls := calls s |}).

Definition call (c : Call) : M State unit :=
  modify (fun s =>
    {| isListening := isListening s; transcript := transcript s;
       recognition := recognition s; hasPermission := hasPermission s;
       calls := calls s ++ [c] |}).

(** [!hasPermission]: true for [null] and for [false]. *)
Definition not_permitted (p : option bool) : bool :=
  match p with
  | Some true => false
  | _ => true
  end.

Definition permission_notice : JsString :=
  js "Please grant microphone permission to use voice input.".

(** The mount effect, taken with the settlement of its permission probe.
    [supported] says whether the browser has a [SpeechRecognition]
    constructor; without one nothing is set up and nothing is probed. *)
Definition mount (supported : bool) (getUserMedia : Outcome unit) : M State unit :=
  if supported then
    setRecognition true ;;;
    call GetUserMedia ;;;
    match getUserMedia with
    | Resolves _ => setHasPermission (Some true)
    | Rejects _ => setHasPermission (Some false)
    end
  else ret tt.

(** [recognition.onresult]: the transcript of the current result. *)
Definition onresult (current : JsString) : M State unit :=
  setTranscript current.

(** [recognition.onerror] *)
Definition onerror (error : JsString) : M State unit :=
  call (LogError (js "Speech recognition error:")) ;;;
  when (str_eqb error (js "not-allowed")) (setHasPermission (Some false)) ;;;
  setIsListening false.

Definition requestPermission (getUserMedia : Outcome unit) : M State bool :=
  try_catch
    (call GetUserMedia ;;;
     await getUserMedia ;;;
     setHasPermission (Some true) ;;;
     ret true)
    (fun _ =>
       call (LogError (js "Error requesting microphone permission:")) ;;;
       setHasPermission (Some false) ;;;
       ret false).

(** [startListening]; [start] is how [recognition.start()] completes. *)
Definition startListening (getUserMedia : Outcome unit) (start : Outcome unit)
  : M State unit :=
  permitted <- gets hasPermission ;;
  recognizer <- gets recognition ;;
  go_on <-
    (if not_permitted permitted then
       granted <- requestPermission getUserMedia ;;
       if negb granted
       then setTranscript permission_notice ;;; ret false
       else ret true
     else ret true) ;;
  if go_on && recognizer then
    try_catch
      (call RecognitionStart ;;;
       await start ;;;
       setIsListening true)
      (fun _ =>
         call (LogError (js "Error starting recognition:")) ;;;
         setIsListening false)
  else ret tt.

Definition stopListening : M State unit :=
  recognizer <- gets recognition ;;
  if recognizer then call RecognitionStop ;;; setIsListening false
  else ret tt.

Definition resetTranscript : M State unit := setTranscript [].

End VoiceRecognition.

(* ================================================================= *)
(** ** The later revision of [App]: image upload and note analysis *)

Module AppRevision.

Import AI App.

(** The [useState] cells the revision adds. *)
Record Upload := {
  uploadedImage : option JsString;
  showAnalyzeButton : bool;
  isLocalLoading : bool
}.

Definition no_upload : Upload :=
  {| uploadedImage := None; showAnalyzeButton := false; isLocalLoading := false |}.

(** The store of the revision: the shared store and the new cells. *)
Definition Page : Type := World * Upload.

Definition lift {A} (m : M World A) : M Page A :=
  fun p => let (c, w') := m (fst p) in (c, (w', snd p)).

Definition update_upload (f : Upload -> Upload) : M Page unit :=
  modify (fun p => (fst p, f (snd p))).

Definition setUploadedImage (u : option JsString) : M Page unit :=
  update_upload (fun x =>
    {| uploadedImage := u; showAnalyzeButton := showAnalyzeButton x;
       isLocalLoading := isLocalLoading x |}).

Definition setShowAnalyzeButton (b : bool) : M Page unit :=
  update_upload (fun x =>
    {| uploadedImage := uploadedImage x; showAnalyzeButton := b;
       isLocalLoading := isLocalLoading x |}).

Definition setIsLocalLoading (b : bool) : M Page unit :=
  update_upload (fun x =>
    {| uploadedImage := uploadedImage x; showAnalyzeButton := showAnalyzeButton x;
       isLocalLoading := b |}).

(** What [fetch(url)] followed by [response.blob()] gives: the blob's
    [type] and what [fileToBase64] makes of it. *)
Record Blob := {
  blob_type : JsString;
  blob_dataURL : Outcome JsString
}.

(** The browser around one call: [URL.createObjectURL], [file.type],
    [fileToBase64] on a file (a [FileReader] whose [onload] resolves and
    whose [onerror] rejects), and [fetch]. *)
Record Browser := {
  createObjectURL : File -> JsString;
  file_type : File -> JsString;
  fileToBase64 : File -> Outcome JsString;
  fetch_blob : JsString -> Outcome Blob
}.

Definition describe_prompt : JsString :=
  js "Briefly describe what's in this image in 1-2 sentences.".

Definition notes_prompt : JsString :=
  js "This image contains notes or text. Please analyze in detail by: 1) Summarizing the main content, 2) Explaining any concepts present, 3) Providing educational context or corrections if needed.".

Definition upload_failed : JsString :=
  js "Failed to process image. Please try again.".

Definition notes_failed : JsString :=
  js "Failed to analyze notes. Please try again.".

(** [handleFileUpload] of the revision. *)
Definition handleFileUpload (file : option File) (browser : Browser) (env : Env)
  : M Page unit :=
  match file with
  | None => ret tt
  | Some f =>
      try_finally
        (try_catch
           (lift (setResponse []) ;;;
            lift (App.setError Declared None) ;;;
            setShowAnalyzeButton false ;;;
            let imageUrl := createObjectURL browser f in
            setUploadedImage (Some imageUrl) ;;;
            setIsLocalLoading true ;;;
            base64Data <- await (fileToBase64 browser f) ;;
            initialResult <-
              lift (processAIResponse env describe_prompt
                      (Some (Inline {| data := split_comma_1 base64Data;
                                       mimeType := file_type browser f |}))) ;;
            when (Js.truthy (reply_text initialResult))
              (lift (setResponse (reply_text initialResult)) ;;;
               lift (addToHistory question
                       (js "Uploaded image: " ++ reply_text initialResult)) ;;;
               setShowAnalyzeButton true))
           (fun err =>
              lift (console_error "Failed to process image:" err) ;;;
              lift (setResponse upload_failed)))
        (setIsLocalLoading false)
  end.

(** [handleAnalyzeNotes] *)
Definition handleAnalyzeNotes (browser : Browser) (env : Env) : M Page unit :=
  uploaded <- gets (fun p => uploadedImage (snd p)) ;;
  match uploaded with
  | None => ret tt
  | Some url =>
      if negb (Js.truthy url) then ret tt
      else
        try_finally
          (try_catch
             (setIsLocalLoading true ;;;
              blob <- await (fetch_blob browser url) ;;
              base64Data <- await (blob_dataURL blob) ;;
              analysisResult <-
                lift (processAIResponse env notes_prompt
                        (Some (Inline {| data := split_comma_1 base64Data;
                                         mimeType := blob_type blob |}))) ;;
              when (Js.truthy (reply_text analysisResult))
                (lift (setResponse (reply_text analysisResult)) ;;;
                 lift (addToHistory answer (reply_text analysisResult))))
             (fun err =>
                lift (console_error "Analysis failed:" err) ;;;
                lift (App.setError Declared (Some notes_failed))))
          (setIsLocalLoading false)
  end.

End AppRevision.

(* ================================================================= *)
(** * Properties *)

(** ** Strings and the monad *)

Module JsFacts.

Lemma str_eqb_eq (a b : JsString) : str_eqb a b = true <-> a = b.
Proof.
  revert b. induction a as [|x a IH]; destruct b as [|y b]; simpl;
    try (split; congruence).
  rewrite andb_true_iff, N.eqb_eq, IH. split.
  - intros [-> ->]. reflexivity.
  - intros H. injection H as -> ->. split; reflexivity.
Qed.

Lemma str_eqb_refl (a : JsString) : str_eqb a a = true.
Proof. now apply str_eqb_eq. Qed.

Lemma truthy_false (s : JsString) : Js.truthy s = false <-> s = [].
Proof. destruct s; simpl; split; congruence. Qed.

Lemma truthy_true (s : JsString) : Js.truthy s = true <-> s <> [].
Proof. destruct s; simpl; split; congruence. Qed.

Example trim_strips_both_ends :
  trim ([32; 9; 10]%N ++ js "a b" ++ [160; 13; 32]%N) = js "a b".
Proof. reflexivity. Qed.

Example trim_of_blank : trim ([32; 10; 8232]%N) = [].
Proof. reflexivity. Qed.

Example split_data_url :
  split_comma_1 (js "data:image/png;base64,iVBOR") = Some (js "iVBOR")
  /\ split_comma_1 (js "iVBOR") = None.
Proof. split; reflexivity. Qed.

End JsFacts.

(** ** The quiz engine *)

Module QuizGeneratorFacts.

Import QuizGenerator JsFacts.

Lemma questions_member (q : Quiz) :
  get_field (Val (quiz_to_json q)) F_questions
  = Resolves (Val (JArray (map question_to_json (questions q)))).
Proof. reflexivity. Qed.

Lemma correctAnswer_member (cq : QuizQuestion) :
  get_field (Val (question_to_json cq)) F_correctAnswer
  = Resolves (Val (JString (correctAnswer cq))).
Proof. reflexivity. Qed.

Lemma checkAnswer_loaded (q : Quiz) (i : Z) (a : JsString) :
  checkAnswer (Some (quiz_to_json q)) i a
  = match (if 0 <=? i then nth_error (questions q) (Z.to_nat i) else None) with
    | Some cq => Resolves (str_eqb (correctAnswer cq) a)
    | None => Rejects cannot_read
    end.
Proof.
  unfold checkAnswer.
  change (no_quiz (Some (quiz_to_json q))) with false. cbv iota.
  change (quiz_value (Some (quiz_to_json q))) with (Val (quiz_to_json q)).
  rewrite questions_member. cbn [obind get_index].
  destruct (0 <=? i).
  - rewrite nth_error_map.
    destruct (nth_error (questions q) (Z.to_nat i)) as [cq|]; cbn [option_map obind].
    + rewrite correctAnswer_member. reflexivity.
    + reflexivity.
  - reflexivity.
Qed.

(** A quiz with one question, used to exercise the statements. *)
Definition sample_question : QuizQuestion :=
  {| question := js "2 + 2 = ?";
     options := [js "3"; js "4"; js "5"; js "22"];
     correctAnswer := js "4";
     explanation := js "Two pairs make four." |}.

Definition sample_quiz : Quiz :=
  {| topic := js "Arithmetic"; questions := [sample_question] |}.

Definition quoted (s : string) : JsString := dq ++ js s ++ dq.

(** The text of the sample quiz, as a model would send it. *)
Definition sample_text : JsString :=
  js "{" ++ quoted "topic" ++ js ": " ++ quoted "Arithmetic" ++ js ", "
  ++ quoted "questions" ++ js ": [{" ++ nl
  ++ quoted "question" ++ js ":" ++ quoted "2 + 2 = ?" ++ js ","
  ++ quoted "options" ++ js ":[" ++ quoted "3" ++ js "," ++ quoted "4"
  ++ js "," ++ quoted "5" ++ js "," ++ quoted "22" ++ js "],"
  ++ quoted "correctAnswer" ++ js ":" ++ quoted "4" ++ js ","
  ++ quoted "explanation" ++ js ":" ++ quoted "Two pairs make four."
  ++ js "}]}".

Example JSON_parse_sample :
  JSON_parse sample_text = Resolves (quiz_to_json sample_quiz).
Proof. reflexivity. Qed.

Example JSON_parse_rejects :
  (exists e, JSON_parse (js "{} x") = Rejects e)
  /\ (exists e, JSON_parse (js "[1,]") = Rejects e)
  /\ (exists e, JSON_parse (js "{a:1}") = Rejects e).
Proof. repeat split; eexists; reflexivity. Qed.

Example match_braces_is_greedy :
  match_braces (js "Sure! {a}{b} done } ok") = Some (js "{a}{b} done }")
  /\ match_braces (js "} no object {") = None
  /\ match_braces (js "plain text") = None.
Proof. repeat split; reflexivity. Qed.

(** C1, as the code has it: with no quiz loaded [checkAnswer] returns
    false; with a quiz of the declared shape loaded and an index inside
    [[0, length)] it returns true exactly when the answer equals
    [questions[i].correctAnswer]; with an index outside that range it does
    not return at all but raises a [TypeError], because [questions[i]] is
    [undefined]. *)
Theorem checkAnswer_lookup (q : Quiz) (i : Z) (a : JsString) :
  checkAnswer None i a = Resolves false
  /\ (0 <= i < Z.of_nat (List.length (questions q)) ->
      exists cq b,
        nth_error (questions q) (Z.to_nat i) = Some cq
        /\ checkAnswer (Some (quiz_to_json q)) i a = Resolves b
        /\ (b = true <-> a = correctAnswer cq))
  /\ (~ 0 <= i < Z.of_nat (List.length (questions q)) ->
      checkAnswer (Some (quiz_to_json q)) i a = Rejects cannot_read).
Proof.
  split; [reflexivity|]. rewrite checkAnswer_loaded. split.
  - intros [Hlo Hhi].
    destruct (nth_error (questions q) (Z.to_nat i)) as [cq|] eqn:E.
    + exists cq, (str_eqb (correctAnswer cq) a).
      apply Z.leb_le in Hlo. rewrite Hlo. repeat split.
      * intros H. symmetry. now apply str_eqb_eq.
      * intros ->. apply str_eqb_refl.
    + apply nth_error_None in E. lia.
  - intros Hout. destruct (0 <=? i) eqn:Hlo; [|reflexivity].
    apply Z.leb_le in Hlo.
    assert (E : nth_error (questions q) (Z.to_nat i) = None)
      by (apply nth_error_None; lia).
    now rewrite E.
Qed.

Lemma checkAnswer_lookup_witness :
  checkAnswer (Some (quiz_to_json sample_quiz)) 0 (js "4") = Resolves true
  /\ checkAnswer (Some (quiz_to_json sample_quiz)) 0 (js "5") = Resolves false
  /\ checkAnswer (Some (quiz_to_json sample_quiz)) 1 (js "4") = Rejects cannot_read.
Proof.
  destruct (checkAnswer_lookup sample_quiz 1 (js "4")) as (_ & _ & Hout).
  split; [reflexivity | split; [reflexivity |]].
  apply Hout. simpl. lia.
Defined.

(** C1 as stated fails: on a loaded quiz an index past the last question
    makes [checkAnswer] raise instead of returning false. *)
Lemma checkAnswer_out_of_range_raises :
  checkAnswer (Some (quiz_to_json sample_quiz)) 1 (js "4") <> Resolves false
  /\ checkAnswer (Some (quiz_to_json sample_quiz)) (-1) (js "4") <> Resolves false.
Proof. split; discriminate. Qed.

(** The quiz object [generateQuiz] extracts from a reply of the model:
    the braces-delimited substring, parsed. *)
Definition extracted (reply : Outcome JsString) : option Json :=
  match reply with
  | Resolves text =>
      match match_braces text with
      | Some jsonMatch =>
          match JSON_parse jsonMatch with
          | Resolves quiz => Some quiz
          | Rejects _ => None
          end
      | None => None
      end
  | Rejects _ => None
  end.

Lemma extracted_None (reply : Outcome JsString) :
  extracted reply = None <->
  (exists e, reply = Rejects e)
  \/ (exists text, reply = Resolves text /\ match_braces text = None)
  \/ (exists text jsonMatch e,
        reply = Resolves text /\ match_braces text = Some jsonMatch
        /\ JSON_parse jsonMatch = Rejects e).
Proof.
  unfold extracted. split.
  - destruct reply as [text|e]; [|intros _; left; exists e; reflexivity].
    destruct (match_braces text) as [m|] eqn:Em;
      [|intros _; right; left; exists text; split; [reflexivity|exact Em]].
    destruct (JSON_parse m) as [quiz|e] eqn:Ep; [discriminate|].
    intros _. right. right. exists text, m, e. repeat split; assumption.
  - intros [[e ->] | [(text & -> & ->) | (text & m & e & -> & -> & ->)]];
      reflexivity.
Qed.

(** C6, as the code has it: [generateQuiz] never raises; it returns null
    and records the generic retry message exactly when the model call
    fails, when the reply has no braces-delimited substring, or when
    [JSON.parse] rejects that substring.  Whatever does parse is stored and
    returned as the quiz, with no check against the schema. *)
Theorem generateQuiz_fails_on_extraction_only
  (model : JsString -> Outcome JsString) (topic : JsString) (d : Difficulty)
  (h : Hook) :
  let reply := model (quiz_prompt topic d) in
  exists h',
    generateQuiz model topic d h = (Normal (extracted reply), h')
    /\ isGenerating h' = false
    /\ match extracted reply with
       | None => error h' = Some generation_failed
                 /\ currentQuiz h' = currentQuiz h
       | Some quiz => error h' = None /\ currentQuiz h' = Some quiz
       end
    /\ (extracted reply = None <->
        (exists e, reply = Rejects e)
        \/ (exists text, reply = Resolves text /\ match_braces text = None)
        \/ (exists text jsonMatch e,
              reply = Resolves text /\ match_braces text = Some jsonMatch
              /\ JSON_parse jsonMatch = Rejects e)).
Proof.
  intros reply. pose proof (extracted_None reply) as Hiff.
  subst reply. revert Hiff.
  unfold generateQuiz, try_finally, try_catch, bind, modify, await, extracted.
  destruct (model (quiz_prompt topic d)) as [text|e]; cbn.
  - destruct (match_braces text) as [m|]; cbn.
    + destruct (JSON_parse m) as [quiz|e]; cbn; intros Hiff;
        eexists; (split; [reflexivity|]); (split; [reflexivity|]);
        (split; [split; reflexivity | exact Hiff]).
    + intros Hiff. eexists. split; [reflexivity|]. split; [reflexivity|].
      split; [split; reflexivity | exact Hiff].
  - intros Hiff. eexists. split; [reflexivity|]. split; [reflexivity|].
    split; [split; reflexivity | exact Hiff].
Qed.

(** A reply that wraps a well-formed JSON object with a topic and an empty
    list of questions in some prose. *)
Definition short_reply : JsString :=
  js "Here is your quiz: {" ++ dq ++ js "topic" ++ dq ++ js ":" ++ dq ++ js "x"
  ++ dq ++ js "," ++ dq ++ js "questions" ++ dq ++ js ":[]} Enjoy!".

(** C6 as stated fails: a reply whose JSON does not have the five
    questions of the schema is accepted as the quiz, with no error. *)
Lemma generateQuiz_accepts_off_schema :
  exists quiz h',
    generateQuiz (fun _ => Resolves short_reply) (js "x") medium initial
    = (Normal (Some quiz), h')
    /\ spec_quiz_schema quiz = false
    /\ error h' = None
    /\ currentQuiz h' = Some quiz.
Proof.
  eexists. eexists. split; [vm_compute; reflexivity|].
  split; [|split]; reflexivity.
Qed.

End QuizGeneratorFacts.

(** ** The quiz component *)

Module QuizSectionFacts.
Import QuizSection.

(** How far the current run has got: the questions before the current one,
    the current one once its explanation is shown, all of them once the
    quiz is completed. *)
Definition limit (s : State) : Z :=
  if quizCompleted s then quiz_length s
  else currentQuestionIndex s + (if showExplanation s then 1 else 0).

(** A card is on its way out only in the question view, below the card of
    a later question of the same quiz; it shows its explanation and is not
    the card of the last question. *)
Definition card_ok (s : State) (r : Closure) : Prop :=
  seen_explanation r = true
  /\ showExplanation s = false
  /\ seen_quiz r = currentQuiz s
  /\ seen_index r < quiz_length s - 1
  /\ error s = None
  /\ quizCompleted s = false
  /\ currentQuiz s <> None.

(** What holds of every state the component can be in, together with the
    questions answered in the current run. *)
Record Inv (s : State) (done : list Z) : Prop := {
  score_nonneg : 0 <= score s;
  score_le_answered : score s <= Z.of_nat (List.length done);
  index_nonneg : 0 <= currentQuestionIndex s;
  answered_le_limit : Z.of_nat (List.length done) <= limit s;
  limit_le_length : limit s <= quiz_length s;
  answered_below_limit : Forall (fun i => 0 <= i < limit s) done;
  answered_once : NoDup done;
  hidden_on_error : error s <> None -> showExplanation s = false;
  hidden_without_quiz : currentQuiz s = None -> showExplanation s = false;
  hidden_when_completed : quizCompleted s = true -> showExplanation s = false;
  leaving_card : forall r, leaving s = Some r -> card_ok s r
}.

Lemma Inv_initial : Inv initial [].
Proof.
  split; unfold limit, quiz_length; cbn; try lia; try reflexivity;
    try constructor; discriminate.
Qed.

Lemma question_at_Some q i cq :
  question_at q i = Some cq ->
  0 <= i < Z.of_nat (List.length (QuizGenerator.questions q))
  /\ nth_error (QuizGenerator.questions q) (Z.to_nat i) = Some cq.
Proof.
  unfold question_at. destruct (0 <=? i) eqn:E; [|discriminate].
  apply Z.leb_le in E. intros H. split; [|exact H].
  assert (Hn : nth_error (QuizGenerator.questions q) (Z.to_nat i) <> None)
    by congruence.
  apply nth_error_Some in Hn. lia.
Qed.

Lemma checkAnswer_returns r i q cq a :
  seen_quiz r = Some q ->
  question_at q i = Some cq ->
  checkAnswer r i a = Resolves (str_eqb (QuizGenerator.correctAnswer cq) a).
Proof.
  intros Hq Hc. unfold checkAnswer. rewrite Hq. cbn [option_map].
  rewrite QuizGeneratorFacts.checkAnswer_loaded.
  unfold question_at in Hc. now rewrite Hc.
Qed.

Lemma quiz_length_pos q i cq :
  question_at q i = Some cq -> i < Z.of_nat (List.length (QuizGenerator.questions q)).
Proof. intros H. apply question_at_Some in H. lia. Qed.

Lemma render_question s cq :
  render s = QuestionView cq ->
  error s = None /\ quizCompleted s = false
  /\ exists q, currentQuiz s = Some q
               /\ question_at q (currentQuestionIndex s) = Some cq.
Proof.
  unfold render. destruct (error s); [discriminate|].
  destruct (currentQuiz s) as [q|]; [|discriminate].
  destruct (quizCompleted s); [discriminate|].
  destruct (question_at q _) as [cq'|] eqn:E; [|discriminate].
  intros [= <-]. split; [reflexivity|]. split; [reflexivity|]. now exists q.
Qed.

Lemma hidden_outside s done :
  Inv s done -> (forall cq, render s <> QuestionView cq) ->
  render s <> Crashed -> showExplanation s = false.
Proof.
  intros I Hq Hc. unfold render in *.
  destruct (error s) eqn:Ee; [apply (hidden_on_error s done I); congruence|].
  destruct (currentQuiz s) eqn:Eq; [|now apply (hidden_without_quiz s done I)].
  destruct (quizCompleted s) eqn:Ec;
    [now apply (hidden_when_completed s done I)|].
  destruct (question_at _ _) as [cq|]; [now destruct (Hq cq) | now destruct Hc].
Qed.

(** [AnimatePresence] touches the card on screen and nothing else. *)
Lemma present_keeps before after :
  currentQuiz (present before after) = currentQuiz after
  /\ error (present before after) = error after
  /\ currentQuestionIndex (present before after) = currentQuestionIndex after
  /\ showExplanation (present before after) = showExplanation after
  /\ score (present before after) = score after
  /\ quizCompleted (present before after) = quizCompleted after
  /\ completions (present before after) = completions after.
Proof.
  unfold present.
  destruct (render after), (render before), (leaving before);
    try destruct (_ =? _); cbn; repeat split.
Qed.


Lemma Inv_setLeaving s done card :
  Inv s done ->
  (forall r, card = Some r -> card_ok s r) ->
  Inv (setLeaving card s) done.
Proof. intros [] H. split; assumption. Qed.

(** What the leaving card must satisfy when [AnimatePresence] lets a card
    go: it showed its explanation, the new render hides it, and the card
    was not that of the last question. *)
Definition lets_go (s t : State) : Prop :=
  forall cq, render s = QuestionView cq -> leaving s = None ->
             currentQuestionIndex t <> currentQuestionIndex s ->
             showExplanation s = true
             /\ showExplanation t = false
             /\ currentQuiz s = currentQuiz t
             /\ currentQuestionIndex s < quiz_length t - 1.

Lemma Inv_present s t done :
  Inv t done -> lets_go s t -> Inv (present s t) done.
Proof.
  intros I H. unfold present.
  destruct (render t) eqn:Et;
    try (apply Inv_setLeaving; [exact I | discriminate]).
  destruct (render s) as [ | | |cq| ] eqn:Es;
    try (apply Inv_setLeaving; [exact I | discriminate]).
  destruct (leaving s) eqn:El; [exact I|].
  destruct (_ =? _) eqn:Ei; [exact I|].
  apply Z.eqb_neq in Ei.
  apply Inv_setLeaving; [exact I|]. intros r [= <-].
  destruct (render_question t _ Et) as (Ee & Ec & q & Eq & _).
  destruct (H cq Es El ltac:(congruence)) as (H1 & H2 & H3 & H4).
  unfold card_ok. cbn. repeat split; try assumption. congruence.
Qed.

Ltac facts I :=
  destruct I as [I1 I2 I3 I4 I5 I6 I7 I8 I9 I10 I11];
  unfold limit, quiz_length in *.

Lemma Forall_below (n m : Z) (l : list Z) :
  n <= m -> Forall (fun i => 0 <= i < n) l -> Forall (fun i => 0 <= i < m) l.
Proof. intros H. apply Forall_impl. intros i. lia. Qed.

Lemma NoDup_snoc (n : Z) (l : list Z) :
  NoDup l -> Forall (fun i => 0 <= i < n) l -> NoDup (l ++ [n]).
Proof.
  intros Hn Hf. rewrite <- (rev_involutive (l ++ [n])). apply NoDup_rev.
  rewrite rev_app_distr. cbn. constructor; [|now apply NoDup_rev].
  rewrite <- in_rev. intros Hi.
  rewrite Forall_forall in Hf. specialize (Hf n Hi). lia.
Qed.

(** One handled click, before [AnimatePresence] has its say. *)
Lemma handler_step (s : State) (done : list Z) (c : Click) :
  Inv s done -> offered s c = true ->
  let t := snd (handler c (on_screen s) s) in
  fst (handler c (on_screen s) s) = Normal tt
  /\ Inv t (note s c done)
  /\ lets_go s t
  /\ (completions t = completions s
      \/ completions t = completions s ++ [score s]
         /\ score s <= quiz_length s)
  /\ score t <= score s + 1
  /\ (score t = score s + 1 -> exists a, c = ClickOption a).
Proof.
  intros I Ho t. unfold note. rewrite Ho. subst t.
  unfold offered in Ho.
  destruct c as [generated|a| |]; cbn [handler].
  - assert (Hs : showExplanation s = false).
    { apply (hidden_outside s done I).
      - intros cq E. rewrite E in Ho. discriminate.
      - intros E. rewrite E in Ho. discriminate. }
    assert (Hv : forall cq, render s <> QuestionView cq).
    { intros cq E. rewrite E in Ho. discriminate. }
    assert (Hl : leaving s = None).
    { destruct (leaving s) as [r|] eqn:El; [|reflexivity].
      destruct (leaving_card s done I r El) as (_ & _ & _ & _ & Ee & Ec & Eq).
      unfold render in Ho. rewrite Ee, Ec in Ho.
      destruct (currentQuiz s); [|congruence].
      destruct (question_at _ _); discriminate. }
    facts I.
    unfold handleStartQuiz, generateQuiz, bind, modify.
    destruct generated as [q|]; cbn; (split; [reflexivity|]);
      (split; [split; unfold limit, quiz_length; cbn; rewrite ?Hs, ?Hl;
                 try lia; auto; try constructor; try discriminate;
                 try (destruct (currentQuiz s); lia)
              |]);
      (split; [intros cq E; now destruct (Hv cq)|]);
      (split; [left; reflexivity|]); (split; [lia|]); intros E; lia.
  - destruct (render s) as [ | | |cq| ] eqn:Er; try discriminate.
    destruct (render_question s cq Er) as (Ee & Ec & q & Eq & Ecq).
    apply andb_prop in Ho. destruct Ho as [Hs Hopt].
    apply negb_true_iff in Hs.
    assert (Hl : leaving s = None).
    { destruct (leaving s) as [r|] eqn:El; [|reflexivity].
      destruct (leaving_card s done I r El) as (Hr & _).
      unfold on_screen in Hs. rewrite El in Hs. congruence. }
    unfold on_screen in *. rewrite Hl in *. cbn in Hs.
    pose proof (quiz_length_pos _ _ _ Ecq) as Hlt.
    pose proof (answered_below_limit s done I) as Hf.
    pose proof (answered_once s done I) as Hn.
    facts I. rewrite Eq, Ec, Hs in *.
    rewrite Z.add_0_r in *.
    unfold handleAnswerSelect, bind, gets, modify, await, when, ret.
    cbn [closure seen_explanation seen_index]. rewrite Hs.
    rewrite (checkAnswer_returns _ _ q cq a) by (cbn; assumption).
    pose proof (NoDup_snoc _ _ Hn Hf) as Hn'.
    assert (Hf' : Forall (fun i => 0 <= i < currentQuestionIndex s + 1)
                    (done ++ [currentQuestionIndex s])).
    { apply Forall_app. split; [eapply Forall_below; [|exact Hf]; lia|].
      constructor; [lia | constructor]. }
    destruct (str_eqb _ a); cbn; (split; [reflexivity|]);
      (split; [split; unfold limit, quiz_length; cbn; rewrite ?Eq, ?Ec;
                 rewrite ?length_app; cbn [List.length];
                 try lia; try congruence; try assumption
              |]);
      (split; [intros cq' _ _ E; now destruct E|]);
      (split; [left; reflexivity|]); (split; [lia|]); intros E;
      try lia; now exists a.
  - destruct (render s) as [ | | |cq| ] eqn:Er; try discriminate.
    destruct (render_question s cq Er) as (Ee & Ec & q & Eq & Ecq).
    pose proof (quiz_length_pos _ _ _ Ecq) as Hlt.
    pose proof (answered_below_limit s done I) as Hf.
    pose proof (leaving_card s done I) as Hcard.
    unfold on_screen in *.
    destruct (leaving s) as [r|] eqn:El.
    + destruct (Hcard r eq_refl) as (Hr1 & Hr2 & Hr3 & Hr4 & _).
      facts I. rewrite Eq, Ec, Hr2 in *. rewrite Z.add_0_r in *.
      unfold handleNextQuestion, bind, gets, modify, ret. rewrite Hr3. cbn.
      assert (Hb : (seen_index r <? Z.of_nat (List.length (QuizGenerator.questions q)) - 1)
                   = true) by (apply Z.ltb_lt; lia).
      rewrite Hb. cbn. split; [reflexivity|].
      split; [split; unfold limit, quiz_length; cbn; rewrite ?Eq, ?Ec;
                try lia; try congruence; try assumption;
                try (eapply Forall_below; [|exact Hf]; lia);
                rewrite El; intros r' [= <-]; unfold card_ok, quiz_length;
                cbn; rewrite ?Eq; repeat split; auto; try lia; discriminate
             |].
      split; [intros cq' _ E; congruence|].
      split; [left; reflexivity|]. split; [lia|]. intros E; lia.
    + cbn in Ho.
      facts I. rewrite Eq, Ec, Ho in *.
      unfold handleNextQuestion, bind, gets, modify, ret.
      cbn [closure seen_quiz seen_index seen_score]. rewrite Eq. cbn.
      destruct (currentQuestionIndex s <? _) eqn:Eb; cbn.
      * apply Z.ltb_lt in Eb. split; [reflexivity|].
        split; [split; unfold limit, quiz_length; cbn; rewrite ?Eq, ?Ec;
                  try lia; try congruence; try assumption;
                  try (eapply Forall_below; [|exact Hf]; lia);
                  rewrite El; discriminate
               |].
        split; [intros cq' _ _ _; unfold quiz_length; cbn; rewrite ?Eq;
                split; [exact Ho|]; split; [reflexivity|];
                split; [reflexivity | lia]|].
        split; [left; reflexivity|]. split; [lia|]. intros E; lia.
      * apply Z.ltb_ge in Eb. split; [reflexivity|].
        split; [split; unfold limit, quiz_length; cbn; rewrite ?Eq;
                  try lia; try congruence; try assumption;
                  try (eapply Forall_below; [|exact Hf]; lia);
                  rewrite El; discriminate
               |].
        split; [intros cq' _ _ E; now destruct E|].
        split; [right; split; [reflexivity | lia]|]. split; [lia|].
        intros E; lia.
  - destruct (render s) as [ | | |cq| ] eqn:Er; try discriminate.
    cbn. split; [reflexivity|].
    split; [apply Inv_setLeaving; [exact I | discriminate]|].
    split; [intros cq' _ _ E; now destruct E|].
    split; [left; reflexivity|]. split; [lia|]. intros E; lia.
Qed.

Lemma offered_step (s : State) (done : list Z) (c : Click) :
  Inv s done -> offered s c = true ->
  Inv (click s c) (note s c done)
  /\ (completions (click s c) = completions s
      \/ completions (click s c) = completions s ++ [score s]
         /\ score s <= quiz_length s)
  /\ score (click s c) <= score s + 1
  /\ (score (click s c) = score s + 1 -> exists a, c = ClickOption a).
Proof.
  intros I Ho.
  destruct (handler_step s done c I Ho) as (_ & It & Hg & Hc & Hs & Ha).
  unfold click. rewrite Ho.
  destruct (present_keeps s (snd (handler c (on_screen s) s)))
    as (_ & _ & _ & _ & Es & _ & Ec).
  rewrite Es, Ec. split; [now apply Inv_present|]. auto.
Qed.

Lemma Inv_click (s : State) (done : list Z) (c : Click) :
  Inv s done -> Inv (click s c) (note s c done).
Proof.
  intros I. destruct (offered s c) eqn:Ho; [now apply offered_step|].
  unfold click, note. now rewrite Ho.
Qed.

Lemma Inv_from (cs : list Click) (s : State) (done : list Z) :
  Inv s done -> Inv (fold_left click cs s) (answered_from s done cs).
Proof.
  revert s done. induction cs as [|c cs IH]; intros s done I; cbn; [exact I|].
  apply IH. now apply Inv_click.
Qed.

Lemma Inv_run (cs : list Click) : Inv (run cs) (answered cs).
Proof. apply Inv_from, Inv_initial. Qed.

Lemma answered_from_snoc (cs : list Click) (c : Click) (s : State) (done : list Z) :
  answered_from s done (cs ++ [c])
  = note (fold_left click cs s) c (answered_from s done cs).
Proof.
  revert s done. induction cs as [|c' cs IH]; intros s done; cbn;
    [reflexivity | apply IH].
Qed.

Lemma handleAnswerSelect_shown (r : Closure) (a : JsString) (s : State) :
  seen_explanation r = true -> handleAnswerSelect r a s = (Normal tt, s).
Proof. intros H. unfold handleAnswerSelect, ret. now rewrite H. Qed.

(** C10: in every state a sequence of clicks can reach, stale clicks on a
    card that is animating out included, the score is at most the number
    of questions answered so far in the current run.  No question is
    answered twice and every answered question is one of the quiz, so that
    number is at most the number of questions.  A click on an option of a
    card that shows its explanation changes nothing; a click raises the
    score by at most one, and only by answering the question on screen; a
    score passed to [onComplete] is at most [questions.length]. *)
Theorem score_bounded_by_answered (cs : list Click) :
  let s := run cs in
  score s <= Z.of_nat (List.length (answered cs))
  /\ NoDup (answered cs)
  /\ Forall (fun i => 0 <= i < quiz_length s) (answered cs)
  /\ Z.of_nat (List.length (answered cs)) <= quiz_length s
  /\ (forall a, seen_explanation (on_screen s) = true ->
                handleAnswerSelect (on_screen s) a s = (Normal tt, s)
                /\ click s (ClickOption a) = s)
  /\ (forall c, score (click s c) <= score s + 1)
  /\ (forall c, score (click s c) = score s + 1 ->
                answered (cs ++ [c])
                = answered cs ++ [seen_index (on_screen s)])
  /\ (forall c,
        completions (click s c) = completions s
        \/ completions (click s c) = completions s ++ [score s]
           /\ score s <= quiz_length s).
Proof.
  intros s. pose proof (Inv_run cs) as I. fold s in I.
  split; [apply I|]. split; [apply I|].
  split; [apply (Forall_below (limit s)); apply I|].
  split; [pose proof (answered_le_limit _ _ I);
          pose proof (limit_le_length _ _ I); lia|].
  split; [|split; [|split]].
  - intros a Hs. split; [now apply handleAnswerSelect_shown|].
    unfold click, offered. rewrite Hs.
    destruct (render s); reflexivity.
  - intros c. destruct (offered s c) eqn:Ho;
      [now apply (offered_step s _ c I) | unfold click; rewrite Ho; lia].
  - intros c Hc. unfold answered. rewrite answered_from_snoc.
    fold (run cs). fold s. fold (answered cs).
    destruct (offered s c) eqn:Ho; [|unfold click in Hc; rewrite Ho in Hc; lia].
    destruct (offered_step s _ c I Ho) as (_ & _ & _ & Ha).
    destruct (Ha Hc) as (a & ->). unfold note. now rewrite Ho.
  - intros c. destruct (offered s c) eqn:Ho;
      [now apply (offered_step s _ c I) | unfold click; rewrite Ho; now left].
Qed.

(** One run over the sample quiz: the right answer, a second click on an
    option while the explanation is shown, then on to completion. *)
Definition sample_run : list Click :=
  [ClickStart (Some QuizGeneratorFacts.sample_quiz);
   ClickOption (js "4"); ClickOption (js "5"); ClickNext].

Lemma score_bounded_by_answered_witness :
  score (run sample_run) = 1
  /\ completions (run sample_run) = [1]
  /\ answered sample_run = [0]
  /\ click (run (firstn 2 sample_run)) (ClickOption (js "5"))
     = run (firstn 2 sample_run).
Proof.
  split; [reflexivity|]. split; [reflexivity|]. split; [reflexivity|].
  destruct (score_bounded_by_answered (firstn 2 sample_run))
    as (_ & _ & _ & _ & H & _).
  apply (H (js "5")). reflexivity.
Defined.

End QuizSectionFacts.

(** ** The store *)

Module StoreFacts.

Lemma ocr_with_ocr f w : ocr (with_ocr f w) = f (ocr w). Proof. reflexivity. Qed.
Lemma ai_with_ocr f w : ai (with_ocr f w) = ai w. Proof. reflexivity. Qed.
Lemma app_with_ocr f w : app (with_ocr f w) = app w. Proof. reflexivity. Qed.
Lemma log_with_ocr f w : log (with_ocr f w) = log w. Proof. reflexivity. Qed.
Lemma clock_with_ocr f w : clock (with_ocr f w) = clock w. Proof. reflexivity. Qed.

Lemma ocr_with_ai f w : ocr (with_ai f w) = ocr w. Proof. reflexivity. Qed.
Lemma ai_with_ai f w : ai (with_ai f w) = f (ai w). Proof. reflexivity. Qed.
Lemma app_with_ai f w : app (with_ai f w) = app w. Proof. reflexivity. Qed.
Lemma log_with_ai f w : log (with_ai f w) = log w. Proof. reflexivity. Qed.
Lemma clock_with_ai f w : clock (with_ai f w) = clock w. Proof. reflexivity. Qed.

Lemma ocr_with_app f w : ocr (with_app f w) = ocr w. Proof. reflexivity. Qed.
Lemma ai_with_app f w : ai (with_app f w) = ai w. Proof. reflexivity. Qed.
Lemma app_with_app f w : app (with_app f w) = f (app w). Proof. reflexivity. Qed.
Lemma log_with_app f w : log (with_app f w) = log w. Proof. reflexivity. Qed.
Lemma clock_with_app f w : clock (with_app f w) = clock w. Proof. reflexivity. Qed.

Lemma ocr_record_event e w : ocr (record_event e w) = ocr w. Proof. reflexivity. Qed.
Lemma ai_record_event e w : ai (record_event e w) = ai w. Proof. reflexivity. Qed.
Lemma app_record_event e w : app (record_event e w) = app w. Proof. reflexivity. Qed.
Lemma log_record_event e w : log (record_event e w) = log w ++ [e]. Proof. reflexivity. Qed.
Lemma clock_record_event e w : clock (record_event e w) = clock w. Proof. reflexivity. Qed.

Lemma ocr_tick d w : ocr (tick d w) = ocr w. Proof. reflexivity. Qed.
Lemma ai_tick d w : ai (tick d w) = ai w. Proof. reflexivity. Qed.
Lemma app_tick d w : app (tick d w) = app w. Proof. reflexivity. Qed.
Lemma log_tick d w : log (tick d w) = log w. Proof. reflexivity. Qed.
Lemma clock_tick d w : clock (tick d w) = clock w + d. Proof. reflexivity. Qed.

Create Rewrite HintDb world.
#[export] Hint Rewrite
  ocr_with_ocr ai_with_ocr app_with_ocr log_with_ocr clock_with_ocr
  ocr_with_ai ai_with_ai app_with_ai log_with_ai clock_with_ai
  ocr_with_app ai_with_app app_with_app log_with_app clock_with_app
  ocr_record_event ai_record_event app_record_event log_record_event clock_record_event
  ocr_tick ai_tick app_tick log_tick clock_tick : world.

#[global] Arguments with_ocr : simpl never.
#[global] Arguments with_ai : simpl never.
#[global] Arguments with_app : simpl never.
#[global] Arguments record_event : simpl never.
#[global] Arguments tick : simpl never.
#[global] Arguments js : simpl never.

End StoreFacts.

Import StoreFacts.

(** ** The handwriting extractor *)

Module OCRFacts.
Import OCR.

#[global] Arguments run : simpl never.

(** The store after the worker has reported a list of statuses. *)
Definition reported (ss : list JsString) (w : World) : World :=
  fold_left (fun w s => snd (logger s w)) ss w.

Lemma logger_returns s w : logger s w = (Normal tt, snd (logger s w)).
Proof.
  unfold logger, bind, when, emit, modify, setProgress, ret.
  repeat match goal with |- context [str_eqb ?a ?b] => destruct (str_eqb a b) end;
    reflexivity.
Qed.

Lemma report_eq ss w : report ss w = (Normal tt, reported ss w).
Proof.
  revert w. induction ss as [|s ss IH]; intros w; [reflexivity|].
  cbn [report]. unfold bind at 1. rewrite logger_returns. apply IH.
Qed.

Lemma logger_frame s w :
  let w' := snd (logger s w) in
  ai w' = ai w /\ app w' = app w /\ clock w' = clock w
  /\ isProcessing (ocr w') = isProcessing (ocr w)
  /\ ocr_error (ocr w') = ocr_error (ocr w)
  /\ log w' = log w ++ [ConsoleLog s].
Proof.
  unfold logger, bind, when, emit, modify, setProgress, ret.
  repeat match goal with |- context [str_eqb ?a ?b] => destruct (str_eqb a b) end;
    cbn; repeat split; reflexivity.
Qed.

Lemma reported_frame ss w :
  let w' := reported ss w in
  ai w' = ai w /\ app w' = app w /\ clock w' = clock w
  /\ isProcessing (ocr w') = isProcessing (ocr w)
  /\ ocr_error (ocr w') = ocr_error (ocr w)
  /\ log w' = log w ++ map ConsoleLog ss.
Proof.
  revert w. induction ss as [|s ss IH]; intros w; cbn.
  - rewrite app_nil_r. repeat split; reflexivity.
  - destruct (IH (snd (logger s w))) as (A & B & C & D & E & F).
    destruct (logger_frame s w) as (A' & B' & C' & D' & E' & F').
    unfold reported in *. cbn in *.
    rewrite A, B, C, D, E, F, A', B', C', D', E', F', <- app_assoc.
    repeat split; reflexivity.
Qed.

Lemma ai_reported ss w : ai (reported ss w) = ai w.
Proof. apply reported_frame. Qed.
Lemma app_reported ss w : app (reported ss w) = app w.
Proof. apply reported_frame. Qed.
Lemma clock_reported ss w : clock (reported ss w) = clock w.
Proof. apply reported_frame. Qed.
Lemma isProcessing_reported ss w :
  isProcessing (ocr (reported ss w)) = isProcessing (ocr w).
Proof. apply reported_frame. Qed.
Lemma ocr_error_reported ss w :
  ocr_error (ocr (reported ss w)) = ocr_error (ocr w).
Proof. apply reported_frame. Qed.
Lemma log_reported ss w : log (reported ss w) = log w ++ map ConsoleLog ss.
Proof. apply reported_frame. Qed.

#[export] Hint Rewrite ai_reported app_reported clock_reported
  isProcessing_reported ocr_error_reported log_reported : world.

Lemma run_eq {A} ev (st : Stage A) w :
  run ev st w =
  (match settles st with Resolves a => Normal a | Rejects e => Throw e end,
   reported (statuses st) (record_event ev w)).
Proof.
  unfold run, bind. cbn [emit modify fst snd]. rewrite report_eq.
  destruct (settles st); reflexivity.
Qed.

Lemma no_generate_in_statuses ss :
  App.generator_calls (map ConsoleLog ss) = [].
Proof. induction ss; [reflexivity | assumption]. Qed.

Lemma no_terminate_in_statuses ss : ~ In WorkerTerminate (map ConsoleLog ss).
Proof. induction ss as [|s ss IH]; cbn; [tauto|]. intros [H|H]; [discriminate | tauto]. Qed.

(** What the worker hands to [processImage] when every call before
    [terminate] resolves. *)
Definition recognized (cw : Outcome TesseractWorker) (file : File)
  : option (TesseractWorker * OcrData) :=
  match cw with
  | Resolves worker =>
      match settles (load worker), settles (loadLanguage worker (js "eng")),
            settles (initialize worker (js "eng")),
            settles (recognize worker file) with
      | Resolves _, Resolves _, Resolves _, Resolves data0 => Some (worker, data0)
      | _, _, _, _ => None
      end
  | Rejects _ => None
  end.

(** The result of [processImage], read off the worker. *)
Definition outcome (cw : Outcome TesseractWorker) (file : File)
  : option OCRResult :=
  match recognized cw file with
  | Some (worker, data0) =>
      match settles (terminate worker) with
      | Resolves _ =>
          if Js.truthy (trim (data_text data0))
          then Some {| result_text := trim (data_text data0);
                       confidence := data_confidence data0 |}
          else None
      | Rejects _ => None
      end
  | None => None
  end.

Lemma generator_calls_app l1 l2 :
  App.generator_calls (l1 ++ l2) = App.generator_calls l1 ++ App.generator_calls l2.
Proof. apply filter_app. Qed.

Ltac no_generate :=
  rewrite ?generator_calls_app, ?no_generate_in_statuses; reflexivity.

Ltac find_in :=
  match goal with
  | |- ?x = ?x => reflexivity
  | |- _ \/ _ => (left; find_in) || (right; find_in)
  end.

Ltac find_terminate :=
  rewrite ?in_app_iff; cbn;
  split;
  [ let H := fresh "H" in
    intros H;
    first [ discriminate
          | exfalso;
            repeat (destruct H as [H|H]);
            first [ discriminate H
                  | contradiction
                  | eapply no_terminate_in_statuses; eassumption ] ]
  | let H := fresh "H" in
    intros H;
    first [ exfalso; apply H; reflexivity
          | clear H; find_in ] ].

Ltac settle :=
  eexists; split; [reflexivity|];
  autorewrite with world; cbn;
  repeat (split; [solve [reflexivity | eexists; reflexivity]|]);
  rewrite <- ?app_assoc;
  eexists; split; [reflexivity|];
  split; [no_generate | find_terminate].

Lemma processImage_spec cw file w :
  exists w',
    processImage cw file w = (Normal (outcome cw file), w')
    /\ ai w' = ai w /\ app w' = app w /\ clock w' = clock w
    /\ isProcessing (ocr w') = false
    /\ match outcome cw file with
       | Some _ => ocr_error (ocr w') = None
       | None => exists msg, ocr_error (ocr w') = Some msg
       end
    /\ exists new,
         log w' = log w ++ new
         /\ App.generator_calls new = []
         /\ (In WorkerTerminate new <-> recognized cw file <> None).
Proof.
  unfold outcome, recognized.
  unfold processImage, try_finally, try_catch, bind, setIsProcessing, setError,
    setProgress, emit, modify, await, ret, throw, console_error.
  destruct cw as [worker|e]; cbn; [|settle].
  rewrite run_eq. destruct (settles (load worker)) as [[]|e]; cbn; [|settle].
  rewrite run_eq.
  destruct (settles (loadLanguage worker (js "eng"))) as [[]|e]; cbn; [|settle].
  rewrite run_eq.
  destruct (settles (initialize worker (js "eng"))) as [[]|e]; cbn; [|settle].
  rewrite run_eq.
  destruct (settles (recognize worker file)) as [data0|e]; cbn; [|settle].
  rewrite run_eq.
  destruct (settles (terminate worker)) as [[]|e]; cbn; [|settle].
  destruct (Js.truthy (trim (data_text data0))); cbn; settle.
Qed.
Lemma outcome_Some cw file res :
  outcome cw file = Some res ->
  exists worker data0,
    cw = Resolves worker
    /\ settles (load worker) = Resolves tt
    /\ settles (loadLanguage worker (js "eng")) = Resolves tt
    /\ settles (initialize worker (js "eng")) = Resolves tt
    /\ settles (recognize worker file) = Resolves data0
    /\ settles (terminate worker) = Resolves tt
    /\ trim (data_text data0) <> []
    /\ res = {| result_text := trim (data_text data0);
                confidence := data_confidence data0 |}.
Proof.
  unfold outcome, recognized.
  destruct cw as [worker|e]; [|discriminate].
  destruct (settles (load worker)) as [[]|e] eqn:E1; [|discriminate].
  destruct (settles (loadLanguage worker (js "eng"))) as [[]|e] eqn:E2;
    [|discriminate].
  destruct (settles (initialize worker (js "eng"))) as [[]|e] eqn:E3;
    [|discriminate].
  destruct (settles (recognize worker file)) as [data0|e] eqn:E4;
    [|discriminate].
  destruct (settles (terminate worker)) as [[]|e] eqn:E5; [|discriminate].
  destruct (Js.truthy (trim (data_text data0))) eqn:Et; [|discriminate].
  intros H. injection H as <-. exists worker, data0.
  apply JsFacts.truthy_true in Et. repeat split; assumption.
Qed.

(** The ways a call to [processImage] can fail inside. *)
Inductive Failure (cw : Outcome TesseractWorker) (file : File) : Prop :=
| createWorker_fails e :
    cw = Rejects e -> Failure cw file
| load_fails worker e :
    cw = Resolves worker -> settles (load worker) = Rejects e ->
    Failure cw file
| loadLanguage_fails worker e :
    cw = Resolves worker ->
    settles (loadLanguage worker (js "eng")) = Rejects e ->
    Failure cw file
| initialize_fails worker e :
    cw = Resolves worker ->
    settles (initialize worker (js "eng")) = Rejects e ->
    Failure cw file
| recognize_fails worker e :
    cw = Resolves worker -> settles (recognize worker file) = Rejects e ->
    Failure cw file
| terminate_fails worker e :
    cw = Resolves worker -> settles (terminate worker) = Rejects e ->
    Failure cw file
| nothing_recognized worker data0 :
    cw = Resolves worker -> settles (recognize worker file) = Resolves data0 ->
    trim (data_text data0) = [] ->
    Failure cw file.

Lemma outcome_Failure cw file : Failure cw file -> outcome cw file = None.
Proof.
  intros F. destruct (outcome cw file) as [res|] eqn:E; [|reflexivity].
  apply outcome_Some in E.
  destruct E as (worker & data0 & -> & E1 & E2 & E3 & E4 & E5 & Ht & _).
  destruct F as [e H | w' e H H' | w' e H H' | w' e H H' | w' e H H'
                | w' e H H' | w' d' H H' H''];
    try discriminate; injection H as <-; congruence.
Qed.

(** A worker that answers every call. *)
Definition done : Stage unit := {| statuses := []; settles := Resolves tt |}.

Definition reading (text : string) : TesseractWorker :=
  {| load := {| statuses := [js "loading tesseract core"];
                settles := Resolves tt |};
     loadLanguage := fun _ => done;
     initialize := fun _ => done;
     recognize := fun _ =>
       {| statuses := [js "recognizing text"];
          settles := Resolves {| data_text := js text;
                                 data_confidence := {| toFixed1 := js "42.7" |} |} |};
     terminate := done |}.

(** A worker whose core cannot be loaded. *)
Definition offline : TesseractWorker :=
  {| load := {| statuses := [js "loading tesseract core"];
                settles := Rejects (ErrorObj PlainError (js "Failed to fetch")) |};
     loadLanguage := fun _ => done;
     initialize := fun _ => done;
     recognize := recognize (reading "Hello World");
     terminate := done |}.

Definition page : File := {| file_name := js "notes.png" |}.

(** C8: [processImage] never lets an exception out.  Every call completes
    normally with [isProcessing] false; whenever something fails inside
    (the worker cannot be created, a call on it rejects, or nothing is
    recognised) the result is null and an error message has been recorded;
    a result that is not null comes from a run in which every call
    resolved. *)
Theorem processImage_never_raises cw file w :
  exists r w',
    processImage cw file w = (Normal r, w')
    /\ isProcessing (ocr w') = false
    /\ (Failure cw file -> r = None)
    /\ match r with
       | None => exists msg, ocr_error (ocr w') = Some msg
       | Some res =>
           exists worker data0,
             cw = Resolves worker
             /\ settles (load worker) = Resolves tt
             /\ settles (loadLanguage worker (js "eng")) = Resolves tt
             /\ settles (initialize worker (js "eng")) = Resolves tt
             /\ settles (recognize worker file) = Resolves data0
             /\ settles (terminate worker) = Resolves tt
             /\ trim (data_text data0) <> []
             /\ res = {| result_text := trim (data_text data0);
                         confidence := data_confidence data0 |}
       end.
Proof.
  destruct (processImage_spec cw file w)
    as (w' & E & _ & _ & _ & Hp & He & _).
  exists (outcome cw file), w'. split; [exact E|]. split; [exact Hp|].
  split; [apply outcome_Failure|].
  destruct (outcome cw file) as [res|] eqn:Eo; [|exact He].
  now apply outcome_Some.
Qed.

Lemma processImage_never_raises_witness :
  exists w',
    processImage (Resolves offline) page initial_world = (Normal None, w')
    /\ isProcessing (ocr w') = false
    /\ ocr_error (ocr w') = Some (js "Failed to fetch").
Proof.
  destruct (processImage_never_raises (Resolves offline) page initial_world)
    as (r & w' & E & Hp & Hf & _).
  assert (Hr : r = None).
  { apply Hf.
    apply (load_fails _ _ offline (ErrorObj PlainError (js "Failed to fetch")));
      reflexivity. }
  subst r. exists w'. split; [exact E|]. split; [exact Hp|].
  vm_compute in E. injection E as <-. reflexivity.
Defined.

(** C2 fails on the code: when [load] rejects, the worker has been created
    but [terminate] is never called on it; the call returns null and the
    worker is left running.  The cleanup sits on the success path only. *)
Theorem processImage_load_failure_skips_terminate :
  let run := processImage (Resolves offline) page initial_world in
  fst run = Normal None
  /\ In WorkerCreate (log (snd run))
  /\ In WorkerLoad (log (snd run))
  /\ ~ In WorkerTerminate (log (snd run)).
Proof.
  vm_compute. split; [reflexivity|]. split; [tauto|]. split; [tauto|].
  intros H. repeat (destruct H as [H|H]; [discriminate H|]). exact H.
Qed.

(** On the path where every call resolves the worker is terminated. *)
Example processImage_success_terminates :
  let run := processImage (Resolves (reading "Hello World")) page initial_world in
  fst run = Normal (Some {| result_text := js "Hello World";
                            confidence := {| toFixed1 := js "42.7" |} |})
  /\ In WorkerTerminate (log (snd run)).
Proof. vm_compute. split; [reflexivity | tauto]. Qed.

(** [terminate] is called exactly when every call before it resolved. *)
Lemma terminate_iff_recognized cw file w :
  exists new,
    log (snd (processImage cw file w)) = log w ++ new
    /\ (In WorkerTerminate new <-> recognized cw file <> None).
Proof.
  destruct (processImage_spec cw file w)
    as (w' & E & _ & _ & _ & _ & _ & new & Hn & _ & Ht).
  exists new. rewrite E. split; assumption.
Qed.

(** A recognition result with nothing in it: the specific message. *)
Lemma processImage_blank worker file data0 w :
  settles (load worker) = Resolves tt ->
  settles (loadLanguage worker (js "eng")) = Resolves tt ->
  settles (initialize worker (js "eng")) = Resolves tt ->
  settles (recognize worker file) = Resolves data0 ->
  settles (terminate worker) = Resolves tt ->
  trim (data_text data0) = [] ->
  ocr_error (ocr (snd (processImage (Resolves worker) file w)))
  = Some no_text_detected.
Proof.
  intros E1 E2 E3 E4 E5 Et.
  unfold processImage, try_finally, try_catch, bind, setIsProcessing, setError,
    setProgress, emit, modify, await, ret, throw, console_error.
  cbn. rewrite run_eq, E1. cbn. rewrite run_eq, E2. cbn.
  rewrite run_eq, E3. cbn. rewrite run_eq, E4. cbn. rewrite run_eq, E5. cbn.
  rewrite Et. cbn. reflexivity.
Qed.

End OCRFacts.

Import OCRFacts.

(** ** The response generator *)

Module AIFacts.
Import AI.

#[global] Arguments speakResponse : simpl never.

(** Events that can follow the call to the model: console output and
    speech synthesis. *)
Definition aftermath (e : Event) : bool :=
  match e with
  | ConsoleError _ _ | SpeechCancel | SpeechSpeak _ => true
  | _ => false
  end.

Lemma speakResponse_spec ev env text w :
  exists w',
    speakResponse ev env text w = (Normal tt, w')
    /\ ocr w' = ocr w /\ app w' = app w /\ clock w' = clock w
    /\ isLoading (ai w') = isLoading (ai w)
    /\ exists new, log w' = log w ++ new /\ forallb aftermath new = true.
Proof.
  unfold speakResponse, try_catch, bind, gets, emit, modify, await, ret, throw,
    console_error, setError.
  destruct (negb (voiceOutput (ai w)) || negb ev || isSpeaking (ai w)).
  { eexists. split; [reflexivity|]. repeat (split; [reflexivity|]).
    exists []. rewrite app_nil_r. split; reflexivity. }
  cbn.
  destruct (speech_cancel env) as [[]|e]; cbn.
  - destruct (speech_speak env text) as [[]|e]; cbn;
      (eexists; split; [reflexivity|]; autorewrite with world;
       repeat (split; [reflexivity|]); rewrite <- ?app_assoc;
       eexists; split; reflexivity).
  - eexists; split; [reflexivity|]; autorewrite with world;
       repeat (split; [reflexivity|]); rewrite <- ?app_assoc;
       eexists; split; reflexivity.
Qed.

Definition captured (env : Env) : InlineData :=
  {| data := split_comma_1 (toDataURL env (js "image/jpeg") jpeg_quality);
     mimeType := js "image/jpeg" |}.

(** The frame of a video can be drawn: a 2d context exists, and the video
    has data or gets it. *)
Definition frame_ready (env : Env) (video : Video) : bool :=
  getContext_2d env && (negb (readyState video <? 2) || loadeddata_fires video).

Definition analysis_failed : JsThrown :=
  ErrorObj PlainError (js "Failed to analyze image").

Definition vision_prompt (prompt : JsString) : JsString :=
  or_default prompt (js "What's in this image?").

(** How a call completes, read off its collaborators. *)
Definition reply_of (env : Env) (prompt : JsString) (input : option ImageInput)
  : Completion Reply :=
  match input with
  | None =>
      match textModel env prompt with
      | Resolves t => Normal {| reply_text := t |}
      | Rejects e => Throw e
      end
  | Some (Inline d) =>
      match visionModel env d (vision_prompt prompt) with
      | Resolves t => Normal {| reply_text := t |}
      | Rejects _ => Throw analysis_failed
      end
  | Some (VideoElement video) =>
      if getContext_2d env then
        if negb (readyState video <? 2) || loadeddata_fires video then
          match visionModel env (captured env) (vision_prompt prompt) with
          | Resolves t => Normal {| reply_text := t |}
          | Rejects _ => Throw analysis_failed
          end
        else Pending
      else Throw analysis_failed
  | Some ImageElement => Throw analysis_failed
  end.

(** The calls a request makes up to and including its submission. *)
Definition request_events (env : Env) (prompt : JsString)
  (input : option ImageInput) : list Event :=
  match input with
  | None => [TextGenerate prompt]
  | Some (Inline d) => [VisionGenerate d (vision_prompt prompt)]
  | Some (VideoElement video) =>
      [CanvasCreate; CanvasSetWidth 640; CanvasSetHeight 480; CanvasGetContext]
      ++ (if getContext_2d env then
            (if readyState video <? 2 then [VideoAwaitLoadedData] else [])
            ++ (if negb (readyState video <? 2) || loadeddata_fires video then
                  [CanvasDrawImage 0 0 640 480;
                   CanvasToDataURL (js "image/jpeg") jpeg_quality;
                   VisionGenerate (captured env) (vision_prompt prompt)]
                else [])
          else [])
  | Some ImageElement => []
  end.

Ltac use_speak :=
  match goal with
  | |- context [speakResponse ?ev ?env ?t ?W] =>
      let w1 := fresh "w1" in
      let E := fresh "E" in
      let Ho := fresh "Ho" in let Ha := fresh "Ha" in let Hc := fresh "Hc" in
      let Hl := fresh "Hl" in let new := fresh "new" in
      let Hn := fresh "Hn" in let Hf := fresh "Hf" in
      destruct (speakResponse_spec ev env t W)
        as (w1 & E & Ho & Ha & Hc & Hl & new & Hn & Hf);
      rewrite E; cbn
  end.

Ltac finish :=
  eexists; split; [reflexivity|];
  autorewrite with world;
  repeat match goal with
         | H : ocr ?w1 = _ |- context [ocr ?w1] => rewrite H
         | H : app ?w1 = _ |- context [app ?w1] => rewrite H
         | H : clock ?w1 = _ |- context [clock ?w1] => rewrite H
         | H : log ?w1 = _ |- context [log ?w1] => rewrite H
         | H : isLoading (ai ?w1) = _ |- context [isLoading (ai ?w1)] => rewrite H
         end;
  autorewrite with world; cbn;
  repeat (split; [solve [reflexivity | intros; reflexivity | intros; congruence]|]);
  rewrite <- ?app_assoc; cbn;
  eexists; split; [reflexivity|];
  cbn; try assumption; try reflexivity.

Lemma processAIResponse_spec ev env prompt input w :
  exists w',
    processAIResponse ev env prompt input w = (reply_of env prompt input, w')
    /\ ocr w' = ocr w /\ app w' = app w
    /\ (reply_of env prompt input <> Pending -> isLoading (ai w') = false)
    /\ (match input with
        | None | Some (Inline _) => clock w' = clock w + latency env
        | _ => True
        end)
    /\ exists rest,
         log w' = log w ++ request_events env prompt input ++ rest
         /\ forallb aftermath rest = true.
Proof.
  unfold reply_of, request_events, vision_prompt.
  unfold processAIResponse, capture_frame, try_finally, try_catch, bind, gets,
    emit, elapse, modify, await, ret, throw, never, when, console_error,
    setError, setIsLoading.
  destruct input as [[d|video|]|]; cbn.
  - destruct (visionModel env d (or_default prompt (js "What's in this image?")))
      as [t|e]; cbn; [|finish].
    destruct (Js.truthy t && ev); cbn; [use_speak|]; finish.
  - destruct (getContext_2d env); cbn; [|finish].
    destruct (readyState video <? 2); cbn.
    + destruct (loadeddata_fires video); cbn; [|finish].
      destruct (visionModel env _ _) as [t|e]; cbn; [|finish].
      destruct (Js.truthy t && ev); cbn; [use_speak|]; finish.
    + destruct (visionModel env _ _) as [t|e]; cbn; [|finish].
      destruct (Js.truthy t && ev); cbn; [use_speak|]; finish.
  - finish.
  - destruct (textModel env prompt) as [t|e]; cbn; [|finish].
    destruct (Js.truthy t && ev); cbn; [use_speak|]; finish.
Qed.

Lemma aftermath_no_generate (l : list Event) :
  forallb aftermath l = true -> App.generator_calls l = [].
Proof.
  induction l as [|e l IH]; [reflexivity|]. cbn.
  intros H. apply andb_prop in H. destruct H as [He Hl].
  destruct e; try discriminate; cbn; auto.
Qed.

(** C7: what [processAIResponse] submits for an image.  An inline payload
    goes to the model as it is, and nothing touches a canvas.  For a video
    element whose frame can be drawn, the calls up to the submission are:
    create a canvas, size it 640 by 480, take its 2d context, wait for the
    video if it has no data yet, draw the frame over the whole canvas,
    encode it as JPEG at quality 0.8, and submit that encoding.  When the
    frame cannot be drawn nothing is submitted.  After the submission only
    console output and speech follow. *)
Theorem processAIResponse_image_submission ev env prompt w :
  (forall d,
     exists rest,
       log (snd (processAIResponse ev env prompt (Some (Inline d)) w))
       = log w
         ++ VisionGenerate d (or_default prompt (js "What's in this image?"))
         :: rest
       /\ forallb aftermath rest = true)
  /\ (forall video,
        let w' := snd (processAIResponse ev env prompt (Some (VideoElement video)) w) in
        if getContext_2d env
           && (negb (readyState video <? 2) || loadeddata_fires video)
        then
          exists rest,
            log w'
            = log w
              ++ [CanvasCreate; CanvasSetWidth 640; CanvasSetHeight 480;
                  CanvasGetContext]
              ++ (if readyState video <? 2 then [VideoAwaitLoadedData] else [])
              ++ [CanvasDrawImage 0 0 640 480;
                  CanvasToDataURL (js "image/jpeg") (QArith_base.Qmake 8 10);
                  VisionGenerate
                    {| data := split_comma_1
                                 (toDataURL env (js "image/jpeg")
                                    (QArith_base.Qmake 8 10));
                       mimeType := js "image/jpeg" |}
                    (or_default prompt (js "What's in this image?"))]
              ++ rest
            /\ forallb aftermath rest = true
        else App.generator_calls (log w') = App.generator_calls (log w)).
Proof.
  split.
  - intros d.
    destruct (processAIResponse_spec ev env prompt (Some (Inline d)) w)
      as (w' & E & _ & _ & _ & _ & rest & Hn & Hf).
    exists rest. rewrite E. split; [exact Hn | exact Hf].
  - intros video w'. subst w'.
    destruct (processAIResponse_spec ev env prompt (Some (VideoElement video)) w)
      as (w' & E & _ & _ & _ & _ & rest & Hn & Hf).
    rewrite E. cbn [snd]. rewrite Hn. unfold request_events.
    destruct (getContext_2d env); cbn [andb].
    + destruct (negb (readyState video <? 2) || loadeddata_fires video).
      * exists rest. split; [|exact Hf].
        rewrite <- !app_assoc. reflexivity.
      * rewrite !generator_calls_app, (aftermath_no_generate rest Hf).
        destruct (readyState video <? 2); cbn; now rewrite app_nil_r.
    + rewrite !generator_calls_app, (aftermath_no_generate rest Hf).
      cbn. now rewrite app_nil_r.
Qed.

(** A camera that already has data, a canvas with a context, and a model
    that describes what it is shown. *)
Definition studio : Env :=
  {| getContext_2d := true;
     toDataURL := fun _ _ => js "data:image/jpeg;base64,AAAA";
     visionModel := fun _ _ => Resolves (js "A cat");
     textModel := fun _ => Resolves (js "4");
     latency := 3;
     speech_cancel := Resolves tt;
     speech_speak := fun _ => Resolves tt |}.

Example processAIResponse_on_a_video :
  log (snd (processAIResponse false studio []
              (Some (VideoElement {| readyState := 4; loadeddata_fires := false |}))
              initial_world))
  = [CanvasCreate; CanvasSetWidth 640; CanvasSetHeight 480; CanvasGetContext;
     CanvasDrawImage 0 0 640 480;
     CanvasToDataURL (js "image/jpeg") (QArith_base.Qmake 8 10);
     VisionGenerate {| data := Some (js "AAAA"); mimeType := js "image/jpeg" |}
       (js "What's in this image?")].
Proof. reflexivity. Qed.

Example processAIResponse_on_a_payload :
  log (snd (processAIResponse false studio (js "Read this")
              (Some (Inline {| data := Some (js "iVBOR");
                               mimeType := js "image/png" |}))
              initial_world))
  = [VisionGenerate {| data := Some (js "iVBOR"); mimeType := js "image/png" |}
       (js "Read this")].
Proof. reflexivity. Qed.

End AIFacts.

Import AIFacts.

(** ** The session orchestrator *)

Module AppFacts.
Import AI App.

(** Collaborators that always answer with the same text. *)
Definition tutor (reply : string) : Env :=
  {| getContext_2d := true;
     toDataURL := fun _ _ => js "data:image/jpeg;base64,AAAA";
     visionModel := fun _ _ => Resolves (js reply);
     textModel := fun _ => Resolves (js reply);
     latency := 3;
     speech_cancel := Resolves tt;
     speech_speak := fun _ => Resolves tt |}.

Definition webcam : Video := {| readyState := 4; loadeddata_fires := false |}.


Ltac app_unfold :=
  unfold handleAnalyzeImage, handleAskQuestion, handleFileUpload,
    handleWhiteboardSubmit, handleQuizComplete, clearHistory, App.setError,
    addToHistory, setResponse, setConversationHistory, resetTranscript,
    setTranscript, update_app, App.processAIResponse,
    try_finally, try_catch, bind, gets, emit, modify, await, ret, throw, when,
    console_error.

Ltac use_ai :=
  match goal with
  | |- context [AI.processAIResponse ?ev ?env ?p ?i ?W] =>
      let w1 := fresh "w1" in
      let E := fresh "E" in
      let Ho := fresh "Ho" in let Ha := fresh "Ha" in let Hl := fresh "Hl" in
      let Hc := fresh "Hc" in let rest := fresh "rest" in
      let Hn := fresh "Hn" in let Hf := fresh "Hf" in
      destruct (processAIResponse_spec ev env p i W)
        as (w1 & E & Ho & Ha & Hl & Hc & rest & Hn & Hf);
      rewrite E; clear E
  end.

Ltac use_ocr :=
  match goal with
  | |- context [OCR.processImage ?cw ?f ?W] =>
      let w1 := fresh "w1" in
      let E := fresh "E" in
      let Hi := fresh "Hi" in let Ha := fresh "Ha" in let Hc := fresh "Hc" in
      let Hp := fresh "Hp" in let He := fresh "He" in let new := fresh "new" in
      let Hn := fresh "Hn" in let Hg := fresh "Hg" in let Ht := fresh "Ht" in
      destruct (processImage_spec cw f W)
        as (w1 & E & Hi & Ha & Hc & Hp & He & new & Hn & Hg & Ht);
      rewrite E; clear E
  end.

Ltac normalize :=
  repeat (progress
    (autorewrite with world; cbn;
     repeat match goal with
            | H : ocr ?w1 = _ |- context [ocr ?w1] => rewrite H
            | H : ai ?w1 = _ |- context [ai ?w1] => rewrite H
            | H : app ?w1 = _ |- context [app ?w1] => rewrite H
            | H : clock ?w1 = _ |- context [clock ?w1] => rewrite H
            | H : log ?w1 = _ |- context [log ?w1] => rewrite H
            end)).

Lemma history_grows (a : Action) (w : World) :
  a <> ClearHistory ->
  exists new, history (after a w) = history w ++ new.
Proof.
  intros Hne. unfold after, history.
  destruct a as [t|video env|env|b file cw env|b img env|n|]; cbn [perform];
    [ | | | | | |congruence]; clear Hne.
  - exists []. now rewrite app_nil_r.
  - app_unfold. destruct video as [video|]; cbn.
    2:{ exists []. now rewrite app_nil_r. }
    use_ai. destruct (reply_of _ _ _) as [[t]|e|]; cbn.
    + destruct (Js.truthy t); cbn; normalize;
        rewrite <- ?app_assoc; eexists; reflexivity.
    + normalize. eexists; reflexivity.
    + normalize. eexists; reflexivity.
  - app_unfold. destruct (Js.truthy (transcript (app w))); cbn.
    2:{ exists []. now rewrite app_nil_r. }
    use_ai. destruct (reply_of _ _ _) as [[t]|e|]; cbn.
    + destruct (Js.truthy t); cbn; normalize;
        rewrite <- ?app_assoc; eexists; reflexivity.
    + normalize. eexists; reflexivity.
    + normalize. eexists; reflexivity.
  - app_unfold. destruct file as [file|]; cbn.
    2:{ exists []. now rewrite app_nil_r. }
    destruct b; cbn.
    { exists []. now rewrite app_nil_r. }
    use_ocr. destruct (outcome cw file) as [r|]; cbn.
    2:{ normalize. exists []. now rewrite app_nil_r. }
    use_ai. destruct (reply_of _ _ _) as [[t]|e|]; cbn.
    + destruct (Js.truthy t); cbn; normalize;
        rewrite <- ?app_assoc; eexists; reflexivity.
    + normalize. eexists; reflexivity.
    + normalize. eexists; reflexivity.
  - app_unfold. use_ai. destruct (reply_of _ _ _) as [[t]|e|]; cbn.
    + destruct (Js.truthy t); cbn; normalize;
        [eexists; reflexivity | exists []; now rewrite app_nil_r].
    + destruct b; cbn; normalize; exists []; now rewrite app_nil_r.
    + normalize. exists []; now rewrite app_nil_r.
  - app_unfold. cbn. eexists; reflexivity.
Qed.

Lemma or_default_truthy (p d : JsString) : Js.truthy p = true -> or_default p d = p.
Proof. unfold or_default. now intros ->. Qed.

(** C4: with an empty transcript [handleAskQuestion] completes normally,
    leaves the voice placeholder in the response display, and calls no
    collaborator at all (the log is unchanged), so the Response Generator
    is not invoked; the history is left as it was. *)
Theorem ask_with_empty_transcript (env : Env) (w : World) :
  transcript (app w) = [] ->
  exists w',
    handleAskQuestion env w = (Normal tt, w')
    /\ response (app w') = voice_placeholder
    /\ log w' = log w
    /\ generator_calls (log w') = generator_calls (log w)
    /\ history w' = history w.
Proof.
  intros Ht. app_unfold. rewrite Ht. cbn.
  eexists. split; [reflexivity|]. repeat split; reflexivity.
Qed.

Lemma ask_with_empty_transcript_witness :
  fst (handleAskQuestion (tutor "4") initial_world) = Normal tt
  /\ response (app (snd (handleAskQuestion (tutor "4") initial_world)))
     = js "Speak to ask a question..."
  /\ log (snd (handleAskQuestion (tutor "4") initial_world)) = [].
Proof.
  destruct (ask_with_empty_transcript (tutor "4") initial_world eq_refl)
    as (w' & E & Hr & Hl & _).
  rewrite E. split; [reflexivity | split; [exact Hr | exact Hl]].
Defined.

(** In [App.tsx], where [setError] is not declared, an upload never
    reaches the OCR worker: the handler raises on its second statement and
    again inside its own catch block. *)
Remark handleFileUpload_undeclared_raises file cw env w :
  fst (handleFileUpload Undeclared (Some file) cw env w)
  = Throw (ErrorObj ReferenceError (js "setError is not defined"))
  /\ log (snd (handleFileUpload Undeclared (Some file) cw env w))
     = log w ++ [ConsoleError (js "Failed to process handwriting:")
                   (ErrorObj ReferenceError (js "setError is not defined"))].
Proof. split; reflexivity. Qed.

Definition drawing_prompt : JsString :=
  js "Analyze this drawing and provide feedback and explanations".

(** C9: a whiteboard cycle in which the model answers with a non-empty
    text appends exactly one record to the history, an answer carrying that
    text, and no question; the history grows by one. *)
Theorem whiteboard_appends_one_answer
  (b : Binding) (imageData : JsString) (env : Env) (w : World) (a : JsString) :
  visionModel env
    {| data := split_comma_1 imageData; mimeType := js "image/png" |}
    drawing_prompt = Resolves a ->
  a <> [] ->
  exists w',
    handleWhiteboardSubmit b imageData env w = (Normal tt, w')
    /\ history w'
       = history w
         ++ [{| type := answer; text := a;
                timestamp := clock w + latency env |}]
    /\ List.length (history w') = S (List.length (history w))
    /\ response (app w') = a.
Proof.
  intros Hv Ha. apply JsFacts.truthy_true in Ha.
  unfold history. app_unfold. use_ai.
  unfold reply_of, vision_prompt in *. fold drawing_prompt.
  rewrite (or_default_truthy drawing_prompt) by reflexivity.
  rewrite Hv in *. cbn. rewrite Ha. cbn.
  eexists. split; [reflexivity|]. normalize.
  repeat split; try reflexivity.
  rewrite length_app. cbn. lia.
Qed.

Lemma generator_calls_frame (l new : list Event) :
  generator_calls new = [] -> generator_calls (l ++ new) = generator_calls l.
Proof. intros H. now rewrite generator_calls_app, H, app_nil_r. Qed.

(** C3: a recognition result whose text is empty after trimming.
    [processImage] returns null and records an error, so the empty text is
    never handed on as a result; when [terminate] resolves, the error is
    the no-text message.  [handleFileUpload] then makes no call to the
    Response Generator and adds nothing to the history, whichever way
    [setError] resolves inside [App]. *)
Theorem blank_recognition_is_a_failure
  (b : Binding) (file : File) (worker : OCR.TesseractWorker)
  (data0 : OCR.OcrData) (env : Env) (w : World) :
  OCR.settles (OCR.load worker) = Resolves tt ->
  OCR.settles (OCR.loadLanguage worker (js "eng")) = Resolves tt ->
  OCR.settles (OCR.initialize worker (js "eng")) = Resolves tt ->
  OCR.settles (OCR.recognize worker file) = Resolves data0 ->
  trim (OCR.data_text data0) = [] ->
  (exists w1,
     OCR.processImage (Resolves worker) file w = (Normal None, w1)
     /\ (exists msg, ocr_error (ocr w1) = Some msg)
     /\ (OCR.settles (OCR.terminate worker) = Resolves tt ->
         ocr_error (ocr w1) = Some OCR.no_text_detected))
  /\ generator_calls
       (log (after (FileUpload b (Some file) (Resolves worker) env) w))
     = generator_calls (log w)
  /\ history (after (FileUpload b (Some file) (Resolves worker) env) w)
     = history w.
Proof.
  intros E1 E2 E3 E4 Et.
  assert (Ho : outcome (Resolves worker) file = None).
  { apply outcome_Failure.
    now apply (nothing_recognized _ _ worker data0). }
  split; [|split].
  - destruct (processImage_spec (Resolves worker) file w)
      as (w1 & E & _ & _ & _ & _ & He & _).
    rewrite Ho in E, He. exists w1. split; [exact E|]. split; [exact He|].
    intros E5.
    pose proof (processImage_blank worker file data0 w E1 E2 E3 E4 E5 Et) as Hb.
    now rewrite E in Hb.
  - unfold after. cbn [perform]. app_unfold. destruct b; cbn.
    + normalize. now apply generator_calls_frame.
    + use_ocr. rewrite Ho. cbn. normalize.
      now apply generator_calls_frame.
  - unfold after, history. cbn [perform]. app_unfold. destruct b; cbn.
    + normalize. reflexivity.
    + use_ocr. rewrite Ho. cbn. normalize. reflexivity.
Qed.

Lemma blank_recognition_is_a_failure_witness :
  fst (OCR.processImage (Resolves (reading "  ")) page initial_world)
  = Normal None
  /\ generator_calls
       (log (after (FileUpload Declared (Some page) (Resolves (reading "  "))
                      (tutor "Nice notes"))
               initial_world))
     = [].
Proof.
  destruct (blank_recognition_is_a_failure Declared page (reading "  ")
              {| OCR.data_text := js "  ";
                 OCR.data_confidence := {| toFixed1 := js "42.7" |} |}
              (tutor "Nice notes") initial_world
              eq_refl eq_refl eq_refl eq_refl eq_refl)
    as ((w1 & E & _) & Hg & _).
  rewrite E. split; [reflexivity | exact Hg].
Defined.

(** *** Cycles *)

(** One [ask] or [analyzeVisual] cycle: what speech recognition has put in
    the transcript, then the handler. *)
Inductive Cycle :=
| Ask (spoken : JsString) (env : Env)
| AnalyzeVisual (spoken : JsString) (video : Video) (env : Env).

Definition actions (c : Cycle) : list Action :=
  match c with
  | Ask t env => [Recognized t; AskQuestion env]
  | AnalyzeVisual t video env => [Recognized t; AnalyzeImage (Some video) env]
  end.

(** The question a cycle puts to the Response Generator. *)
Definition asked (c : Cycle) : JsString :=
  match c with
  | Ask t _ => t
  | AnalyzeVisual t _ _ => or_default t (js "What do you see in this image?")
  end.

(** A cycle is successful, with answer [a], when something was said (for
    [ask]) or the camera frame can be drawn (for [analyzeVisual]), and the
    model resolves with the non-empty text [a]. *)
Inductive answers : Cycle -> JsString -> Prop :=
| ask_answered t env a :
    t <> [] ->
    textModel env t = Resolves a ->
    a <> [] ->
    answers (Ask t env) a
| visual_answered t video env a :
    getContext_2d env = true ->
    negb (readyState video <? 2) || loadeddata_fires video = true ->
    visionModel env (captured env) (asked (AnalyzeVisual t video env))
    = Resolves a ->
    a <> [] ->
    answers (AnalyzeVisual t video env) a.

Definition kind_text (e : HistoryEntry) : RecordType * JsString :=
  (type e, text e).

Definition pair_of (ca : Cycle * JsString) : list (RecordType * JsString) :=
  [(question, asked (fst ca)); (answer, snd ca)].

Lemma asked_truthy t video env :
  Js.truthy (asked (AnalyzeVisual t video env)) = true.
Proof. cbn. unfold or_default. destruct t; reflexivity. Qed.

Lemma cycle_appends_pair (c : Cycle) (a : JsString) (w : World) :
  answers c a ->
  map kind_text (history (after_all (actions c) w))
  = map kind_text (history w) ++ pair_of (c, a).
Proof.
  intros H. unfold history, pair_of.
  destruct H as [t env a Ht Hm Ha | t video env a Hc Hr Hm Ha];
    apply JsFacts.truthy_true in Ha; cbn [actions after_all fold_left fst snd].
  - apply JsFacts.truthy_true in Ht.
    unfold after. cbn [perform]. app_unfold. cbn. normalize. rewrite Ht. cbn.
    use_ai. unfold reply_of. rewrite Hm. cbn. rewrite Ha. cbn. normalize.
    rewrite <- app_assoc, !map_app. reflexivity.
  - pose proof (asked_truthy t video env) as Hq. cbn [asked] in Hq, Hm.
    unfold after. cbn [perform]. app_unfold. cbn. normalize.
    use_ai. unfold reply_of, vision_prompt.
    rewrite (or_default_truthy _ _ Hq), Hc, Hr, Hm. cbn. rewrite Ha. cbn.
    normalize. rewrite <- app_assoc, !map_app. reflexivity.
Qed.

Lemma after_all_app (l1 l2 : list Action) (w : World) :
  after_all (l1 ++ l2) w = after_all l2 (after_all l1 w).
Proof. apply fold_left_app. Qed.

Lemma cycles_append_pairs (cs : list (Cycle * JsString)) (w : World) :
  Forall (fun ca => answers (fst ca) (snd ca)) cs ->
  map kind_text
    (history (after_all (flat_map (fun ca => actions (fst ca)) cs) w))
  = map kind_text (history w) ++ flat_map pair_of cs.
Proof.
  intros H. revert w.
  induction H as [|[c a] cs Hc _ IH]; intros w; cbn [flat_map].
  - now rewrite app_nil_r.
  - cbn [fst]. rewrite after_all_app, IH.
    rewrite (cycle_appends_pair c a w Hc), <- app_assoc. reflexivity.
Qed.

(** C5: the history is append-only.  Every action other than the reset
    leaves the existing records in place, in order, and only adds records
    after them; the reset empties it.  Starting from an empty history, N
    successful [ask] or [analyzeVisual] cycles, run one after the other,
    leave exactly 2N records: for each cycle, in call order, its question
    followed by its answer. *)
Theorem history_append_only_and_paired :
  (forall (a : Action) (w : World),
     a <> ClearHistory ->
     exists new, history (after a w) = history w ++ new)
  /\ (forall w : World, history (after ClearHistory w) = [])
  /\ (forall (cs : list (Cycle * JsString)) (w : World),
        history w = [] ->
        Forall (fun ca => answers (fst ca) (snd ca)) cs ->
        let w' := after_all (flat_map (fun ca => actions (fst ca)) cs) w in
        map kind_text (history w') = flat_map pair_of cs
        /\ List.length (history w') = (2 * List.length cs)%nat).
Proof.
  split; [exact history_grows|]. split; [reflexivity|].
  intros cs w Hw Hcs w'.
  assert (E : map kind_text (history w') = flat_map pair_of cs).
  { subst w'. rewrite (cycles_append_pairs cs w Hcs), Hw. reflexivity. }
  split; [exact E|].
  rewrite <- (length_map kind_text), E.
  clear. induction cs as [|ca cs IH]; [reflexivity|].
  change (flat_map pair_of (ca :: cs)) with (pair_of ca ++ flat_map pair_of cs).
  rewrite length_app, IH. cbn [pair_of List.length]. lia.
Qed.

Lemma whiteboard_appends_one_answer_witness :
  history (after (WhiteboardSubmit Declared (js "data:image/png;base64,iVBOR")
                    (tutor "A triangle")) initial_world)
  = [{| type := answer; text := js "A triangle"; timestamp := 3 |}].
Proof.
  assert (Hne : js "A triangle" <> []) by (apply JsFacts.truthy_true; reflexivity).
  destruct (whiteboard_appends_one_answer Declared (js "data:image/png;base64,iVBOR")
              (tutor "A triangle") initial_world (js "A triangle")
              eq_refl Hne) as (w' & E & Hh & _).
  unfold after. cbn [perform]. rewrite E. exact Hh.
Defined.

Definition two_cycles : list (Cycle * JsString) :=
  [(Ask (js "What is 2+2?") (tutor "4"), js "4");
   (AnalyzeVisual [] webcam (tutor "A cat"), js "A cat")].

Lemma history_append_only_and_paired_witness :
  map kind_text
    (history (after_all (flat_map (fun ca => actions (fst ca)) two_cycles)
                initial_world))
  = [(question, js "What is 2+2?"); (answer, js "4");
     (question, js "What do you see in this image?"); (answer, js "A cat")].
Proof.
  destruct history_append_only_and_paired as (_ & _ & H).
  apply (H two_cycles initial_world eq_refl).
  repeat constructor; try reflexivity;
    apply JsFacts.truthy_true; reflexivity.
Defined.

End AppFacts.

(** ** More on the quiz hook *)

Module QuizHookFacts.

Import QuizGenerator JsFacts QuizGeneratorFacts.

Lemma explanation_member (cq : QuizQuestion) :
  get_field (Val (question_to_json cq)) F_explanation
  = Resolves (Val (JString (explanation cq))).
Proof. reflexivity. Qed.

Lemma getExplanation_loaded (q : Quiz) (i : Z) :
  getExplanation (Some (quiz_to_json q)) i
  = match (if 0 <=? i then nth_error (questions q) (Z.to_nat i) else None) with
    | Some cq => Resolves (Val (JString (explanation cq)))
    | None => Rejects cannot_read
    end.
Proof.
  unfold getExplanation.
  change (no_quiz (Some (quiz_to_json q))) with false. cbv iota.
  change (quiz_value (Some (quiz_to_json q))) with (Val (quiz_to_json q)).
  rewrite questions_member. cbn [obind get_index].
  destruct (0 <=? i).
  - rewrite nth_error_map.
    destruct (nth_error (questions q) (Z.to_nat i)) as [cq|]; cbn [option_map obind].
    + apply explanation_member.
    + reflexivity.
  - reflexivity.
Qed.

(** [getExplanation] has the same three behaviours as [checkAnswer]: the
    empty string with no quiz loaded, the stored explanation for an index
    inside the range, and a [TypeError] for an index outside it. *)
Theorem getExplanation_lookup (q : Quiz) (i : Z) :
  getExplanation None i = Resolves (Val (JString []))
  /\ (0 <= i < Z.of_nat (List.length (questions q)) ->
      exists cq,
        nth_error (questions q) (Z.to_nat i) = Some cq
        /\ getExplanation (Some (quiz_to_json q)) i
           = Resolves (Val (JString (explanation cq))))
  /\ (~ 0 <= i < Z.of_nat (List.length (questions q)) ->
      getExplanation (Some (quiz_to_json q)) i = Rejects cannot_read).
Proof.
  split; [reflexivity|]. rewrite getExplanation_loaded. split.
  - intros [Hlo Hhi].
    destruct (nth_error (questions q) (Z.to_nat i)) as [cq|] eqn:E.
    + exists cq. apply Z.leb_le in Hlo. rewrite Hlo. split; reflexivity.
    + apply nth_error_None in E. lia.
  - intros Hout. destruct (0 <=? i) eqn:Hlo; [|reflexivity].
    apply Z.leb_le in Hlo.
    assert (E : nth_error (questions q) (Z.to_nat i) = None)
      by (apply nth_error_None; lia).
    now rewrite E.
Qed.

Lemma getExplanation_lookup_witness :
  getExplanation (Some (quiz_to_json sample_quiz)) 0
  = Resolves (Val (JString (js "Two pairs make four.")))
  /\ getExplanation (Some (quiz_to_json sample_quiz)) 7 = Rejects cannot_read.
Proof.
  destruct (getExplanation_lookup sample_quiz 0) as (_ & Hin & _).
  destruct (getExplanation_lookup sample_quiz 7) as (_ & _ & Hout).
  split.
  - destruct Hin as (cq & Hq & Hg); [simpl; lia|].
    injection Hq as <-. exact Hg.
  - apply Hout. simpl. lia.
Defined.

(** *** The braces-delimited substring *)

Lemma through_last_close_spec (s p : JsString) :
  through_last_close s = Some p ->
  exists body post,
    p = body ++ [125%N] /\ s = p ++ post /\ ~ In 125%N post.
Proof.
  revert p. induction s as [|c r IH]; intros p; cbn; [discriminate|].
  destruct (through_last_close r) as [p'|] eqn:E.
  - intros [= <-]. destruct (IH p' eq_refl) as (body & post & -> & -> & Hn).
    exists (c :: body), post. repeat split; auto.
  - destruct (N.eqb c 125) eqn:Ec; [|discriminate].
    apply N.eqb_eq in Ec. subst c. intros [= <-].
    exists [], r. repeat split.
    clear IH. induction r as [|d r IHr]; cbn in *; [tauto|].
    destruct (through_last_close r) as [x|]; [discriminate|].
    destruct (N.eqb d 125) eqn:Ed; [discriminate|].
    apply N.eqb_neq in Ed. intros [H|H]; [congruence|]. now apply IHr.
Qed.

Lemma through_last_close_None (s : JsString) :
  through_last_close s = None <-> ~ In 125%N s.
Proof.
  induction s as [|c r IH]; cbn; [tauto|].
  destruct (through_last_close r) as [p|] eqn:E.
  - split; [discriminate|]. intros H. exfalso.
    destruct (through_last_close_spec r p E) as (body & post & -> & -> & _).
    apply H. right. rewrite !in_app_iff. left. right. now left.
  - destruct (N.eqb c 125) eqn:Ec.
    + apply N.eqb_eq in Ec. split; [discriminate|]. intros H. exfalso. apply H. now left.
    + apply N.eqb_neq in Ec. split; [|reflexivity]. intros _ [H|H]; [congruence|].
      now apply IH.
Qed.

Lemma match_braces_decompose (text : JsString) :
  match match_braces text with
  | Some jsonMatch =>
      exists pre body post,
        text = pre ++ jsonMatch ++ post
        /\ jsonMatch = [123%N] ++ body ++ [125%N]
        /\ ~ In 123%N pre
        /\ ~ In 125%N post
  | None =>
      forall pre rest, text = pre ++ [123%N] ++ rest -> ~ In 123%N pre ->
                       ~ In 125%N rest
  end.
Proof.
  induction text as [|c r IH]; cbn.
  - intros pre rest H. destruct pre; discriminate.
  - destruct (N.eqb c 123) eqn:Ec.
    + apply N.eqb_eq in Ec. subst c.
      destruct (through_last_close r) as [p|] eqn:E.
      * destruct (through_last_close_spec r p E) as (body & post & -> & -> & Hn).
        exists [], body, post. cbn. repeat split; auto.
      * intros pre rest H Hpre. destruct pre as [|x pre].
        -- cbn in H. injection H as <-. now apply through_last_close_None.
        -- cbn in H. injection H as <- _. exfalso. apply Hpre. now left.
    + apply N.eqb_neq in Ec.
      destruct (match_braces r) as [m|].
      * destruct IH as (pre & body & post & -> & -> & Hp & Hq).
        exists (c :: pre), body, post. cbn. repeat split; auto.
        intros [H|H]; [congruence | tauto].
      * intros pre rest H Hpre. destruct pre as [|x pre].
        -- cbn in H. injection H as -> _. congruence.
        -- cbn in H. injection H as <- ->. apply (IH pre rest eq_refl).
           intros Hin. apply Hpre. now right.
Qed.

(** The candidate JSON text runs from the first opening brace of the reply
    to its last closing brace: whatever stands between them, prose and
    further braces included, is handed to [JSON.parse].  There is no
    candidate exactly when no closing brace follows the first opening one. *)
Theorem match_braces_first_to_last (text : JsString) :
  match match_braces text with
  | Some jsonMatch =>
      exists pre body post,
        text = pre ++ jsonMatch ++ post
        /\ jsonMatch = [123%N] ++ body ++ [125%N]
        /\ ~ In 123%N pre
        /\ ~ In 125%N post
  | None =>
      forall pre rest, text = pre ++ [123%N] ++ rest -> ~ In 123%N pre ->
                       ~ In 125%N rest
  end.
Proof. exact (match_braces_decompose text). Qed.


(** *** What [generateQuiz] stores *)

Lemma members_object (fuel : nat) :
  forall s acc v r,
    members fuel s acc = Some (v, r) -> exists ms, v = JObject ms.
Proof.
  induction fuel as [|f IH]; intros s acc v r; cbn; [discriminate|].
  destruct (skip_ws s) as [|c r0]; [discriminate|].
  destruct (c =? 34)%N; [|discriminate].
  destruct (string_body r0 []) as [[key r1]|]; cbn; [|discriminate].
  destruct (skip_ws r1) as [|c2 r2]; [discriminate|].
  destruct (c2 =? 58)%N; [|discriminate].
  destruct (value f r2) as [[v0 r3]|]; cbn; [|discriminate].
  destruct (skip_ws r3) as [|c4 r4]; [discriminate|].
  destruct (c4 =? 44)%N; [apply IH|].
  destruct (c4 =? 125)%N; [|discriminate].
  intros [= <- _]. eauto.
Qed.

Lemma value_brace (f : nat) (p : JsString) :
  value (S f) (123%N :: p)
  = match skip_ws p with
    | c1 :: r1 => if (c1 =? 125)%N then Some (JObject [], r1)
                  else members f p []
    | [] => None
    end.
Proof. reflexivity. Qed.

Lemma JSON_parse_brace (p : JsString) (v : Json) :
  JSON_parse (123%N :: p) = Resolves v -> exists ms, v = JObject ms.
Proof.
  unfold JSON_parse. rewrite value_brace.
  destruct (skip_ws p) as [|c1 r1]; [discriminate|].
  destruct (c1 =? 125)%N.
  - destruct (skip_ws r1); [|discriminate]. intros [= <-]. eauto.
  - destruct (members _ p []) as [[v0 rest]|] eqn:E; [|discriminate].
    destruct (skip_ws rest); [|discriminate]. intros [= <-].
    now apply members_object in E.
Qed.

Lemma match_braces_head (text m : JsString) :
  match_braces text = Some m -> exists p, m = 123%N :: p.
Proof.
  intros H. pose proof (match_braces_decompose text) as F.
  rewrite H in F. destruct F as (_ & body & _ & _ & -> & _). cbn. eauto.
Qed.

Lemma generateQuiz_eq model topic d h :
  exists h',
    generateQuiz model topic d h = (Normal (extracted (model (quiz_prompt topic d))), h')
    /\ currentQuiz h'
       = match extracted (model (quiz_prompt topic d)) with
         | Some quiz => Some quiz
         | None => currentQuiz h
         end
    /\ requests h' = requests h ++ [quiz_prompt topic d].
Proof.
  unfold generateQuiz, try_finally, try_catch, bind, modify, await, extracted.
  destruct (model (quiz_prompt topic d)) as [text|e]; cbn.
  - destruct (match_braces text) as [m|]; cbn.
    + destruct (JSON_parse m) as [quiz|e]; cbn; eexists; repeat split.
    + eexists; repeat split.
  - eexists; repeat split.
Qed.

Lemma extracted_object reply quiz :
  extracted reply = Some quiz -> exists ms, quiz = JObject ms.
Proof.
  unfold extracted. destruct reply as [text|e]; [|discriminate].
  destruct (match_braces text) as [m|] eqn:Em; [|discriminate].
  destruct (match_braces_head _ _ Em) as (p & ->).
  destruct (JSON_parse (123%N :: p)) as [v|] eqn:Ep; [|discriminate].
  intros [= <-]. now apply JSON_parse_brace in Ep.
Qed.

(** Whatever [generateQuiz] returns as a quiz is a JSON object, never an
    array, a string, a number, a boolean or null; so after a successful
    call [!currentQuiz] is false and [checkAnswer] goes on to read
    [currentQuiz.questions]. *)
Theorem generateQuiz_stores_an_object model topic d h quiz h' :
  generateQuiz model topic d h = (Normal (Some quiz), h') ->
  (exists ms, quiz = JObject ms)
  /\ currentQuiz h' = Some quiz
  /\ no_quiz (currentQuiz h') = false.
Proof.
  intros H. destruct (generateQuiz_eq model topic d h) as (h1 & E & Hq & _).
  rewrite E in H. injection H as Hx <-.
  rewrite Hx in Hq. destruct (extracted_object _ _ Hx) as (ms & ->).
  split; [eauto|]. split; [exact Hq|]. now rewrite Hq.
Qed.

Lemma generateQuiz_stores_an_object_witness :
  exists ms,
    fst (generateQuiz (fun _ => Resolves short_reply) (js "x") medium initial)
    = Normal (Some (JObject ms)).
Proof.
  destruct (generateQuiz_stores_an_object (fun _ => Resolves short_reply)
              (js "x") medium initial
              (JObject [(js "topic", JString (js "x"));
                        (js "questions", JArray [])])
              (snd (generateQuiz (fun _ => Resolves short_reply) (js "x")
                      medium initial)) eq_refl)
    as ((ms & E) & _).
  exists ms. rewrite <- E. reflexivity.
Defined.

(** When the braces-delimited part of the reply parses to a quiz of the
    declared shape, [generateQuiz] returns and stores it, and on the stored
    quiz every question's own [correctAnswer] checks as true, any other
    answer as false, and [getExplanation] returns its explanation. *)
Theorem generateQuiz_then_checkAnswer
  model topic d h text jsonMatch (q : Quiz) :
  model (quiz_prompt topic d) = Resolves text ->
  match_braces text = Some jsonMatch ->
  JSON_parse jsonMatch = Resolves (quiz_to_json q) ->
  exists h',
    generateQuiz model topic d h = (Normal (Some (quiz_to_json q)), h')
    /\ error h' = None
    /\ forall (i : nat) (cq : QuizQuestion),
         nth_error (questions q) i = Some cq ->
         checkAnswer (currentQuiz h') (Z.of_nat i) (correctAnswer cq)
         = Resolves true
         /\ (forall a, a <> correctAnswer cq ->
                       checkAnswer (currentQuiz h') (Z.of_nat i) a
                       = Resolves false)
         /\ getExplanation (currentQuiz h') (Z.of_nat i)
            = Resolves (Val (JString (explanation cq))).
Proof.
  intros Hm Hb Hp.
  unfold generateQuiz, try_finally, try_catch, bind, modify, await.
  rewrite Hm. cbn. rewrite Hb. cbn. rewrite Hp. cbn.
  eexists. split; [reflexivity|]. split; [reflexivity|].
  intros i cq Hi. cbn [currentQuiz setIsGenerating setCurrentQuiz].
  rewrite checkAnswer_loaded, getExplanation_loaded.
  assert (Hz : (0 <=? Z.of_nat i) = true) by (apply Z.leb_le; lia).
  rewrite Hz, Nat2Z.id, Hi. split; [|split].
  - now rewrite str_eqb_refl.
  - intros a Ha. rewrite checkAnswer_loaded, Hz, Nat2Z.id, Hi.
    destruct (str_eqb (correctAnswer cq) a) eqn:E; [|reflexivity].
    apply str_eqb_eq in E. congruence.
  - reflexivity.
Qed.

Lemma generateQuiz_then_checkAnswer_witness :
  exists h',
    generateQuiz (fun _ => Resolves (js "Sure! " ++ sample_text))
      (js "Arithmetic") easy initial
    = (Normal (Some (quiz_to_json sample_quiz)), h')
    /\ checkAnswer (currentQuiz h') 0 (js "4") = Resolves true
    /\ checkAnswer (currentQuiz h') 0 (js "22") = Resolves false.
Proof.
  destruct (generateQuiz_then_checkAnswer
              (fun _ => Resolves (js "Sure! " ++ sample_text))
              (js "Arithmetic") easy initial
              (js "Sure! " ++ sample_text) sample_text sample_quiz
              eq_refl eq_refl eq_refl) as (h' & E & _ & H).
  exists h'. split; [exact E|].
  destruct (H 0%nat sample_question eq_refl) as (Ht & Hf & _).
  split; [exact Ht|]. apply Hf. discriminate.
Defined.

(** A stored object without a [questions] member, which [generateQuiz]
    accepts, makes [checkAnswer] and [getExplanation] raise at every
    index. *)
Theorem missing_questions_member_raises
  (ms : list (JsString * Json)) (i : Z) (a : JsString) :
  lookup (js "questions") ms = Undefined ->
  checkAnswer (Some (JObject ms)) i a = Rejects cannot_read
  /\ getExplanation (Some (JObject ms)) i = Rejects cannot_read.
Proof.
  intros H. unfold checkAnswer, getExplanation. cbn.
  change (field_name F_questions) with (js "questions").
  rewrite H. split; reflexivity.
Qed.

Lemma missing_questions_member_raises_witness :
  checkAnswer (Some (JObject [(js "topic", JString (js "x"))])) 0 (js "4")
  = Rejects cannot_read.
Proof.
  apply (missing_questions_member_raises
           [(js "topic", JString (js "x"))] 0 (js "4") eq_refl).
Defined.

End QuizHookFacts.

(** ** Voice recognition *)

Module VoiceFacts.

Import VoiceRecognition.

Definition resolves {A} (o : Outcome A) : bool :=
  match o with Resolves _ => true | Rejects _ => false end.

(** [startListening] never raises.  It asks for the microphone exactly
    when permission is not already held.  It starts the recognizer exactly
    when permission is held or has just been granted and a recognizer
    exists; listening then follows the outcome of [recognition.start()].
    When permission is refused the permission notice is written into the
    transcript and the listening flag is left as it was. *)
Theorem startListening_behaviour
  (getUserMedia start : Outcome unit) (s : State) :
  let permitted :=
    negb (not_permitted (hasPermission s)) || resolves getUserMedia in
  exists s' new,
    startListening getUserMedia start s = (Normal tt, s')
    /\ calls s' = calls s ++ new
    /\ (In GetUserMedia new <-> not_permitted (hasPermission s) = true)
    /\ (In RecognitionStart new <-> permitted && recognition s = true)
    /\ transcript s' = (if permitted then transcript s else permission_notice)
    /\ isListening s' = (if permitted && recognition s then resolves start
                         else isListening s)
    /\ hasPermission s' = (if not_permitted (hasPermission s)
                           then Some (resolves getUserMedia)
                           else hasPermission s)
    /\ recognition s' = recognition s.
Proof.
  unfold startListening, requestPermission, try_catch, bind, gets, modify,
    await, ret, throw, call, setHasPermission, setTranscript, setIsListening.
  destruct (not_permitted (hasPermission s)) eqn:Hp;
    destruct getUserMedia as [[]|e]; destruct (recognition s) eqn:Hr;
    destruct start as [[]|e']; cbn; rewrite ?Hr; cbn;
    eexists; eexists; (split; [reflexivity|]); cbn;
    rewrite <- ?app_assoc;
    (split; [first [reflexivity | symmetry; apply app_nil_r]|]);
    cbn; repeat split; try reflexivity; try tauto; try discriminate;
    try (intros H; repeat (destruct H as [H|H]; try discriminate H); tauto).
Qed.

Lemma startListening_refused (e : JsThrown) (start : Outcome unit) (s : State) :
  not_permitted (hasPermission s) = true ->
  transcript (snd (startListening (Rejects e) start s)) = permission_notice.
Proof.
  intros Hp.
  unfold startListening, requestPermission, try_catch, bind, gets, modify,
    await, ret, throw, call, setHasPermission, setTranscript, setIsListening.
  rewrite Hp. cbn. reflexivity.
Qed.

(** A recognition error always ends listening and keeps the transcript;
    the error [not-allowed] also withdraws the permission, so that the next
    [startListening] asks for the microphone again, even if permission had
    been granted before. *)
Theorem onerror_withdraws_permission (error : JsString) (s : State) :
  exists s',
    onerror error s = (Normal tt, s')
    /\ isListening s' = false
    /\ transcript s' = transcript s
    /\ hasPermission s'
       = (if str_eqb error (js "not-allowed") then Some false
          else hasPermission s)
    /\ (error = js "not-allowed" ->
        forall getUserMedia start,
          exists more,
            calls (snd (startListening getUserMedia start s'))
            = calls s' ++ GetUserMedia :: more).
Proof.
  unfold onerror, bind, when, call, modify, setHasPermission, setIsListening, ret.
  destruct (str_eqb error (js "not-allowed")) eqn:E; cbn;
    eexists; (split; [reflexivity|]); cbn; repeat split.
  - intros _ getUserMedia start.
    unfold startListening, requestPermission, try_catch, bind, gets, modify,
      await, ret, throw, call, setHasPermission, setTranscript, setIsListening.
    cbn. destruct getUserMedia as [[]|e]; cbn.
    + destruct (recognition s); cbn; [|eexists; rewrite <- ?app_assoc; reflexivity].
      destruct start as [[]|e']; cbn; eexists; rewrite <- ?app_assoc; reflexivity.
    + eexists; rewrite <- ?app_assoc; reflexivity.
  - intros ->. discriminate E.
Qed.

Lemma onerror_withdraws_permission_witness :
  exists more,
    calls (snd (startListening (Resolves tt) (Resolves tt)
                  (snd (onerror (js "not-allowed")
                          {| isListening := true; transcript := js "hello";
                             recognition := true; hasPermission := Some true;
                             calls := [] |}))))
    = [LogError (js "Speech recognition error:"); GetUserMedia] ++ more.
Proof.
  destruct (onerror_withdraws_permission (js "not-allowed")
              {| isListening := true; transcript := js "hello";
                 recognition := true; hasPermission := Some true;
                 calls := [] |}) as (s' & E & _ & _ & _ & H).
  destruct (H eq_refl (Resolves tt) (Resolves tt)) as (more & Hm).
  exists more. rewrite E. cbn [snd]. rewrite Hm.
  injection E as <-. reflexivity.
Defined.

(** In a browser without [SpeechRecognition] the mount effect sets nothing
    up.  [startListening] then still asks for the microphone, but never
    starts a recognizer and never reports listening, whatever the answer. *)
Theorem unsupported_browser_never_listens
  (probe getUserMedia start : Outcome unit) :
  let s0 := snd (mount false probe initial) in
  let s1 := snd (startListening getUserMedia start s0) in
  s0 = initial
  /\ isListening s1 = false
  /\ In GetUserMedia (calls s1)
  /\ ~ In RecognitionStart (calls s1).
Proof.
  cbn. split; [reflexivity|].
  unfold startListening, requestPermission, try_catch, bind, gets, modify,
    await, ret, throw, call, setHasPermission, setTranscript, setIsListening.
  destruct getUserMedia as [[]|e]; cbn; (split; [reflexivity|]);
    (split; [tauto|]);
    intros H; repeat (destruct H as [H|H]; try discriminate H); exact H.
Qed.

End VoiceFacts.

(** ** More on strings *)

Module StringFacts.

Lemma trim_start_head (s : JsString) (c : N) (r : JsString) :
  trim_start s = c :: r -> is_space c = false.
Proof.
  induction s as [|d s IH]; cbn; [discriminate|].
  destruct (is_space d) eqn:E; [exact IH|].
  intros [= <- _]. exact E.
Qed.

Lemma trim_start_suffix (s : JsString) :
  exists pre, s = pre ++ trim_start s /\ forallb is_space pre = true.
Proof.
  induction s as [|d s (pre & IH & Hp)]; cbn.
  - exists []. split; reflexivity.
  - destruct (is_space d) eqn:E.
    + exists (d :: pre). cbn. rewrite E, Hp. split; [now f_equal | reflexivity].
    + exists []. split; reflexivity.
Qed.

Lemma trim_start_fixed (s : JsString) :
  match s with c :: _ => is_space c = false | [] => True end ->
  trim_start s = s.
Proof. destruct s as [|c r]; cbn; [reflexivity|]. now intros ->. Qed.

(** [trim] leaves no white space at either end. *)
Lemma trim_ends (s : JsString) :
  (forall c r, trim s = c :: r -> is_space c = false)
  /\ (forall c r, trim s = r ++ [c] -> is_space c = false).
Proof.
  unfold trim.
  destruct (trim_start_suffix (rev (trim_start s))) as (pre & Hs & _).
  set (y := trim_start (rev (trim_start s))) in *.
  split.
  - intros c r H.
    assert (Hy : y = rev r ++ [c]).
    { rewrite <- (rev_involutive y), H. reflexivity. }
    rewrite Hy in Hs.
    assert (Ht : trim_start s = c :: rev (pre ++ rev r)).
    { rewrite <- (rev_involutive (trim_start s)), Hs, app_assoc, rev_app_distr.
      reflexivity. }
    now apply trim_start_head in Ht.
  - intros c r H.
    assert (Hy : y = c :: rev r).
    { rewrite <- (rev_involutive y), H, rev_app_distr. reflexivity. }
    now apply trim_start_head in Hy.
Qed.

Lemma trim_idempotent (s : JsString) : trim (trim s) = trim s.
Proof.
  destruct (trim_ends s) as [Hh Hl].
  unfold trim at 1.
  assert (H1 : trim_start (trim s) = trim s).
  { apply trim_start_fixed. destruct (trim s) as [|c r] eqn:E; [exact I|].
    now apply (Hh c r). }
  rewrite H1.
  assert (H2 : trim_start (rev (trim s)) = rev (trim s)).
  { apply trim_start_fixed. destruct (rev (trim s)) as [|c r] eqn:E; [exact I|].
    apply (Hl c (rev r)). rewrite <- (rev_involutive (trim s)), E. reflexivity. }
  rewrite H2. apply rev_involutive.
Qed.

Lemma split_comma_1_None (s : JsString) :
  split_comma_1 s = None <-> ~ In comma s.
Proof.
  induction s as [|c r IH]; cbn; [tauto|].
  destruct (N.eqb c comma) eqn:E.
  - apply N.eqb_eq in E. split; [discriminate|]. intros H. exfalso. apply H. now left.
  - apply N.eqb_neq in E. rewrite IH. split.
    + intros H [H'|H']; [congruence | tauto].
    + intros H H'. apply H. now right.
Qed.

End StringFacts.

(** ** More on the handwriting extractor *)

Module ExtractorFacts.

Import OCR StringFacts.

(** The calls on the worker, in the order [processImage] makes them. *)
Definition pipeline (file : File) : list Event :=
  [WorkerCreate; WorkerLoad; WorkerLoadLanguage (js "eng");
   WorkerInitialize (js "eng"); WorkerRecognize file; WorkerTerminate].

Definition is_worker_call (e : Event) : bool :=
  match e with
  | WorkerCreate | WorkerLoad | WorkerLoadLanguage _ | WorkerInitialize _
  | WorkerRecognize _ | WorkerTerminate => true
  | _ => false
  end.

Lemma no_worker_call_in_statuses ss :
  filter is_worker_call (map ConsoleLog ss) = [].
Proof. induction ss; [reflexivity | assumption]. Qed.

(** The progress values a call shows while it is under way. *)
Definition checkpoint (p : Z) : Prop :=
  p = 0 \/ p = 25 \/ p = 50 \/ p = 75 \/ p = 90.

Lemma logger_checkpoint s w :
  checkpoint (progress (ocr w)) ->
  checkpoint (progress (ocr (snd (logger s w)))).
Proof.
  unfold logger, bind, when, emit, modify, setProgress, ret, checkpoint.
  repeat match goal with |- context [str_eqb ?a ?b] => destruct (str_eqb a b) end;
    cbn; tauto.
Qed.

Lemma reported_checkpoint ss w :
  checkpoint (progress (ocr w)) ->
  checkpoint (progress (ocr (reported ss w))).
Proof.
  revert w. induction ss as [|s ss IH]; intros w H; cbn; [exact H|].
  apply IH. now apply logger_checkpoint.
Qed.

(** The first thing that goes wrong in a call, if anything does. *)
Definition failure (cw : Outcome TesseractWorker) (file : File)
  : option JsThrown :=
  match cw with
  | Rejects e => Some e
  | Resolves worker =>
      match settles (load worker) with
      | Rejects e => Some e
      | Resolves _ =>
      match settles (loadLanguage worker (js "eng")) with
      | Rejects e => Some e
      | Resolves _ =>
      match settles (initialize worker (js "eng")) with
      | Rejects e => Some e
      | Resolves _ =>
      match settles (recognize worker file) with
      | Rejects e => Some e
      | Resolves data0 =>
      match settles (terminate worker) with
      | Rejects e => Some e
      | Resolves _ =>
          if Js.truthy (trim (data_text data0)) then None
          else Some (ErrorObj PlainError no_text_detected)
      end end end end end
  end.

(** Every call on the worker resolved, [terminate] included. *)
Definition terminated (cw : Outcome TesseractWorker) (file : File) : bool :=
  match recognized cw file with
  | Some (worker, _) =>
      match settles (terminate worker) with
      | Resolves _ => true
      | Rejects _ => false
      end
  | None => false
  end.

(** How many of the six calls resolve before the first one that rejects. *)
Definition resolved_calls (cw : Outcome TesseractWorker) (file : File) : nat :=
  match cw with
  | Rejects _ => 0
  | Resolves worker =>
      match settles (load worker) with
      | Rejects _ => 1
      | Resolves _ =>
      match settles (loadLanguage worker (js "eng")) with
      | Rejects _ => 2
      | Resolves _ =>
      match settles (initialize worker (js "eng")) with
      | Rejects _ => 3
      | Resolves _ =>
      match settles (recognize worker file) with
      | Rejects _ => 4
      | Resolves _ =>
      match settles (terminate worker) with
      | Rejects _ => 5
      | Resolves _ => 6
      end end end end end
  end.

Ltac worker_calls :=
  unfold pipeline;
  rewrite ?filter_app, ?no_worker_call_in_statuses; cbn;
  split; [reflexivity | first [reflexivity | congruence]].

Ltac checkpoints :=
  repeat (autorewrite with world; cbn;
          try match goal with
              | |- checkpoint (progress (ocr (reported _ _))) =>
                  apply reported_checkpoint
              end);
  unfold checkpoint; tauto.

Ltac settle2 :=
  eexists; split; [reflexivity|];
  split; [autorewrite with world; cbn; reflexivity|];
  split; [first [checkpoints | autorewrite with world; cbn; reflexivity]|];
  autorewrite with world; cbn; rewrite <- ?app_assoc;
  eexists; split; [reflexivity|]; worker_calls.

Lemma processImage_detail cw file w :
  exists w',
    processImage cw file w = (Normal (outcome cw file), w')
    /\ ocr_error (ocr w')
       = option_map (fun e => message_or e processing_failed) (failure cw file)
    /\ (if terminated cw file then progress (ocr w') = 100
        else checkpoint (progress (ocr w')))
    /\ exists new,
         log w' = log w ++ new
         /\ filter is_worker_call new
            = firstn (S (resolved_calls cw file)) (pipeline file)
         /\ (outcome cw file <> None -> resolved_calls cw file = 6%nat).
Proof.
  unfold terminated, outcome, recognized, failure, resolved_calls.
  unfold processImage, try_finally, try_catch, bind, setIsProcessing, setError,
    setProgress, emit, modify, await, ret, throw, console_error.
  destruct cw as [worker|e]; cbn; [|settle2].
  rewrite run_eq. destruct (settles (load worker)) as [[]|e]; cbn; [|settle2].
  rewrite run_eq.
  destruct (settles (loadLanguage worker (js "eng"))) as [[]|e]; cbn; [|settle2].
  rewrite run_eq.
  destruct (settles (initialize worker (js "eng"))) as [[]|e]; cbn; [|settle2].
  rewrite run_eq.
  destruct (settles (recognize worker file)) as [data0|e]; cbn; [|settle2].
  rewrite run_eq.
  destruct (settles (terminate worker)) as [[]|e]; cbn; [|settle2].
  destruct (Js.truthy (trim (data_text data0))); cbn; settle2.
Qed.

(** The calls [processImage] makes on the worker are, in this order,
    create, load, loadLanguage('eng'), initialize('eng'), recognize(file)
    and terminate, as far as they resolve, and then the first one that
    rejects: no call is made after one has failed, and none is left out
    before.  A result that is not null means that all six resolved. *)
Theorem processImage_calls_in_order cw file w :
  exists new,
    log (snd (processImage cw file w)) = log w ++ new
    /\ filter is_worker_call new
       = firstn (S (resolved_calls cw file)) (pipeline file)
    /\ (fst (processImage cw file w) <> Normal None ->
        resolved_calls cw file = 6%nat).
Proof.
  destruct (processImage_detail cw file w)
    as (w' & E & _ & _ & new & Hn & Hf & H6).
  exists new. rewrite E. cbn [fst snd]. split; [exact Hn|]. split; [exact Hf|].
  intros Hne. apply H6. congruence.
Qed.

(** Progress is reset to 0 at the start of a call and reaches 100 exactly
    when every call on the worker, [terminate] included, has resolved, be
    the recognised text blank or not; otherwise it stops at one of 0, 25,
    50, 75 and 90. *)
Theorem processImage_progress cw file w :
  let w' := snd (processImage cw file w) in
  (progress (ocr w') = 100 <-> terminated cw file = true)
  /\ (progress (ocr w') = 100 \/ checkpoint (progress (ocr w'))).
Proof.
  destruct (processImage_detail cw file w) as (w' & E & _ & Hp & _).
  rewrite E. cbn [snd]. destruct (terminated cw file).
  - split; [tauto | now left].
  - split; [|now right]. split; [|discriminate].
    unfold checkpoint in Hp. lia.
Qed.

Lemma failure_None cw file : failure cw file = None <-> outcome cw file <> None.
Proof.
  unfold failure, outcome, recognized.
  destruct cw as [worker|e]; [|split; congruence].
  destruct (settles (load worker)) as [[]|e]; [|split; congruence].
  destruct (settles (loadLanguage worker (js "eng"))) as [[]|e]; [|split; congruence].
  destruct (settles (initialize worker (js "eng"))) as [[]|e]; [|split; congruence].
  destruct (settles (recognize worker file)) as [data0|e]; [|split; congruence].
  destruct (settles (terminate worker)) as [[]|e]; [|split; congruence].
  destruct (Js.truthy (trim (data_text data0))); split; congruence.
Qed.

(** The message [processImage] records is that of the first thing that
    went wrong: the message of the [Error] a call rejected with, the fixed
    fallback when the rejection carries something that is not an [Error],
    or the no-text message.  A call that returns a result leaves no error
    behind, whatever error was recorded before. *)
Theorem processImage_error_message cw file w :
  let w' := snd (processImage cw file w) in
  ocr_error (ocr w')
  = option_map (fun e => message_or e processing_failed) (failure cw file)
  /\ (ocr_error (ocr w') = None <-> fst (processImage cw file w) <> Normal None).
Proof.
  destruct (processImage_detail cw file w) as (w' & E & He & _).
  rewrite E. cbn [fst snd]. split; [exact He|]. rewrite He.
  pose proof (failure_None cw file) as F.
  destruct (failure cw file) as [e|]; cbn.
  - split; [discriminate|]. intros H. exfalso.
    destruct (outcome cw file); [|now apply H].
    assert (Hx : Some e = None) by (apply F; discriminate). discriminate.
  - split; [|reflexivity]. intros _ H. injection H as H.
    now apply (proj1 F eq_refl).
Qed.

(** The text of a result is never empty, has no white space at either end,
    and trimming it again changes nothing. *)
Theorem processImage_result_is_trimmed cw file w res :
  fst (processImage cw file w) = Normal (Some res) ->
  result_text res <> []
  /\ trim (result_text res) = result_text res
  /\ (forall c r, result_text res = c :: r -> is_space c = false)
  /\ (forall c r, result_text res = r ++ [c] -> is_space c = false).
Proof.
  intros H. destruct (processImage_spec cw file w) as (w' & E & _).
  rewrite E in H. injection H as H.
  destruct (outcome_Some _ _ _ H)
    as (worker & data0 & _ & _ & _ & _ & _ & _ & Hne & ->).
  cbn [result_text]. split; [exact Hne|]. split; [apply trim_idempotent|].
  apply trim_ends.
Qed.

Lemma processImage_result_is_trimmed_witness :
  fst (processImage (Resolves (reading "  Hello World ")) page initial_world)
  = Normal (Some {| result_text := js "Hello World";
                    confidence := {| toFixed1 := js "42.7" |} |})
  /\ trim (js "Hello World") = js "Hello World".
Proof.
  split; [reflexivity|].
  apply (processImage_result_is_trimmed
           (Resolves (reading "  Hello World ")) page initial_world
           {| result_text := js "Hello World";
              confidence := {| toFixed1 := js "42.7" |} |} eq_refl).
Defined.

End ExtractorFacts.

(** ** More on the response generator *)

Module GeneratorFacts.

Import AI.

(** A failed call raises one of two things.  With an image, whatever went
    wrong (an input that is neither payload nor video, no canvas context, a
    rejection by the model) is replaced by the one error 'Failed to
    analyze image'.  Without an image, the rejection of the text model is
    passed on unchanged. *)
Theorem processAIResponse_failure_kinds ev env prompt input w e :
  fst (processAIResponse ev env prompt input w) = Throw e ->
  match input with
  | Some _ => e = ErrorObj PlainError (js "Failed to analyze image")
  | None => textModel env prompt = Rejects e
  end.
Proof.
  destruct (processAIResponse_spec ev env prompt input w) as (w' & E & _).
  rewrite E. cbn [fst]. unfold reply_of.
  destruct input as [[d|video|]|].
  - destruct (visionModel env d _); [discriminate|]. now intros [= <-].
  - destruct (getContext_2d env); [|now intros [= <-]].
    destruct (negb (readyState video <? 2) || loadeddata_fires video);
      [|discriminate].
    destruct (visionModel env _ _); [discriminate|]. now intros [= <-].
  - now intros [= <-].
  - destruct (textModel env prompt); [discriminate|]. now intros [= <-].
Qed.

Definition quota : JsThrown := ErrorObj PlainError (js "429 quota exceeded").

Definition busy : Env :=
  {| getContext_2d := false;
     toDataURL := fun _ _ => js "data:,";
     visionModel := fun _ _ => Rejects quota;
     textModel := fun _ => Rejects quota;
     latency := 1;
     speech_cancel := Resolves tt;
     speech_speak := fun _ => Rejects NonError |}.

Lemma processAIResponse_failure_kinds_witness :
  textModel busy (js "Hi") = Rejects quota
  /\ fst (processAIResponse true busy (js "Hi") (Some ImageElement) initial_world)
     = Throw (ErrorObj PlainError (js "Failed to analyze image")).
Proof.
  split; [|reflexivity].
  apply (processAIResponse_failure_kinds true busy (js "Hi") None
           initial_world quota eq_refl).
Defined.

(** The loading flag follows the call: [isLoading] is false after every
    call that returns or raises, which is the work of the [finally] block,
    and true after a call that never settles.  One call that never settles
    is the analysis of a video without data ([readyState] below 2) whose
    [loadeddata] event does not fire, with a canvas context at hand: it
    stops at the wait, before the frame is drawn and before anything is
    sent to the vision model. *)
Theorem processAIResponse_loading_flag ev env prompt input w :
  let run := processAIResponse ev env prompt input w in
  isLoading (ai (snd run))
  = (match fst run with Pending => true | _ => false end)
  /\ forall video,
       input = Some (VideoElement video) ->
       getContext_2d env = true ->
       readyState video < 2 ->
       loadeddata_fires video = false ->
       fst run = Pending
       /\ log (snd run)
          = log w ++ [CanvasCreate; CanvasSetWidth 640; CanvasSetHeight 480;
                      CanvasGetContext; VideoAwaitLoadedData].
Proof.
  cbn zeta.
  assert (Hwait : forall video,
            input = Some (VideoElement video) ->
            getContext_2d env = true ->
            readyState video < 2 ->
            loadeddata_fires video = false ->
            exists w',
              processAIResponse ev env prompt input w = (Pending, w')
              /\ isLoading (ai w') = true
              /\ log w'
                 = log w ++ [CanvasCreate; CanvasSetWidth 640;
                             CanvasSetHeight 480; CanvasGetContext;
                             VideoAwaitLoadedData]).
  { intros video -> Ec Er Ef. apply Z.ltb_lt in Er.
    unfold processAIResponse, capture_frame, try_finally, try_catch,
      bind, gets, emit, elapse, modify, await, ret, throw, never,
      when, console_error, setError, setIsLoading.
    cbn. rewrite Ec. cbn. rewrite Er. cbn. rewrite Ef. cbn.
    eexists. split; [reflexivity|].
    autorewrite with world. cbn. rewrite <- ?app_assoc. split; reflexivity. }
  split.
  - destruct (processAIResponse_spec ev env prompt input w)
      as (w' & E & _ & _ & Hl & _).
    destruct (reply_of env prompt input) as [r|e|] eqn:Er.
    + rewrite E. cbn [fst snd]. apply Hl. discriminate.
    + rewrite E. cbn [fst snd]. apply Hl. discriminate.
    + clear E Hl w'. unfold reply_of in Er.
      destruct input as [[d|video|]|].
      * destruct (visionModel env d _); discriminate.
      * destruct (getContext_2d env) eqn:Ec; [|discriminate].
        destruct (readyState video <? 2) eqn:Ert; cbn [negb orb] in Er.
        -- destruct (loadeddata_fires video) eqn:Ef.
           ++ destruct (visionModel env _ _); discriminate.
           ++ apply Z.ltb_lt in Ert.
              destruct (Hwait video eq_refl eq_refl Ert Ef) as (w' & E & Hl & _).
              rewrite E. exact Hl.
        -- destruct (visionModel env _ _); discriminate.
      * discriminate.
      * destruct (textModel env prompt); discriminate.
  - intros video Hi Ec Er Ef.
    destruct (Hwait video Hi Ec Er Ef) as (w' & E & _ & Hlog).
    rewrite E. split; [reflexivity | exact Hlog].
Qed.

(** A webcam that has no frame yet and never gets one. *)
Definition frozen : Video := {| readyState := 0; loadeddata_fires := false |}.

Definition ready : Env :=
  {| getContext_2d := true;
     toDataURL := fun _ _ => js "data:image/jpeg;base64,AAAA";
     visionModel := fun _ _ => Resolves (js "A cat");
     textModel := fun _ => Resolves (js "Hello");
     latency := 1;
     speech_cancel := Resolves tt;
     speech_speak := fun _ => Resolves tt |}.

Lemma processAIResponse_loading_flag_witness :
  fst (processAIResponse true ready (js "What is this?")
         (Some (VideoElement frozen)) initial_world) = Pending
  /\ isLoading (ai (snd (processAIResponse true ready (js "What is this?")
                           (Some (VideoElement frozen)) initial_world))) = true.
Proof.
  destruct (processAIResponse_loading_flag true ready (js "What is this?")
              (Some (VideoElement frozen)) initial_world) as (Hl & Hw).
  destruct (Hw frozen eq_refl eq_refl ltac:(cbn; lia) eq_refl) as (Hp & _).
  split; [exact Hp|]. rewrite Hl, Hp. reflexivity.
Defined.

(** What an attempt to speak a text leaves in the log. *)
Definition speech (env : Env) (text : JsString) : list Event :=
  SpeechCancel ::
  match speech_cancel env with
  | Rejects e => [ConsoleError (js "Error speaking response:") e]
  | Resolves _ =>
      SpeechSpeak text ::
      match speech_speak env text with
      | Rejects e => [ConsoleError (js "Error speaking response:") e]
      | Resolves _ => []
      end
  end.

Definition speech_fails (env : Env) (text : JsString) : bool :=
  match speech_cancel env with
  | Rejects _ => true
  | Resolves _ =>
      match speech_speak env text with
      | Rejects _ => true
      | Resolves _ => false
      end
  end.

(** Speech is best effort.  When the text model answers, the call returns
    that answer whatever speech synthesis does.  The answer is spoken only
    if it is not empty, voice is enabled, an utterance exists and nothing is
    being spoken already; a failure of the synthesis is logged and leaves
    'Failed to speak response' as the hook's error, and nothing else. *)
Theorem speech_is_best_effort ev env prompt w t :
  textModel env prompt = Resolves t ->
  let attempted :=
    Js.truthy t && ev && voiceOutput (ai w) && negb (isSpeaking (ai w)) in
  exists w',
    processAIResponse ev env prompt None w = (Normal {| reply_text := t |}, w')
    /\ log w'
       = log w ++ TextGenerate prompt :: (if attempted then speech env t else [])
    /\ ai_error (ai w')
       = (if attempted && speech_fails env t
          then Some (js "Failed to speak response") else None).
Proof.
  intros Ht.
  unfold speech, speech_fails.
  unfold processAIResponse, speakResponse, try_finally, try_catch, bind, gets,
    emit, elapse, modify, await, ret, throw, never, when, console_error,
    setError, setIsLoading.
  rewrite Ht. cbn.
  destruct (Js.truthy t); cbn;
    [|eexists; split; [reflexivity|]; autorewrite with world; cbn;
      split; reflexivity].
  destruct ev; cbn;
    [|eexists; split; [reflexivity|]; autorewrite with world; cbn;
      split; reflexivity].
  autorewrite with world. cbn.
  destruct (voiceOutput (ai w)); cbn;
    [|eexists; split; [reflexivity|]; autorewrite with world; cbn;
      split; reflexivity].
  destruct (isSpeaking (ai w)); cbn;
    [eexists; split; [reflexivity|]; autorewrite with world; cbn;
      split; reflexivity|].
  destruct (speech_cancel env) as [[]|e]; cbn.
  - destruct (speech_speak env t) as [[]|e]; cbn;
      eexists; (split; [reflexivity|]); autorewrite with world; cbn;
      rewrite <- ?app_assoc; split; reflexivity.
  - eexists; (split; [reflexivity|]); autorewrite with world; cbn;
      rewrite <- ?app_assoc; split; reflexivity.
Qed.

Definition mute : Env :=
  {| getContext_2d := false;
     toDataURL := fun _ _ => js "data:,";
     visionModel := fun _ _ => Rejects quota;
     textModel := fun _ => Resolves (js "4");
     latency := 1;
     speech_cancel := Resolves tt;
     speech_speak := fun _ => Rejects NonError |}.

Lemma speech_is_best_effort_witness :
  exists w',
    processAIResponse true mute (js "2+2?") None initial_world
    = (Normal {| reply_text := js "4" |}, w')
    /\ ai_error (ai w') = Some (js "Failed to speak response").
Proof.
  destruct (speech_is_best_effort true mute (js "2+2?") initial_world (js "4")
              eq_refl) as (w' & E & _ & He).
  exists w'. split; [exact E | exact He].
Defined.

End GeneratorFacts.

(** ** More on the session orchestrator *)

Module OrchestratorFacts.

Import AI App AppFacts StringFacts.

(** The reset empties the history, the response and the transcript
    whatever they held, and calls on no collaborator.  Asking straight
    after it finds the transcript empty: the placeholder is shown, nothing
    is sent, and the history stays empty. *)
Theorem clearHistory_resets (env : Env) (w : World) :
  exists w',
    clearHistory w = (Normal tt, w')
    /\ history w' = []
    /\ response (app w') = []
    /\ transcript (app w') = []
    /\ log w' = log w
    /\ exists w'',
         handleAskQuestion env w' = (Normal tt, w'')
         /\ history w'' = []
         /\ response (app w'') = voice_placeholder
         /\ log w'' = log w.
Proof.
  unfold history. app_unfold. cbn.
  eexists. split; [reflexivity|]. autorewrite with world. cbn.
  repeat (split; [reflexivity|]).
  eexists. split; [reflexivity|]. autorewrite with world. cbn.
  repeat split; reflexivity.
Qed.

(** Without a mounted camera [handleAnalyzeImage] shows the camera
    placeholder and does nothing else: no question is recorded, nothing is
    sent, the transcript is kept. *)
Theorem analyze_without_camera (env : Env) (w : World) :
  exists w',
    handleAnalyzeImage None env w = (Normal tt, w')
    /\ response (app w') = camera_placeholder
    /\ history w' = history w
    /\ transcript (app w') = transcript (app w)
    /\ log w' = log w.
Proof.
  unfold history. app_unfold. cbn.
  eexists. split; [reflexivity|]. autorewrite with world. cbn.
  repeat split; reflexivity.
Qed.

(** When the text model rejects, [handleAskQuestion] still completes
    normally.  The question has already been recorded and stays in the
    history without an answer, the failure message is shown, and the
    transcript is not cleared. *)
Theorem failed_ask_keeps_question (env : Env) (w : World) (e : JsThrown) :
  transcript (app w) <> [] ->
  textModel env (transcript (app w)) = Rejects e ->
  exists w',
    handleAskQuestion env w = (Normal tt, w')
    /\ response (app w') = js "Failed to get response. Please try again."
    /\ history w'
       = history w
         ++ [{| type := question; text := transcript (app w);
                timestamp := clock w |}]
    /\ transcript (app w') = transcript (app w)
    /\ isLoading (ai w') = false.
Proof.
  intros Ht Hm. apply JsFacts.truthy_true in Ht.
  unfold history. app_unfold. rewrite Ht. cbn.
  use_ai. unfold reply_of in *. rewrite Hm in *. cbn.
  eexists. split; [reflexivity|]. normalize.
  repeat (split; [reflexivity|]). apply Hl. discriminate.
Qed.

Lemma failed_ask_keeps_question_witness :
  history (snd (handleAskQuestion GeneratorFacts.busy
                  (snd (setTranscript (js "Hi") initial_world))))
  = [{| type := question; text := js "Hi"; timestamp := 0 |}].
Proof.
  assert (Hne : transcript (app (snd (setTranscript (js "Hi") initial_world)))
                <> []) by discriminate.
  destruct (failed_ask_keeps_question GeneratorFacts.busy
              (snd (setTranscript (js "Hi") initial_world))
              GeneratorFacts.quota Hne eq_refl) as (w' & E & _ & Hh & _).
  rewrite E. exact Hh.
Defined.

(** When the model resolves with an empty text, neither branch of
    [handleAskQuestion] is taken: the question stays in the history
    without an answer, and the response and the transcript are left as
    they were. *)
Theorem empty_answer_is_dropped (env : Env) (w : World) :
  transcript (app w) <> [] ->
  textModel env (transcript (app w)) = Resolves [] ->
  exists w',
    handleAskQuestion env w = (Normal tt, w')
    /\ response (app w') = response (app w)
    /\ history w'
       = history w
         ++ [{| type := question; text := transcript (app w);
                timestamp := clock w |}]
    /\ transcript (app w') = transcript (app w).
Proof.
  intros Ht Hm. apply JsFacts.truthy_true in Ht.
  unfold history. app_unfold. rewrite Ht. cbn.
  use_ai. unfold reply_of in *. rewrite Hm in *. cbn.
  eexists. split; [reflexivity|]. normalize.
  repeat split; reflexivity.
Qed.

Lemma empty_answer_is_dropped_witness :
  history (snd (handleAskQuestion (tutor "")
                  (snd (setTranscript (js "Hi") initial_world))))
  = [{| type := question; text := js "Hi"; timestamp := 0 |}].
Proof.
  assert (Hne : transcript (app (snd (setTranscript (js "Hi") initial_world)))
                <> []) by discriminate.
  destruct (empty_answer_is_dropped (tutor "")
              (snd (setTranscript (js "Hi") initial_world)) Hne eq_refl)
    as (w' & E & _ & Hh & _).
  rewrite E. exact Hh.
Defined.

(** When the canvas gives no 2d context, or the vision model rejects the
    frame, [handleAnalyzeImage] completes normally with 'Failed to analyze
    image. Please try again.' as the response.  The question was recorded
    before the call and stays in the history without an answer; the
    transcript is kept. *)
Theorem failed_analysis_keeps_question
  (video : Video) (env : Env) (w : World) :
  let asked_text :=
    or_default (transcript (app w)) (js "What do you see in this image?") in
  getContext_2d env = false
  \/ (negb (readyState video <? 2) || loadeddata_fires video = true
      /\ exists e, visionModel env (captured env) asked_text = Rejects e) ->
  exists w',
    handleAnalyzeImage (Some video) env w = (Normal tt, w')
    /\ response (app w') = js "Failed to analyze image. Please try again."
    /\ history w'
       = history w
         ++ [{| type := question; text := asked_text; timestamp := clock w |}]
    /\ transcript (app w') = transcript (app w).
Proof.
  intros asked_text H.
  assert (Hq : Js.truthy asked_text = true).
  { subst asked_text. unfold or_default. destruct (transcript (app w)); reflexivity. }
  assert (Hr : exists e, reply_of env asked_text (Some (VideoElement video)) = Throw e).
  { unfold reply_of, vision_prompt. rewrite (or_default_truthy _ _ Hq).
    destruct (getContext_2d env); [|eauto].
    destruct H as [H | (Hready & e & Hm)]; [discriminate|].
    rewrite Hready, Hm. eauto. }
  destruct Hr as (e & Hr).
  unfold history. app_unfold. cbn. fold asked_text.
  use_ai. rewrite Hr. cbn.
  eexists. split; [reflexivity|]. normalize.
  repeat split; reflexivity.
Qed.

Lemma failed_analysis_keeps_question_witness :
  response (app (snd (handleAnalyzeImage (Some webcam) GeneratorFacts.busy
                        initial_world)))
  = js "Failed to analyze image. Please try again.".
Proof.
  destruct (failed_analysis_keeps_question webcam GeneratorFacts.busy
              initial_world (or_introl eq_refl)) as (w' & E & Hr & _).
  rewrite E. exact Hr.
Defined.

(** In [App.tsx] the identifier [setError] is not declared, so choosing a
    file never starts the handwriting cycle: the handler clears the
    response, raises a [ReferenceError] on its next statement and again in
    its catch block, and the rejection leaves the handler.  No worker is
    created, nothing is sent to the Response Generator, and the history is
    untouched. *)
Theorem upload_raises_before_ocr
  (file : File) (cw : Outcome OCR.TesseractWorker) (env : Env) (w : World) :
  let run := handleFileUpload Undeclared (Some file) cw env w in
  fst run = Throw (ErrorObj ReferenceError (js "setError is not defined"))
  /\ response (app (snd run)) = []
  /\ history (snd run) = history w
  /\ ocr (snd run) = ocr w
  /\ log (snd run)
     = log w ++ [ConsoleError (js "Failed to process handwriting:")
                   (ErrorObj ReferenceError (js "setError is not defined"))].
Proof.
  cbn zeta. unfold history. app_unfold. cbn. autorewrite with world. cbn.
  repeat split; reflexivity.
Qed.

Definition drawing_failed : JsString :=
  js "Failed to analyze drawing. Please try again.".

(** A drawing goes to the vision model as PNG: the payload is whatever
    follows the first comma of the data URL, labelled [image/png], with the
    fixed drawing prompt.  A string without a comma is not turned away: it
    is submitted with [undefined] as its data. *)
Theorem whiteboard_request
  (b : Binding) (imageData : JsString) (env : Env) (w : World) :
  (exists rest,
     log (snd (handleWhiteboardSubmit b imageData env w))
     = log w
       ++ VisionGenerate {| data := split_comma_1 imageData;
                            mimeType := js "image/png" |} drawing_prompt
       :: rest
     /\ generator_calls rest = [])
  /\ (split_comma_1 imageData = None <-> ~ In comma imageData).
Proof.
  split; [|apply split_comma_1_None].
  app_unfold. use_ai. fold drawing_prompt in *.
  assert (Hp : vision_prompt drawing_prompt = drawing_prompt) by reflexivity.
  cbn [request_events] in Hn. rewrite Hp in Hn.
  pose proof (aftermath_no_generate _ Hf) as Hz.
  destruct (reply_of _ _ _) as [[t]|e|]; cbn.
  - destruct (Js.truthy t); cbn; normalize; cbn; eexists; split;
      [reflexivity | exact Hz | reflexivity | exact Hz].
  - destruct b; cbn; normalize; cbn; rewrite <- ?app_assoc; cbn;
      eexists; (split; [reflexivity|]);
      unfold generator_calls in *; rewrite filter_app, Hz; reflexivity.
  - normalize. cbn. eexists. split; [reflexivity | exact Hz].
Qed.

(** When the analysis of a drawing fails, the two revisions of [App] part
    ways.  Where [setError] is declared the handler completes normally and
    records 'Failed to analyze drawing. Please try again.'; in [App.tsx],
    where it is not, the catch block itself raises a [ReferenceError] and
    the rejection leaves the handler.  Either way the history and the
    response are left as they were. *)
Theorem failed_drawing_by_revision
  (imageData : JsString) (env : Env) (w : World) (e : JsThrown) :
  visionModel env
    {| data := split_comma_1 imageData; mimeType := js "image/png" |}
    drawing_prompt = Rejects e ->
  let old := handleWhiteboardSubmit Undeclared imageData env w in
  let rev := handleWhiteboardSubmit Declared imageData env w in
  fst old = Throw (ErrorObj ReferenceError (js "setError is not defined"))
  /\ fst rev = Normal tt
  /\ app_error (app (snd rev)) = Some drawing_failed
  /\ history (snd old) = history w /\ history (snd rev) = history w
  /\ response (app (snd old)) = response (app w)
  /\ response (app (snd rev)) = response (app w).
Proof.
  intros Hm. cbn zeta. unfold history.
  assert (Hr : reply_of env drawing_prompt
                 (Some (Inline {| data := split_comma_1 imageData;
                                  mimeType := js "image/png" |}))
               = Throw analysis_failed).
  { unfold reply_of, vision_prompt.
    rewrite (or_default_truthy drawing_prompt) by reflexivity.
    now rewrite Hm. }
  app_unfold. fold drawing_prompt. use_ai. rewrite Hr. cbn. normalize.
  repeat split; reflexivity.
Qed.

Lemma failed_drawing_by_revision_witness :
  fst (handleWhiteboardSubmit Undeclared (js "data:image/png;base64,iVBOR")
         GeneratorFacts.busy initial_world)
  = Throw (ErrorObj ReferenceError (js "setError is not defined"))
  /\ fst (handleWhiteboardSubmit Declared (js "data:image/png;base64,iVBOR")
            GeneratorFacts.busy initial_world)
     = Normal tt.
Proof.
  destruct (failed_drawing_by_revision (js "data:image/png;base64,iVBOR")
              GeneratorFacts.busy initial_world GeneratorFacts.quota eq_refl)
    as (Ho & Hr & _).
  split; [exact Ho | exact Hr].
Defined.

(** The permission notice is a transcript like any other.  After a refused
    [startListening] the transcript the orchestrator reads is the notice,
    so [handleAskQuestion] records it as the user's question and sends it
    to the text model. *)
Theorem refused_permission_is_asked
  (s : VoiceRecognition.State) (start : Outcome unit) (e : JsThrown)
  (env : Env) (w : World) :
  VoiceRecognition.not_permitted (VoiceRecognition.hasPermission s) = true ->
  let s' := snd (VoiceRecognition.startListening (Rejects e) start s) in
  let w1 := snd (setTranscript (VoiceRecognition.transcript s') w) in
  VoiceRecognition.transcript s' = VoiceRecognition.permission_notice
  /\ exists newer rest,
       history (snd (handleAskQuestion env w1))
       = history w
         ++ {| type := question; text := VoiceRecognition.permission_notice;
               timestamp := clock w |} :: newer
       /\ log (snd (handleAskQuestion env w1))
          = log w ++ TextGenerate VoiceRecognition.permission_notice :: rest.
Proof.
  intros Hp. cbn zeta.
  rewrite (VoiceFacts.startListening_refused e start s Hp).
  split; [reflexivity|].
  unfold history. app_unfold. cbn. normalize.
  change (Js.truthy VoiceRecognition.permission_notice) with true. cbn.
  use_ai. cbn [request_events] in Hn.
  destruct (reply_of _ _ _) as [[t]|e0|]; cbn.
  - destruct (Js.truthy t); cbn; normalize; cbn; rewrite <- ?app_assoc; cbn;
      eexists; eexists; split; reflexivity.
  - normalize. cbn. rewrite <- ?app_assoc. cbn.
    eexists; eexists; split; reflexivity.
  - normalize. cbn. eexists; eexists; split; reflexivity.
Qed.

Lemma refused_permission_is_asked_witness :
  exists rest,
    log (snd (handleAskQuestion (tutor "Sure")
                (snd (setTranscript
                        (VoiceRecognition.transcript
                           (snd (VoiceRecognition.startListening
                                   (Rejects NonError) (Resolves tt)
                                   VoiceRecognition.initial)))
                        initial_world))))
    = TextGenerate
        (js "Please grant microphone permission to use voice input.") :: rest.
Proof.
  destruct (refused_permission_is_asked VoiceRecognition.initial (Resolves tt)
              NonError (tutor "Sure") initial_world eq_refl)
    as (_ & newer & rest & _ & Hl).
  exists rest. exact Hl.
Defined.

End OrchestratorFacts.

(** ** The later revision: upload and note analysis *)

Module RevisionFacts.

Import AI App AppFacts AppRevision.

Ltac rev_unfold :=
  unfold AppRevision.handleFileUpload, handleAnalyzeNotes, lift,
    setUploadedImage, setShowAnalyzeButton, setIsLocalLoading, update_upload,
    App.setError, addToHistory, setResponse, setConversationHistory,
    update_app, App.processAIResponse,
    try_finally, try_catch, bind, gets, emit, modify, await, ret, throw, when,
    console_error.

Ltac count_calls Hz :=
  unfold generator_calls in *; rewrite ?filter_app; cbn;
  rewrite ?Hz, ?app_nil_r, <- ?app_assoc; cbn; rewrite ?app_nil_r;
  reflexivity.

Lemma handleFileUpload_outcome
  (f : File) (browser : Browser) (env : Env) (w : World) (x : Upload) :
  exists w' x',
    AppRevision.handleFileUpload (Some f) browser env (w, x) = (Normal tt, (w', x'))
    /\ isLocalLoading x' = false
    /\ uploadedImage x' = Some (createObjectURL browser f)
    /\ match fileToBase64 browser f with
       | Rejects _ =>
           response (app w') = upload_failed
           /\ history w' = history w
           /\ showAnalyzeButton x' = false
           /\ generator_calls (log w') = generator_calls (log w)
       | Resolves base64Data =>
           let payload := {| data := split_comma_1 base64Data;
                             mimeType := file_type browser f |} in
           generator_calls (log w')
           = generator_calls (log w) ++ [VisionGenerate payload describe_prompt]
           /\ match visionModel env payload describe_prompt with
              | Rejects _ =>
                  response (app w') = upload_failed
                  /\ history w' = history w
                  /\ showAnalyzeButton x' = false
              | Resolves d =>
                  if Js.truthy d then
                    response (app w') = d
                    /\ history w'
                       = history w
                         ++ [{| type := question;
                                text := js "Uploaded image: " ++ d;
                                timestamp := clock w + latency env |}]
                    /\ showAnalyzeButton x' = true
                  else
                    response (app w') = []
                    /\ history w' = history w
                    /\ showAnalyzeButton x' = false
              end
       end.
Proof.
  unfold history. rev_unfold. cbn.
  destruct (fileToBase64 browser f) as [base64Data|e]; cbn.
  2:{ do 2 eexists. split; [reflexivity|]. cbn. normalize.
      repeat split; try reflexivity. now apply generator_calls_frame. }
  use_ai. unfold reply_of, vision_prompt in *.
  rewrite (or_default_truthy describe_prompt) in * by reflexivity.
  cbn [request_events] in Hn. unfold vision_prompt in Hn.
  rewrite (or_default_truthy describe_prompt) in Hn by reflexivity.
  pose proof (aftermath_no_generate _ Hf) as Hz.
  destruct (visionModel env _ describe_prompt) as [d|e]; cbn.
  - destruct (Js.truthy d) eqn:Ed; cbn;
      do 2 eexists; (split; [reflexivity|]); cbn; normalize;
      (split; [reflexivity|]); (split; [reflexivity|]);
      (split; [count_calls Hz|]);
      repeat split; reflexivity.
  - do 2 eexists. split; [reflexivity|]. cbn. normalize.
    split; [reflexivity|]. split; [reflexivity|].
    split; [count_calls Hz|].
    repeat split; reflexivity.
Qed.

(** An upload in the later revision never raises and always ends with
    [isLocalLoading] false and the object URL of the file kept for display.
    When the file can be read and the vision model describes it with a
    non-empty text, that text is shown, recorded as a question prefixed
    with 'Uploaded image: ', and the analyse button appears.  When reading
    or the model fails, 'Failed to process image. Please try again.' is
    shown and nothing is recorded; an unreadable file is never sent. *)
Theorem upload_in_revision
  (f : File) (browser : Browser) (env : Env) (w : World) (x : Upload) :
  exists w' x',
    AppRevision.handleFileUpload (Some f) browser env (w, x) = (Normal tt, (w', x'))
    /\ isLocalLoading x' = false
    /\ uploadedImage x' = Some (createObjectURL browser f)
    /\ match fileToBase64 browser f with
       | Rejects _ =>
           response (app w') = upload_failed
           /\ history w' = history w
           /\ showAnalyzeButton x' = false
           /\ generator_calls (log w') = generator_calls (log w)
       | Resolves base64Data =>
           let payload := {| data := split_comma_1 base64Data;
                             mimeType := file_type browser f |} in
           generator_calls (log w')
           = generator_calls (log w) ++ [VisionGenerate payload describe_prompt]
           /\ match visionModel env payload describe_prompt with
              | Rejects _ =>
                  response (app w') = upload_failed
                  /\ history w' = history w
                  /\ showAnalyzeButton x' = false
              | Resolves d =>
                  if Js.truthy d then
                    response (app w') = d
                    /\ history w'
                       = history w
                         ++ [{| type := question;
                                text := js "Uploaded image: " ++ d;
                                timestamp := clock w + latency env |}]
                    /\ showAnalyzeButton x' = true
                  else
                    response (app w') = []
                    /\ history w' = history w
                    /\ showAnalyzeButton x' = false
              end
       end.
Proof. exact (handleFileUpload_outcome f browser env w x). Qed.

Lemma handleAnalyzeNotes_outcome
  (browser : Browser) (env : Env) (w : World) (x : Upload) :
  match uploadedImage x with
  | None => handleAnalyzeNotes browser env (w, x) = (Normal tt, (w, x))
  | Some url =>
      url <> [] ->
      exists w' x',
        handleAnalyzeNotes browser env (w, x) = (Normal tt, (w', x'))
        /\ isLocalLoading x' = false
        /\ uploadedImage x' = Some url
        /\ match obind (fetch_blob browser url) (fun blob =>
                 obind (blob_dataURL blob) (fun base64Data =>
                 visionModel env {| data := split_comma_1 base64Data;
                                    mimeType := blob_type blob |}
                   notes_prompt)) with
           | Resolves a =>
               if Js.truthy a then
                 response (app w') = a
                 /\ history w'
                    = history w
                      ++ [{| type := answer; text := a;
                             timestamp := clock w + latency env |}]
               else response (app w') = response (app w)
                    /\ history w' = history w
           | Rejects _ =>
               app_error (app w') = Some notes_failed
               /\ response (app w') = response (app w)
               /\ history w' = history w
           end
  end.
Proof.
  unfold history. rev_unfold. cbn.
  destruct (uploadedImage x) as [url|] eqn:Eu; [|reflexivity].
  intros Hne. apply JsFacts.truthy_true in Hne. rewrite Hne. cbn.
  destruct (fetch_blob browser url) as [blob|e]; cbn.
  2:{ do 2 eexists. split; [reflexivity|]. cbn. normalize.
      repeat split; try reflexivity; assumption. }
  destruct (blob_dataURL blob) as [base64Data|e]; cbn.
  2:{ do 2 eexists. split; [reflexivity|]. cbn. normalize.
      repeat split; try reflexivity; assumption. }
  use_ai. unfold reply_of, vision_prompt in *.
  rewrite (or_default_truthy notes_prompt) in * by reflexivity.
  destruct (visionModel env _ notes_prompt) as [a|e]; cbn.
  - destruct (Js.truthy a) eqn:Ea; cbn;
      do 2 eexists; (split; [reflexivity|]); cbn; normalize;
      repeat split; try reflexivity; assumption.
  - do 2 eexists. split; [reflexivity|]. cbn. normalize.
    repeat split; try reflexivity; assumption.
Qed.

(** [handleAnalyzeNotes] does nothing at all without an uploaded image.
    With one, it never raises and ends with [isLocalLoading] false.  It
    fetches the image back from its object URL and sends it with the notes
    prompt; a non-empty answer is shown and recorded as an answer, with no
    question of its own.  When fetching, reading or the model fails,
    'Failed to analyze notes. Please try again.' is recorded as the error
    and the history and the response are left as they were. *)
Theorem analyze_notes_in_revision
  (browser : Browser) (env : Env) (w : World) (x : Upload) :
  match uploadedImage x with
  | None => handleAnalyzeNotes browser env (w, x) = (Normal tt, (w, x))
  | Some url =>
      url <> [] ->
      exists w' x',
        handleAnalyzeNotes browser env (w, x) = (Normal tt, (w', x'))
        /\ isLocalLoading x' = false
        /\ uploadedImage x' = Some url
        /\ match obind (fetch_blob browser url) (fun blob =>
                 obind (blob_dataURL blob) (fun base64Data =>
                 visionModel env {| data := split_comma_1 base64Data;
                                    mimeType := blob_type blob |}
                   notes_prompt)) with
           | Resolves a =>
               if Js.truthy a then
                 response (app w') = a
                 /\ history w'
                    = history w
                      ++ [{| type := answer; text := a;
                             timestamp := clock w + latency env |}]
               else response (app w') = response (app w)
                    /\ history w' = history w
           | Rejects _ =>
               app_error (app w') = Some notes_failed
               /\ response (app w') = response (app w)
               /\ history w' = history w
           end
  end.
Proof. exact (handleAnalyzeNotes_outcome browser env w x). Qed.

Lemma analyze_notes_in_revision_witness :
  exists w' x',
    handleAnalyzeNotes
      {| createObjectURL := fun _ => js "blob:1";
         file_type := fun _ => js "image/png";
         fileToBase64 := fun _ => Resolves (js "data:image/png;base64,iVBOR");
         fetch_blob := fun _ => Rejects NonError |}
      (tutor "Notes on cells")
      (initial_world,
       {| uploadedImage := Some (js "blob:1"); showAnalyzeButton := true;
          isLocalLoading := false |})
    = (Normal tt, (w', x'))
    /\ app_error (app w') = Some notes_failed.
Proof.
  pose proof (analyze_notes_in_revision
                {| createObjectURL := fun _ => js "blob:1";
                   file_type := fun _ => js "image/png";
                   fileToBase64 := fun _ => Resolves (js "data:image/png;base64,iVBOR");
                   fetch_blob := fun _ => Rejects NonError |}
                (tutor "Notes on cells") initial_world
                {| uploadedImage := Some (js "blob:1"); showAnalyzeButton := true;
                   isLocalLoading := false |}) as H.
  cbn [uploadedImage] in H.
  destruct H as (w' & x' & E & _ & _ & He); [discriminate|].
  exists w', x'. split; [exact E|]. exact (proj1 He).
Defined.

(** Upload followed by analysis gives the pair the history shows for an
    image: the description the model gave on upload as the question, and
    the analysis of the same image, fetched back through its object URL, as
    the answer. *)
Theorem upload_then_analyze
  (f : File) (browser : Browser) (env : Env) (w : World) (x : Upload)
  (base64Data : JsString) (blob : Blob) (again d a : JsString) :
  fileToBase64 browser f = Resolves base64Data ->
  visionModel env {| data := split_comma_1 base64Data;
                     mimeType := file_type browser f |} describe_prompt
  = Resolves d ->
  d <> [] ->
  createObjectURL browser f <> [] ->
  fetch_blob browser (createObjectURL browser f) = Resolves blob ->
  blob_dataURL blob = Resolves again ->
  visionModel env {| data := split_comma_1 again; mimeType := blob_type blob |}
    notes_prompt = Resolves a ->
  a <> [] ->
  let p1 := snd (AppRevision.handleFileUpload (Some f) browser env (w, x)) in
  let p2 := snd (handleAnalyzeNotes browser env p1) in
  map kind_text (history (fst p2))
  = map kind_text (history w)
    ++ [(question, js "Uploaded image: " ++ d); (answer, a)]
  /\ response (app (fst p2)) = a
  /\ isLocalLoading (snd p2) = false.
Proof.
  intros Hf Hd Hdne Hu Hb Hagain Ha Hane. cbn zeta.
  apply JsFacts.truthy_true in Hdne, Hane.
  destruct (handleFileUpload_outcome f browser env w x)
    as (w1 & x1 & E1 & _ & Hu1 & H1).
  rewrite Hf in H1. cbn zeta in H1. destruct H1 as (_ & H1).
  rewrite Hd, Hdne in H1. destruct H1 as (_ & Hh1 & _).
  rewrite E1. cbn [snd].
  pose proof (handleAnalyzeNotes_outcome browser env w1 x1) as H2.
  rewrite Hu1 in H2. destruct (H2 Hu) as (w2 & x2 & E2 & Hl2 & _ & H3).
  rewrite Hb in H3. cbn [obind] in H3. rewrite Hagain in H3. cbn [obind] in H3.
  rewrite Ha, Hane in H3. destruct H3 as (Hr3 & Hh3).
  rewrite E2. cbn [fst snd]. split; [|split; assumption].
  rewrite Hh3, Hh1, <- app_assoc, !map_app. reflexivity.
Qed.

Definition desk : Browser :=
  {| createObjectURL := fun _ => js "blob:1";
     file_type := fun _ => js "image/png";
     fileToBase64 := fun _ => Resolves (js "data:image/png;base64,iVBOR");
     fetch_blob := fun _ =>
       Resolves {| blob_type := js "image/png";
                   blob_dataURL := Resolves (js "data:image/png;base64,iVBOR") |} |}.

Lemma upload_then_analyze_witness :
  map kind_text
    (history
       (fst (snd (handleAnalyzeNotes desk (tutor "Cells")
                    (snd (AppRevision.handleFileUpload (Some page) desk
                            (tutor "Cells") (initial_world, no_upload)))))))
  = [(question, js "Uploaded image: Cells"); (answer, js "Cells")].
Proof.
  assert (Hne : js "Cells" <> []) by discriminate.
  assert (Hu : js "blob:1" <> []) by discriminate.
  exact (proj1 (upload_then_analyze page desk (tutor "Cells") initial_world
                  no_upload (js "data:image/png;base64,iVBOR")
                  {| blob_type := js "image/png";
                     blob_dataURL := Resolves (js "data:image/png;base64,iVBOR") |}
                  (js "data:image/png;base64,iVBOR") (js "Cells") (js "Cells")
                  eq_refl eq_refl Hne Hu eq_refl eq_refl eq_refl Hne)).
Defined.

End RevisionFacts.

(** ** Playing a quiz *)

Module QuizPlayFacts.

Import QuizSection QuizSectionFacts JsFacts.

#[local] Arguments QuizSection.checkAnswer : simpl never.

(** One correct answer, one point. *)
Fixpoint tally (qs : list QuizGenerator.QuizQuestion) (answers : list JsString)
  : Z :=
  match qs, answers with
  | cq :: qs', a :: answers' =>
      (if str_eqb (QuizGenerator.correctAnswer cq) a then 1 else 0)
      + tally qs' answers'
  | _, _ => 0
  end.

(** Start a quiz, then answer each question once, move on and let the card
    leave. *)
Definition answering (answers : list JsString) : list Click :=
  flat_map (fun a => [ClickOption a; ClickNext; ExitComplete]) answers.

Definition play (q : QuizGenerator.Quiz) (answers : list JsString) : list Click :=
  ClickStart (Some q) :: answering answers.

Definition at_question (q : QuizGenerator.Quiz) (i : nat) (k : Z)
  (sel : option JsString) (done : list Z) : State :=
  {| currentQuiz := Some q; error := None;
     currentQuestionIndex := Z.of_nat i; selectedAnswer := sel;
     showExplanation := false; score := k; quizCompleted := false;
     completions := done; leaving := None |}.

Lemma question_at_split q pre cq rest :
  QuizGenerator.questions q = pre ++ cq :: rest ->
  question_at q (Z.of_nat (List.length pre)) = Some cq.
Proof.
  intros H. unfold question_at.
  assert (Hz : (0 <=? Z.of_nat (List.length pre)) = true) by (apply Z.leb_le; lia).
  rewrite Hz, Nat2Z.id, H, nth_error_app2, Nat.sub_diag by lia. reflexivity.
Qed.

Lemma offered_option a (os : list JsString) :
  In a os -> existsb (str_eqb a) os = true.
Proof.
  intros H. apply existsb_exists. exists a. split; [exact H | apply str_eqb_refl].
Qed.

Lemma answer_and_next q pre cq rest a k sel done :
  QuizGenerator.questions q = pre ++ cq :: rest ->
  In a (QuizGenerator.options cq) ->
  let k' := if str_eqb (QuizGenerator.correctAnswer cq) a then k + 1 else k in
  click (click (click (at_question q (List.length pre) k sel done)
                  (ClickOption a)) ClickNext) ExitComplete
  = match rest with
    | [] =>
        {| currentQuiz := Some q; error := None;
           currentQuestionIndex := Z.of_nat (List.length pre);
           selectedAnswer := None; showExplanation := false; score := k';
           quizCompleted := true; completions := done ++ [k'];
           leaving := None |}
    | _ :: _ => at_question q (S (List.length pre)) k' None done
    end.
Proof.
  intros Hq Ha k'.
  pose proof (question_at_split q pre cq rest Hq) as Hat.
  assert (Hlen : Z.of_nat (List.length (QuizGenerator.questions q))
                 = Z.of_nat (List.length pre) + 1 + Z.of_nat (List.length rest)).
  { rewrite Hq, length_app. cbn [List.length]. lia. }
  set (s1 := {| currentQuiz := Some q; error := None;
                currentQuestionIndex := Z.of_nat (List.length pre);
                selectedAnswer := Some a; showExplanation := true; score := k';
                quizCompleted := false; completions := done;
                leaving := None |}).
  assert (E1 : click (at_question q (List.length pre) k sel done) (ClickOption a)
               = s1).
  { unfold click, offered, render, on_screen, card_question. cbn.
    rewrite Hat. cbn. rewrite (offered_option a _ Ha).
    unfold handleAnswerSelect, bind, modify, await, when, ret. cbn.
    rewrite (checkAnswer_returns _ _ q cq a) by (reflexivity || exact Hat).
    unfold present, render. subst s1 k'.
    destruct (str_eqb (QuizGenerator.correctAnswer cq) a); cbn;
      rewrite Hat, Z.eqb_refl; reflexivity. }
  rewrite E1. clear E1.
  destruct rest as [|cq' rest'].
  - assert (Hl : (Z.of_nat (List.length pre)
                  <? Z.of_nat (List.length (QuizGenerator.questions q)) - 1)
                 = false) by (apply Z.ltb_ge; cbn [List.length] in Hlen; lia).
    assert (E2 : click s1 ClickNext
                 = {| currentQuiz := Some q; error := None;
                      currentQuestionIndex := Z.of_nat (List.length pre);
                      selectedAnswer := None; showExplanation := false;
                      score := k'; quizCompleted := true;
                      completions := done ++ [k']; leaving := None |}).
    { unfold click, offered, render, on_screen. subst s1. cbn.
      rewrite Hat. cbn.
      unfold handleNextQuestion, bind, modify, ret. cbn. rewrite Hl. cbn.
      unfold present, render. cbn. reflexivity. }
    rewrite E2. reflexivity.
  - assert (Hq' : QuizGenerator.questions q = (pre ++ [cq]) ++ cq' :: rest')
      by (rewrite <- app_assoc; exact Hq).
    pose proof (question_at_split q _ cq' rest' Hq') as Hat'.
    rewrite length_app in Hat'. cbn [List.length] in Hat'.
    replace (Z.of_nat (List.length pre + 1)) with (Z.of_nat (List.length pre) + 1)
      in Hat' by lia.
    assert (Hl : (Z.of_nat (List.length pre)
                  <? Z.of_nat (List.length (QuizGenerator.questions q)) - 1)
                 = true) by (apply Z.ltb_lt; cbn [List.length] in Hlen; lia).
    assert (Hne : (Z.of_nat (List.length pre) =? Z.of_nat (List.length pre) + 1)
                  = false) by (apply Z.eqb_neq; lia).
    set (s2 := {| currentQuiz := Some q; error := None;
                  currentQuestionIndex := Z.of_nat (List.length pre) + 1;
                  selectedAnswer := None; showExplanation := false;
                  score := k'; quizCompleted := false; completions := done;
                  leaving := Some (closure s1) |}).
    assert (E2 : click s1 ClickNext = s2).
    { unfold click, offered, render, on_screen. subst s1. cbn.
      rewrite Hat. cbn.
      unfold handleNextQuestion, bind, modify, ret. cbn. rewrite Hl. cbn.
      unfold present, render. cbn. rewrite Hat, Hat', Hne. reflexivity. }
    rewrite E2. clear E2.
    unfold click, offered, render. subst s2. cbn. rewrite Hat'. cbn.
    unfold present, render. cbn. rewrite Hat'. unfold at_question.
    rewrite Nat2Z.inj_succ. unfold Z.succ. reflexivity.
Qed.

Definition finished (q : QuizGenerator.Quiz) (last : nat) (k : Z) (done : list Z)
  : State :=
  {| currentQuiz := Some q; error := None;
     currentQuestionIndex := Z.of_nat last; selectedAnswer := None;
     showExplanation := false; score := k; quizCompleted := true;
     completions := done ++ [k]; leaving := None |}.

Lemma answering_rest q rest answers :
  Forall2 (fun cq a => In a (QuizGenerator.options cq)) rest answers ->
  rest <> [] ->
  forall pre k sel done,
    QuizGenerator.questions q = pre ++ rest ->
    fold_left click (answering answers)
      (at_question q (List.length pre) k sel done)
    = finished q (List.length pre + List.length rest - 1)
        (k + tally rest answers) done.
Proof.
  induction 1 as [|cq a rest answers Ha Hrest IH]; intros Hne pre k sel done Hq;
    [congruence|].
  change (answering (a :: answers))
    with ([ClickOption a; ClickNext; ExitComplete] ++ answering answers).
  rewrite fold_left_app.
  change (fold_left click [ClickOption a; ClickNext; ExitComplete]
            (at_question q (List.length pre) k sel done))
    with (click (click (click (at_question q (List.length pre) k sel done)
                          (ClickOption a)) ClickNext) ExitComplete).
  rewrite (answer_and_next q pre cq rest a k sel done Hq Ha).
  assert (Hk : k + tally (cq :: rest) (a :: answers)
               = (if str_eqb (QuizGenerator.correctAnswer cq) a then k + 1 else k)
                 + tally rest answers).
  { cbn [tally]. destruct (str_eqb (QuizGenerator.correctAnswer cq) a); lia. }
  rewrite Hk. clear Hk.
  destruct rest as [|cq' rest'].
  - inversion Hrest; subst. cbn [answering flat_map fold_left tally List.length].
    rewrite Z.add_0_r.
    replace (List.length pre + 1 - 1)%nat with (List.length pre) by lia.
    reflexivity.
  - assert (Hq' : QuizGenerator.questions q = (pre ++ [cq]) ++ cq' :: rest')
      by (rewrite <- app_assoc; exact Hq).
    assert (Hlen : S (List.length pre) = List.length (pre ++ [cq]))
      by (rewrite length_app; cbn; lia).
    rewrite Hlen, (IH ltac:(discriminate) (pre ++ [cq]) _ None done Hq').
    rewrite <- Hlen.
    replace (S (List.length pre) + List.length (cq' :: rest') - 1)%nat
      with (List.length pre + List.length (cq :: cq' :: rest') - 1)%nat
      by (cbn [List.length]; lia).
    reflexivity.
Qed.

Lemma tally_bounds qs answers :
  0 <= tally qs answers <= Z.of_nat (List.length qs).
Proof.
  revert answers. induction qs as [|cq qs IH]; intros [|a answers];
    cbn [tally List.length]; try lia.
  specialize (IH answers).
  destruct (str_eqb (QuizGenerator.correctAnswer cq) a); lia.
Qed.

(** Playing a quiz to the end: start it, and for each question pick one of
    the offered options, move on and let the card leave.  The completion
    screen is reached, the score is the number of answers equal to their
    question's [correctAnswer], that score is passed to [onComplete]
    exactly once, and [handleQuizComplete] records it in the history as
    one answer reading 'Quiz completed! Score: ' followed by the number. *)
Theorem full_play_reports_tally
  (q : QuizGenerator.Quiz) (answers : list JsString) (w : World) :
  QuizGenerator.questions q <> [] ->
  Forall2 (fun cq a => In a (QuizGenerator.options cq))
    (QuizGenerator.questions q) answers ->
  let s := run (play q answers) in
  let n := tally (QuizGenerator.questions q) answers in
  render s = CompletedView
  /\ score s = n
  /\ completions s = [n]
  /\ 0 <= n <= Z.of_nat (List.length (QuizGenerator.questions q))
  /\ App.history (App.after (App.QuizComplete (score s)) w)
     = App.history w
       ++ [{| type := answer;
              text := js "Quiz completed! Score: " ++ index_key n;
              timestamp := clock w |}].
Proof.
  intros Hne Hall s n.
  assert (Hs : s = finished q (List.length (QuizGenerator.questions q) - 1) n []).
  { subst s n. unfold run, play. cbn [fold_left].
    assert (H0 : click initial (ClickStart (Some q)) = at_question q 0 0 None []).
    { unfold click, present, render. cbn.
      destruct (QuizGenerator.questions q); reflexivity. }
    rewrite H0. clear H0.
    pose proof (answering_rest q _ _ Hall Hne [] 0 None [] eq_refl) as H.
    cbn [List.length Nat.add app] in H. rewrite H. reflexivity. }
  rewrite Hs. cbn. repeat split; try reflexivity; apply tally_bounds.
Qed.

Lemma full_play_reports_tally_witness :
  completions (run (play QuizGeneratorFacts.sample_quiz [js "4"])) = [1]
  /\ completions (run (play QuizGeneratorFacts.sample_quiz [js "22"])) = [0].
Proof.
  split.
  - refine (proj1 (proj2 (proj2 (full_play_reports_tally
              QuizGeneratorFacts.sample_quiz [js "4"] initial_world _ _)))).
    + discriminate.
    + constructor; [right; left; reflexivity | constructor].
  - refine (proj1 (proj2 (proj2 (full_play_reports_tally
              QuizGeneratorFacts.sample_quiz [js "22"] initial_world _ _)))).
    + discriminate.
    + constructor; [right; right; right; left; reflexivity | constructor].
Defined.

(** *** The question view *)











End QuizPlayFacts.
